(** * Ipswich Town database: reconciliation pipeline

    A shallow embedding of the two provider clients
    ([api/football_data_client.py], [api/thesportsdb_client.py]), of the
    database manager ([database/db_manager.py]) and of the two pipeline
    scripts ([scripts/fetch_current_season.py], [scripts/daily_update.py]),
    followed by the properties of the specification that concern them.

    Conventions.
    - Python values that travel through the code (decoded JSON, the
      dictionaries the adapters build, SQL parameters) are values of the
      type [value].  The numbers of the type are the integers: a JSON
      number with a fraction or an exponent, which Python decodes to a
      [float], is outside the embedding, and so is what the code does
      with one.
    - A Python [dict] is an association list searched from the left;
      [dict_set] overwrites an existing key in place, as Python does.
    - Text is a [string] of ASCII characters, without the NUL character
      where it is sent to the database (the driver refuses it).
    - Code that can raise returns a [result]; the kind of the exception
      is kept because the handlers of the source select on it. *)

From Stdlib Require Import ZArith List String Ascii Bool Lia.
From Stdlib Require Import DecimalString Permutation.
Import ListNotations.

Local Open Scope string_scope.
Local Open Scope Z_scope.

(** ** Python values *)

#[warnings="-register-all"]
Inductive value : Type :=
| VNone
| VBool (b : bool)
| VInt (z : Z)
| VStr (s : string)
| VList (l : list value)
| VDict (d : list (string * value)).

Definition dict := list (string * value).

Inductive exn : Type :=
| KeyError | IndexError | AttributeError | TypeError | ValueError
| RecursionError | HTTPError | RequestException | DbError.

Inductive result (A : Type) : Type :=
| Ok (a : A)
| Raise (e : exn).
Arguments Ok {A} a.
Arguments Raise {A} e.

Definition rbind {A B} (r : result A) (k : A -> result B) : result B :=
  match r with
  | Ok a => k a
  | Raise e => Raise e
  end.

Declare Scope result_scope.
Delimit Scope result_scope with result.
Notation "x <- r ;; k" := (rbind r (fun x => k))
  (at level 61, r at next level, right associativity) : result_scope.

(** [try: ... except Exception: return None] *)
Definition catch_all {A} (r : result A) : option A :=
  match r with
  | Ok a => Some a
  | Raise _ => None
  end.

(** Truth value of an object, as [if x:] and [not x] test it. *)
Definition truthy (v : value) : bool :=
  match v with
  | VNone => false
  | VBool b => b
  | VInt z => negb (z =? 0)
  | VStr s => negb (s =? "")%string
  | VList l => match l with [] => false | _ => true end
  | VDict d => match d with [] => false | _ => true end
  end.

Definition is_none (v : value) : bool :=
  match v with VNone => true | _ => false end.

(** ** Dictionaries *)

Fixpoint dict_lookup (d : dict) (k : string) : option value :=
  match d with
  | [] => None
  | (k', v) :: d' => if (k' =? k)%string then Some v else dict_lookup d' k
  end.

(** [d.get(k, default)] *)
Definition dict_get_default (d : dict) (k : string) (default : value) : value :=
  match dict_lookup d k with
  | Some v => v
  | None => default
  end.

(** [d.get(k)] *)
Definition dict_get (d : dict) (k : string) : value :=
  dict_get_default d k VNone.

(** [d[k] = v] *)
Fixpoint dict_set (d : dict) (k : string) (v : value) : dict :=
  match d with
  | [] => [(k, v)]
  | (k', v') :: d' =>
      if (k' =? k)%string then (k, v) :: d' else (k', v') :: dict_set d' k v
  end.

(** [d.update(other)] *)
Definition dict_update (d other : dict) : dict :=
  fold_left (fun acc kv => dict_set acc (fst kv) (snd kv)) other d.

(** [x.get(k, default)] on an arbitrary object: only a dict has [get]. *)
Definition get_default (x : value) (k : string) (default : value) : result value :=
  match x with
  | VDict d => Ok (dict_get_default d k default)
  | _ => Raise AttributeError
  end.

Definition get (x : value) (k : string) : result value :=
  get_default x k VNone.

(** [x[k]] with a string key. *)
Definition subscript (x : value) (k : string) : result value :=
  match x with
  | VDict d =>
      match dict_lookup d k with
      | Some v => Ok v
      | None => Raise KeyError
      end
  | _ => Raise TypeError
  end.

(** ** Text *)

Definition string_of_Z (z : Z) : string :=
  NilZero.string_of_int (Z.to_int z).

Fixpoint join (sep : string) (l : list string) : string :=
  match l with
  | [] => ""
  | [s] => s
  | s :: l' => s ++ sep ++ join sep l'
  end.

(** [s[:n]] and [s[n:]] for a non-negative literal [n]. *)
Fixpoint str_take (n : nat) (s : string) : string :=
  match n, s with
  | O, _ => ""
  | S n', EmptyString => ""
  | S n', String c s' => String c (str_take n' s')
  end.

Fixpoint str_drop (n : nat) (s : string) : string :=
  match n, s with
  | O, _ => s
  | S n', EmptyString => ""
  | S n', String c s' => str_drop n' s'
  end.

(** [s.split(c)] for a one-character separator: never empty. *)
Fixpoint split_on (c : ascii) (s : string) : list string :=
  match s with
  | EmptyString => [""]
  | String a s' =>
      if Ascii.eqb a c then "" :: split_on c s'
      else match split_on c s' with
           | [] => [String a ""]
           | p :: ps => String a p :: ps
           end
  end.

Fixpoint str_mem (c : ascii) (s : string) : bool :=
  match s with
  | EmptyString => false
  | String a s' => Ascii.eqb a c || str_mem c s'
  end.

Definition hex_digit (n : N) : ascii :=
  ascii_of_N (if (n <? 10)%N then 48 + n else 87 + n).

(** [repr] of a string: quote selection and escapes. *)
Definition repr_char (q : ascii) (c : ascii) : string :=
  let n := N_of_ascii c in
  if Ascii.eqb c q then String "\" (String c "")
  else if Ascii.eqb c "\" then "\\"
  else if (n =? 9)%N then "\t"
  else if (n =? 10)%N then "\n"
  else if (n =? 13)%N then "\r"
  else if ((n <? 32) || (n =? 127))%N
       then String "\" (String "x" (String (hex_digit (n / 16)) (String (hex_digit (n mod 16)) "")))
  else String c "".

Fixpoint repr_chars (q : ascii) (s : string) : string :=
  match s with
  | EmptyString => ""
  | String c s' => repr_char q c ++ repr_chars q s'
  end.

Definition dquote : ascii := ascii_of_N 34.

Definition repr_string (s : string) : string :=
  let q : ascii :=
    if str_mem "'" s && negb (str_mem dquote s) then dquote else "'"%char in
  String q (repr_chars q s ++ String q "").

Fixpoint py_repr (v : value) : string :=
  match v with
  | VNone => "None"
  | VBool true => "True"
  | VBool false => "False"
  | VInt z => string_of_Z z
  | VStr s => repr_string s
  | VList l => "[" ++ join ", " (map py_repr l) ++ "]"
  | VDict d =>
      "{" ++ join ", "
               (map (fun kv => match kv with
                               | (k, x) => repr_string k ++ ": " ++ py_repr x
                               end) d) ++ "}"
  end.

(** [str(x)], also what an f-string substitutes. *)
Definition py_str (v : value) : string :=
  match v with
  | VStr s => s
  | _ => py_repr v
  end.

(** Equality of objects ([==]): [True == 1], lists pointwise, dicts as
    finite maps whatever the order of their keys. *)
Definition as_int (v : value) : option Z :=
  match v with
  | VInt z => Some z
  | VBool b => Some (if b then 1 else 0)
  | _ => None
  end.

Fixpoint value_eqb (v w : value) {struct v} : bool :=
  match v with
  | VNone => is_none w
  | VBool b =>
      match as_int w with Some z => (if b then 1 else 0) =? z | None => false end
  | VInt z =>
      match as_int w with Some z' => z =? z' | None => false end
  | VStr s =>
      match w with VStr s' => (s =? s')%string | _ => false end
  | VList l =>
      match w with
      | VList l' =>
          (fix go (xs : list value) (ys : list value) {struct xs} : bool :=
             match xs, ys with
             | [], [] => true
             | x :: xs', y :: ys' => value_eqb x y && go xs' ys'
             | _, _ => false
             end) l l'
      | _ => false
      end
  | VDict d =>
      match w with
      | VDict d' =>
          (List.length d =? List.length d')%nat &&
          (fix go (xs : list (string * value)) {struct xs} : bool :=
             match xs with
             | [] => true
             | (k, x) :: xs' =>
                 match dict_lookup d' k with
                 | Some y => value_eqb x y && go xs'
                 | None => false
                 end
             end) d
      | _ => false
      end
  end.

(** ** [int(s)] on text

    Surrounding white space is dropped, one sign is allowed, and single
    underscores may separate digits.  On ASCII text the white space of
    [int] is the characters 9 to 13 and the blank.  A text of more than
    [max_str_digits] digits is refused, whatever else it holds. *)

Definition is_space (c : ascii) : bool :=
  let n := N_of_ascii c in
  ((9 <=? n) && (n <=? 13) || (n =? 32))%N.

Definition digit_val (c : ascii) : option Z :=
  let n := N_of_ascii c in
  if ((48 <=? n) && (n <=? 57))%N then Some (Z.of_N n - 48) else None.

Fixpoint lstrip (s : string) : string :=
  match s with
  | String c s' => if is_space c then lstrip s' else s
  | EmptyString => ""
  end.

Fixpoint rstrip (s : string) : string :=
  match s with
  | EmptyString => ""
  | String c s' =>
      match rstrip s' with
      | EmptyString => if is_space c then "" else String c ""
      | r => String c r
      end
  end.

Definition strip (s : string) : string := rstrip (lstrip s).

(** Digits after the first one; [after_us] tells that the previous
    character was an underscore, which must be followed by a digit. *)
Fixpoint int_digits (acc : Z) (after_us : bool) (s : string) : option Z :=
  match s with
  | EmptyString => if after_us then None else Some acc
  | String c s' =>
      match digit_val c with
      | Some d => int_digits (10 * acc + d) false s'
      | None =>
          if Ascii.eqb c "_" && negb after_us then int_digits acc true s'
          else None
      end
  end.

Definition int_unsigned (s : string) : option Z :=
  match s with
  | EmptyString => None
  | String c s' =>
      match digit_val c with
      | Some d => int_digits d false s'
      | None => None
      end
  end.

(** [sys.get_int_max_str_digits()], as the interpreter starts with it. *)
Definition max_str_digits : Z := 4300.

Fixpoint count_digits (s : string) : Z :=
  match s with
  | EmptyString => 0
  | String c s' =>
      match digit_val c with
      | Some _ => 1 + count_digits s'
      | None => count_digits s'
      end
  end.

Definition int_of_str (s : string) : result Z :=
  let body :=
    match strip s with
    | String c s' =>
        if Ascii.eqb c "-" then option_map Z.opp (int_unsigned s')
        else if Ascii.eqb c "+" then int_unsigned s'
        else int_unsigned (String c s')
    | EmptyString => None
    end in
  match body with
  | Some z =>
      if max_str_digits <? count_digits (strip s) then Raise ValueError
      else Ok z
  | None => Raise ValueError
  end.

(** The number of digits of the decimal text of an integer. *)
Definition decimal_digits (z : Z) : Z :=
  Z.of_nat (String.length (string_of_Z (Z.abs z))).

(** [str(n)] of an integer, which is what an f-string substitutes for
    it: like [int], the conversion is refused beyond [max_str_digits]
    digits.  The integers that travel as values are within the limit,
    because JSON decoding and [int] produce no others. *)
Definition str_of_int (z : Z) : result string :=
  if max_str_digits <? decimal_digits z then Raise ValueError
  else Ok (string_of_Z z).

(** [int(x)] on an object. *)
Definition py_int (v : value) : result Z :=
  match v with
  | VInt z => Ok z
  | VBool b => Ok (if b then 1 else 0)
  | VStr s => int_of_str s
  | _ => Raise TypeError
  end.

(** ** Slices, indexing and methods on objects *)

(** [x[:n]] *)
Definition slice_to (n : nat) (x : value) : result value :=
  match x with
  | VStr s => Ok (VStr (str_take n s))
  | VList l => Ok (VList (firstn n l))
  | _ => Raise TypeError
  end.

(** [x[n:]] *)
Definition slice_from (n : nat) (x : value) : result value :=
  match x with
  | VStr s => Ok (VStr (str_drop n s))
  | VList l => Ok (VList (skipn n l))
  | _ => Raise TypeError
  end.

(** [x.split(c)] *)
Definition split_method (x : value) (c : ascii) : result (list string) :=
  match x with
  | VStr s => Ok (split_on c s)
  | _ => Raise AttributeError
  end.

(** [l[i]] on the list a [split] returned. *)
Definition nth_piece (l : list string) (i : nat) : result string :=
  match nth_error l i with
  | Some s => Ok s
  | None => Raise IndexError
  end.

(** [x[0]] *)
Definition index0 (x : value) : result value :=
  match x with
  | VList (v :: _) => Ok v
  | VList [] => Raise IndexError
  | VStr (String c _) => Ok (VStr (String c ""))
  | VStr EmptyString => Raise IndexError
  | VDict _ => Raise KeyError
  | _ => Raise TypeError
  end.

(** Building a dict literal entry by entry. *)
Definition entry (k : string) (v : value) : string * value := (k, v).

(** ** Logging, time and the network *)

Inductive level : Type := INFO | WARNING | ERROR.

(** A formatted message; an exception substituted in an f-string is kept
    as the exception, its text being the library's. *)
Inductive log_msg : Type :=
| Msg (text : string)
| MsgExn (text : string) (e : exn).

Definition log_record : Type := level * log_msg.

(** What one [session.get] comes back with: a response with its status
    code and decoded JSON body, or no response at all (time-out, refused
    connection: a [RequestException] that is no [HTTPError]). *)
Inductive http_outcome : Type :=
| Response (status : Z) (body : value)
| NoResponse.

(** The upstream provider: the outcome of the n-th request sent to it,
    and the seconds it takes. *)
Definition upstream : Type := nat -> http_outcome * Z.

(** What a client did: a sleep, the n-th request with the time at which
    it was sent, a log record. *)
Inductive event : Type :=
| EvSleep (seconds : Z)
| EvGet (n : nat) (time : Z)
| EvLog (r : log_record).

(** The state a client works in: the wall clock in seconds, the number
    of requests sent so far, the client's [last_request_time] and the
    trace of what it did, latest first. *)
Record world : Type := mkWorld {
  clock : Z;
  sent : nat;
  last_request_time : Z;
  trace : list event
}.

Definition sleep (d : Z) (w : world) : world :=
  mkWorld (clock w + d) (sent w) (last_request_time w) (EvSleep d :: trace w).

Definition emit (l : level) (m : log_msg) (w : world) : world :=
  mkWorld (clock w) (sent w) (last_request_time w) (EvLog (l, m) :: trace w).

(** [session.get(...)]: the next outcome of the upstream. *)
Definition session_get (up : upstream) (w : world) : http_outcome * world :=
  let '(o, d) := up (sent w) in
  (o, mkWorld (clock w + d) (S (sent w)) (last_request_time w)
              (EvGet (sent w) (clock w) :: trace w)).

(** [response.raise_for_status()] raises for the codes 400 to 599. *)
Definition is_http_error (status : Z) : bool :=
  (400 <=? status) && (status <? 600).

(** [l[:count]] for any integer [count]. *)
Definition list_slice_to {A} (count : Z) (l : list A) : list A :=
  if 0 <=? count then firstn (Z.to_nat count) l
  else firstn (List.length l - Z.to_nat (- count)) l.

Fixpoint chars (s : string) : list value :=
  match s with
  | EmptyString => []
  | String c s' => VStr (String c "") :: chars s'
  end.

(** The items [for x in v[:count]] runs over. *)
Definition sliced_items (count : Z) (v : value) : result (list value) :=
  match v with
  | VList l => Ok (list_slice_to count l)
  | VStr s => Ok (list_slice_to count (chars s))
  | _ => Raise TypeError
  end.

Fixpoint is_prefix (p s : string) : bool :=
  match p, s with
  | EmptyString, _ => true
  | String a p', String b s' => Ascii.eqb a b && is_prefix p' s'
  | String _ _, EmptyString => false
  end.

Fixpoint is_substring (p s : string) : bool :=
  is_prefix p s ||
  match s with
  | EmptyString => false
  | String _ s' => is_substring p s'
  end.

(** ['k' in x] for a string [k]. *)
Definition contains (x : value) (k : string) : result bool :=
  match x with
  | VDict d => Ok (match dict_lookup d k with Some _ => true | None => false end)
  | VList l => Ok (existsb (fun v => value_eqb v (VStr k)) l)
  | VStr s => Ok (is_substring k s)
  | _ => Raise TypeError
  end.

(** [x or []] *)
Definition or_empty_list (x : value) : value :=
  if truthy x then x else VList [].

Module FootballData.

Local Open Scope result_scope.

(** [FootballDataClient._map_status] *)
Definition status_map : list (string * string) :=
  [ ("SCHEDULED", "scheduled");
    ("TIMED", "scheduled");
    ("IN_PLAY", "live");
    ("PAUSED", "live");
    ("FINISHED", "finished");
    ("POSTPONED", "postponed");
    ("CANCELLED", "cancelled");
    ("SUSPENDED", "postponed");
    ("AWARDED", "finished") ].

Fixpoint status_lookup (m : list (string * string)) (k : string) : option string :=
  match m with
  | [] => None
  | (k', v) :: m' => if (k' =? k)%string then Some v else status_lookup m' k
  end.

(** A list or a dict is not hashable and cannot be looked up; any other
    object that is not one of the keys gets the default. *)
Definition _map_status (status : value) : result string :=
  match status with
  | VStr s =>
      Ok (match status_lookup status_map s with
          | Some c => c
          | None => "scheduled"
          end)
  | VList _ | VDict _ => Raise TypeError
  | _ => Ok "scheduled"
  end.

(** [FootballDataClient._extract_season] *)
Definition _extract_season (match_data : value) : result value :=
  season_data <- get_default match_data "season" (VDict []) ;;
  start_date <- get_default season_data "startDate" (VStr "") ;;
  end_date <- get_default season_data "endDate" (VStr "") ;;
  if truthy start_date && truthy end_date then
    start_year <- slice_to 4 start_date ;;
    end_year <- slice_to 4 end_date ;;
    if negb (value_eqb start_year end_year) then
      tail <- slice_from 2 end_year ;;
      Ok (VStr (py_str start_year ++ "/" ++ py_str tail))
    else Ok start_year
  else Ok (VStr "").

(** The two conditional expressions on [utcDate]. *)
Definition utc_date_part (match_data : value) : result value :=
  utc <- get match_data "utcDate" ;;
  if truthy utc then
    u <- get_default match_data "utcDate" (VStr "") ;;
    parts <- split_method u "T" ;;
    p <- nth_piece parts 0 ;;
    Ok (VStr p)
  else Ok VNone.

Definition utc_time_part (match_data : value) : result value :=
  utc <- get match_data "utcDate" ;;
  if truthy utc then
    u <- get_default match_data "utcDate" (VStr "") ;;
    parts <- split_method u "T" ;;
    p <- nth_piece parts 1 ;;
    q <- nth_piece (split_on "Z" p) 0 ;;
    Ok (VStr q)
  else Ok VNone.

(** [FootballDataClient._parse_match] *)
Definition _parse_match (match_data : value) (detailed : bool) : option dict :=
  catch_all (
    id <- get match_data "id" ;;
    match_date <- utc_date_part match_data ;;
    kick_off_time <- utc_time_part match_data ;;
    home <- subscript match_data "homeTeam" ;;
    home_name <- subscript home "name" ;;
    away <- subscript match_data "awayTeam" ;;
    away_name <- subscript away "name" ;;
    home_id <- subscript home "id" ;;
    away_id <- subscript away "id" ;;
    competition <- subscript match_data "competition" ;;
    competition_name <- subscript competition "name" ;;
    season <- _extract_season match_data ;;
    status_raw <- get match_data "status" ;;
    status <- _map_status status_raw ;;
    round <- get match_data "matchday" ;;
    venue <- get match_data "venue" ;;
    let match0 : dict :=
      [ entry "api_id" (VStr (py_str id));
        entry "match_date" match_date;
        entry "kick_off_time" kick_off_time;
        entry "home_team" home_name;
        entry "away_team" away_name;
        entry "home_team_id" (VStr (py_str home_id));
        entry "away_team_id" (VStr (py_str away_id));
        entry "competition" competition_name;
        entry "season" season;
        entry "status" (VStr status);
        entry "round" round;
        entry "venue" venue ] in
    score <- get_default match_data "score" (VDict []) ;;
    match1 <-
      (if truthy score then
         ft <- get_default score "fullTime" (VDict []) ;;
         home_score <- get ft "home" ;;
         ft' <- get_default score "fullTime" (VDict []) ;;
         away_score <- get ft' "away" ;;
         ht <- get_default score "halfTime" (VDict []) ;;
         home_score_ht <- get ht "home" ;;
         ht' <- get_default score "halfTime" (VDict []) ;;
         away_score_ht <- get ht' "away" ;;
         Ok (dict_update match0
               [ entry "home_score" home_score;
                 entry "away_score" away_score;
                 entry "home_score_ht" home_score_ht;
                 entry "away_score_ht" away_score_ht ])
       else Ok match0) ;;
    if detailed then
      referees <- get_default match_data "referees" (VList []) ;;
      match2 <-
        (if truthy referees then
           first <- index0 referees ;;
           name <- get first "name" ;;
           Ok (dict_set match1 "referee" name)
         else Ok match1) ;;
      attendance <- get match_data "attendance" ;;
      Ok (dict_set match2 "attendance" attendance)
    else Ok match1).

(** [FootballDataClient._rate_limit]; the delay is the constant set in
    [__init__]. *)
Definition rate_limit_delay : Z := 6.

Definition _rate_limit (w : world) : world :=
  let elapsed := clock w - last_request_time w in
  let w1 := if elapsed <? rate_limit_delay
            then sleep (rate_limit_delay - elapsed) w else w in
  mkWorld (clock w1) (sent w1) (clock w1) (trace w1).

(** [FootballDataClient._make_request].  After a 429 the method calls
    itself from inside the handler of the error, so every retry in a row
    is one more frame on the stack of the interpreter; [depth] is the
    number of nested calls of the method that the recursion limit still
    has room for.  The call that does not fit raises [RecursionError],
    which no handler of the calls around it catches.  The returned
    [VNone] is Python's [None]. *)
Fixpoint _make_request (depth : nat) (api_key : string) (up : upstream)
    (w : world) : result value * world :=
  match depth with
  | O => (Raise RecursionError, w)
  | S depth' =>
      if (api_key =? "")%string then
        (Ok VNone,
         emit WARNING (Msg "Football-Data.org API key not configured") w)
      else
        let w1 := _rate_limit w in
        let '(o, w2) := session_get up w1 in
        match o with
        | Response status body =>
            if is_http_error status then
              if status =? 429 then
                let w3 := emit WARNING (Msg "Rate limit exceeded, waiting...") w2 in
                _make_request depth' api_key up (sleep 60 w3)
              else (Ok VNone, emit ERROR (MsgExn "HTTP error: " HTTPError) w2)
            else (Ok body, w2)
        | NoResponse =>
            (Ok VNone,
             emit ERROR (MsgExn "API request failed: " RequestException) w2)
        end
  end.

End FootballData.

(** ** Calendar dates *)

Record date : Type := mkDate { year : Z; month : Z; day : Z }.

Definition is_leap (y : Z) : bool :=
  ((y mod 4 =? 0) && negb (y mod 100 =? 0)) || (y mod 400 =? 0).

Definition days_in_month (y m : Z) : Z :=
  if m =? 2 then (if is_leap y then 29 else 28)
  else if (m =? 4) || (m =? 6) || (m =? 9) || (m =? 11) then 30
  else 31.

(** What the [date] constructor accepts. *)
Definition valid_date (d : date) : bool :=
  (1 <=? year d) && (year d <=? 9999) &&
  (1 <=? month d) && (month d <=? 12) &&
  (1 <=? day d) && (day d <=? days_in_month (year d) (month d)).

(** [d1 < d2] *)
Definition date_ltb (d1 d2 : date) : bool :=
  (year d1 <? year d2) ||
  ((year d1 =? year d2) &&
   ((month d1 <? month d2) ||
    ((month d1 =? month d2) && (day d1 <? day d2)))).

(** [datetime.strptime(s, '%Y-%m-%d').date()]: the directives are the
    regular expressions [\d\d\d\d], [1[0-2]|0[1-9]|[1-9]] and
    [3[01]|[12]\d|0[1-9]|[1-9]| [1-9]], tried in this order; text left
    after the match, and a day the month does not have, are refused. *)
Definition two_digits (a b : ascii) : option Z :=
  match digit_val a, digit_val b with
  | Some x, Some y => Some (10 * x + y)
  | _, _ => None
  end.

Definition parse_year (s : string) : option (Z * string) :=
  match s with
  | String a (String b (String c (String d rest))) =>
      match two_digits a b, two_digits c d with
      | Some hi, Some lo => Some (100 * hi + lo, rest)
      | _, _ => None
      end
  | _ => None
  end.

(** The alternatives of [%m] at the head of [s], in the order the
    regular expression tries them. *)
Definition month_alternatives (s : string) : list (Z * string) :=
  (match s with
   | String a (String b rest) =>
       match two_digits a b with
       | Some m => if ((10 <=? m) && (m <=? 12)) || ((1 <=? m) && (m <=? 9))
                   then [(m, rest)] else []
       | None => []
       end
   | _ => []
   end) ++
  (match s with
   | String a rest =>
       match digit_val a with
       | Some m => if 1 <=? m then [(m, rest)] else []
       | None => []
       end
   | _ => []
   end).

(** The first alternative of [%d] that matches at the head of [s]. *)
Definition parse_day (s : string) : option (Z * string) :=
  let two :=
    match s with
    | String a (String b rest) =>
        match two_digits a b with
        | Some d => if (1 <=? d) && (d <=? 31) then Some (d, rest) else None
        | None => None
        end
    | _ => None
    end in
  let one :=
    match s with
    | String a rest =>
        match digit_val a with
        | Some d => if 1 <=? d then Some (d, rest) else None
        | None => None
        end
    | _ => None
    end in
  let blank :=
    match s with
    | String " " (String b rest) =>
        match digit_val b with
        | Some d => if 1 <=? d then Some (d, rest) else None
        | None => None
        end
    | _ => None
    end in
  match two, one, blank with
  | Some r, _, _ => Some r
  | None, Some r, _ => Some r
  | None, None, r => r
  end.

Fixpoint first_month_day (alts : list (Z * string)) : option (Z * Z * string) :=
  match alts with
  | [] => None
  | (m, String "-" rest) :: alts' =>
      match parse_day rest with
      | Some (d, rest') => Some (m, d, rest')
      | None => first_month_day alts'
      end
  | _ :: alts' => first_month_day alts'
  end.

Definition strptime_ymd (s : string) : result date :=
  match parse_year s with
  | Some (y, String "-" rest) =>
      match first_month_day (month_alternatives rest) with
      | Some (m, d, EmptyString) =>
          let dt := mkDate y m d in
          if valid_date dt then Ok dt else Raise ValueError
      | _ => Raise ValueError
      end
  | _ => Raise ValueError
  end.

Module TheSportsDB.

Local Open Scope result_scope.

(** [TheSportsDBClient._parse_score]; [_parse_int] has the same body. *)
Definition _parse_score (score : value) : value :=
  if is_none score || value_eqb score (VStr "") then VNone
  else match py_int score with
       | Ok z => VInt z
       | Raise ValueError => VNone
       | Raise TypeError => VNone
       | Raise _ => VNone
       end.

Definition _parse_int (v : value) : value :=
  if is_none v || value_eqb v (VStr "") then VNone
  else match py_int v with
       | Ok z => VInt z
       | Raise ValueError => VNone
       | Raise TypeError => VNone
       | Raise _ => VNone
       end.

(** [TheSportsDBClient._determine_status]; [today] is
    [datetime.now().date()].  Only [ValueError] is handled: a date that
    is no text makes [strptime] raise [TypeError], which escapes. *)
Definition _determine_status (today : date) (event : value) : result string :=
  home_score <- get event "intHomeScore" ;;
  away_score <- get event "intAwayScore" ;;
  if negb (is_none home_score) && negb (is_none away_score) then Ok "finished"
  else
    match_date_str <- get event "dateEvent" ;;
    if truthy match_date_str then
      match match_date_str with
      | VStr s =>
          match strptime_ymd s with
          | Ok match_date =>
              if date_ltb match_date today then Ok "finished" else Ok "scheduled"
          | Raise ValueError => Ok "scheduled"
          | Raise e => Raise e
          end
      | _ => Raise TypeError
      end
    else Ok "scheduled".

(** [TheSportsDBClient._parse_event] *)
Definition _parse_event (today : date) (event : value) (detailed : bool)
  : option dict :=
  catch_all (
    home_team_name <- get event "strHomeTeam" ;;
    let is_home := value_eqb home_team_name (VStr "Ipswich Town") in
    api_id <- get event "idEvent" ;;
    match_date <- get event "dateEvent" ;;
    kick_off_time <- get event "strTime" ;;
    home_team <- get event "strHomeTeam" ;;
    away_team <- get event "strAwayTeam" ;;
    home_score <- get event "intHomeScore" ;;
    away_score <- get event "intAwayScore" ;;
    competition <- get event "strLeague" ;;
    season <- get event "strSeason" ;;
    venue <- get event "strVenue" ;;
    round <- get event "intRound" ;;
    status <- _determine_status today event ;;
    let match_data : dict :=
      [ entry "api_id" api_id;
        entry "match_date" match_date;
        entry "kick_off_time" kick_off_time;
        entry "home_team" home_team;
        entry "away_team" away_team;
        entry "home_score" (_parse_score home_score);
        entry "away_score" (_parse_score away_score);
        entry "competition" competition;
        entry "season" season;
        entry "venue" venue;
        entry "round" round;
        entry "status" (VStr status) ] in
    if detailed then
      home_score_ht <- get event "intHomeScoreHT" ;;
      away_score_ht <- get event "intAwayScoreHT" ;;
      home_shots <- get event "intHomeShots" ;;
      away_shots <- get event "intAwayShots" ;;
      home_possession <- get event "intHomePossession" ;;
      away_possession <- get event "intAwayPossession" ;;
      home_yellow_cards <- get event "intHomeYellowCards" ;;
      away_yellow_cards <- get event "intAwayYellowCards" ;;
      home_red_cards <- get event "intHomeRedCards" ;;
      away_red_cards <- get event "intAwayRedCards" ;;
      referee <- get event "strReferee" ;;
      spectators <- get event "intSpectators" ;;
      Ok (dict_update match_data
            [ entry "home_score_ht" (_parse_score home_score_ht);
              entry "away_score_ht" (_parse_score away_score_ht);
              entry "home_shots" (_parse_int home_shots);
              entry "away_shots" (_parse_int away_shots);
              entry "home_possession" (_parse_int home_possession);
              entry "away_possession" (_parse_int away_possession);
              entry "home_yellow_cards" (_parse_int home_yellow_cards);
              entry "away_yellow_cards" (_parse_int away_yellow_cards);
              entry "home_red_cards" (_parse_int home_red_cards);
              entry "away_red_cards" (_parse_int away_red_cards);
              entry "referee" referee;
              entry "attendance" (_parse_int spectators) ])
    else Ok match_data).

(** The client's configuration: [SCRAPING_CONFIG['rate_limit_delay']]. *)
Definition rate_limit_delay : Z := 2.

(** [TheSportsDBClient._make_request]: [None] is [VNone]. *)
Definition _make_request (up : upstream) (w : world) : value * world :=
  let w1 := sleep rate_limit_delay w in
  let '(o, w2) := session_get up w1 in
  match o with
  | Response status body =>
      if is_http_error status
      then (VNone, emit ERROR (MsgExn "API request failed: " HTTPError) w2)
      else (body, w2)
  | NoResponse =>
      (VNone, emit ERROR (MsgExn "API request failed: " RequestException) w2)
  end.

(** The loop shared by [get_last_matches] and [get_next_matches]:
    a parsed match is appended when it is not empty. *)
Fixpoint collect (today : date) (events : list value) : list dict :=
  match events with
  | [] => []
  | event :: rest =>
      match _parse_event today event false with
      | Some m => if truthy (VDict m) then m :: collect today rest
                  else collect today rest
      | None => collect today rest
      end
  end.

Definition matches_under (key : string) (today : date) (count : Z)
    (up : upstream) (w : world) : result (list dict) * world :=
  let '(data, w') := _make_request up w in
  (if negb (truthy data) then Ok []
   else
     present <- contains data key ;;
     if negb present then Ok []
     else
       events <- subscript data key ;;
       items <- sliced_items count (or_empty_list events) ;;
       Ok (collect today items),
   w').

(** [TheSportsDBClient.get_last_matches] *)
Definition get_last_matches := matches_under "results".

(** [TheSportsDBClient.get_next_matches] *)
Definition get_next_matches := matches_under "events".

End TheSportsDB.

(** ** The relational store

    [database/schema.sql] is not among the sources.  What the statements
    of [db_manager.py] themselves fix is modelled directly: the tables
    and the columns they name, the conflict target of each [INSERT], and
    surrogate ids, which no [INSERT] supplies and which are therefore
    drawn from a sequence per table.  A [NULL] is [VNone]; a column
    holds the parameter it was given.  Everything else the schema may
    enforce is the parameter [Schema] below. *)

Record SeasonRow : Type := mkSeason {
  season_id : Z;
  season_name : string;
  start_date : string;
  end_date : string
}.

Record TeamRow : Type := mkTeam {
  team_id : Z;
  team_name : string;
  short_name : value;
  stadium : value;
  city : value;
  country : value;
  founded_year : value;
  team_api_id_thesportsdb : value;
  team_api_id_football_data : value
}.

Record CompetitionRow : Type := mkCompetition {
  competition_id : Z;
  competition_name : string
}.

Record MatchRow : Type := mkMatch {
  match_id : Z;
  m_season_id : value;
  m_competition_id : value;
  match_date : value;
  kick_off_time : value;
  home_team_id : value;
  away_team_id : value;
  home_score : value;
  away_score : value;
  half_time_home_score : value;
  half_time_away_score : value;
  venue : value;
  attendance : value;
  referee : value;
  match_status : value;
  match_round : value;
  api_id_thesportsdb : value;
  api_id_football_data : value;
  notes : value;
  updated_at : option Z
}.

Record StatsRow : Type := mkStats {
  s_match_id : Z;
  ipswich_possession : value;
  opposition_possession : value;
  ipswich_shots : value;
  opposition_shots : value;
  (** the twelve further statistics columns, in the order of the INSERT *)
  other_statistics : list value;
  s_updated_at : option Z
}.

Record Store : Type := mkStore {
  seasons : list SeasonRow;
  teams : list TeamRow;
  competitions : list CompetitionRow;
  matches : list MatchRow;
  match_statistics : list StatsRow;
  next_season_id : Z;
  next_team_id : Z;
  next_match_id : Z;
  (** [CURRENT_TIMESTAMP] *)
  db_now : Z
}.

(** Modelled from the spec: the schema ([database/schema.sql]) is
    missing; section 6 only says that the tables carry the uniqueness
    constraints of their natural keys.  The fields [.._ok] tell whether
    the schema accepts a row, given the rows already in the table:
    column types, NOT NULL, foreign keys, and every uniqueness
    constraint other than the conflict target of the statement.
    [updated_default] is the column default of [updated_at].

    The other fields are the choices of the database that the code can
    observe.  For a row that is refused, [.._drawn] tells whether the
    INSERT had drawn the id of the row from the sequence before it was
    refused: a constraint that is checked on the row is refused after
    the default of the id column was evaluated, a value that the type of
    its column does not read is refused before; and the roll-back does
    not give a drawn value back.  [first_row] tells, for the ids that a
    SELECT without ORDER BY finds, how many of them, counted from the
    last one, are returned before the others: the statement fixes no
    order, and any of the rows can be the first of the result. *)
Record Schema : Type := mkSchema {
  season_ok : SeasonRow -> bool;
  team_ok : TeamRow -> bool;
  match_ok : list MatchRow -> MatchRow -> bool;
  stats_ok : list MatchRow -> StatsRow -> bool;
  updated_default : Z -> option Z;
  season_drawn : SeasonRow -> bool;
  team_drawn : TeamRow -> bool;
  match_drawn : list MatchRow -> MatchRow -> bool;
  first_row : list Z -> nat
}.

(** A schema with no constraint beyond the conflict targets. *)
Definition permissive : Schema :=
  mkSchema (fun _ => true) (fun _ => true) (fun _ _ => true) (fun _ _ => true)
           (fun now => Some now)
           (fun _ => true) (fun _ => true) (fun _ _ => true) (fun _ => O).

(** The state of a pipeline run: the store and the log. *)
Record pstate : Type := mkP {
  store : Store;
  log : list log_record
}.

(** Stateful code that may raise: the state survives an exception,
    because every statement is committed on its own. *)
Definition DB (A : Type) : Type := pstate -> result A * pstate.

Definition ret {A} (a : A) : DB A := fun p => (Ok a, p).

Definition raise {A} (e : exn) : DB A := fun p => (Raise e, p).

Definition bind {A B} (m : DB A) (k : A -> DB B) : DB B :=
  fun p =>
    match m p with
    | (Ok a, p') => k a p'
    | (Raise e, p') => (Raise e, p')
    end.

Definition lift {A} (r : result A) : DB A := fun p => (r, p).

Definition logger (l : level) (m : log_msg) : DB unit :=
  fun p => (Ok tt, mkP (store p) (log p ++ [(l, m)])).

Definition read_store : DB Store := fun p => (Ok (store p), p).

Definition write_store (s : Store) : DB unit :=
  fun p => (Ok tt, mkP s (log p)).

Declare Scope db_scope.
Delimit Scope db_scope with db.
Notation "x <- m ;; k" := (bind m (fun x => k))
  (at level 61, m at next level, right associativity) : db_scope.
Notation "m ;;; k" := (bind m (fun _ => k))
  (at level 61, right associativity) : db_scope.

(** [try: body except Exception as e: handler(e)] *)
Definition try_except {A} (body : DB A) (handler : exn -> DB A) : DB A :=
  fun p =>
    match body p with
    | (Ok a, p') => (Ok a, p')
    | (Raise e, p') => handler e p'
    end.

Module DatabaseManager.

Local Open Scope db_scope.

(** [get_connection]: a failing statement is rolled back, logged and
    raised again. *)
Definition db_fail {A} : DB A :=
  logger ERROR (MsgExn "Database operation failed: " DbError) ;;;
  raise DbError.

(** An INSERT that the database refuses.  The roll-back undoes what the
    statement wrote, not the value it has drawn from the sequence of
    ids: [advanced] is the store with the sequence one further. *)
Definition refused {A} (drawn : bool) (advanced : Store) : DB A :=
  (if drawn then write_store advanced else ret tt) ;;;
  db_fail.

(** A parameter compared with a text column.  A number or a non-empty
    list has no equality with text and a dict cannot be adapted; the
    empty list is sent as the literal [{}]. *)
Definition text_param (v : value) : option (option string) :=
  match v with
  | VNone => Some None
  | VStr s => Some (Some s)
  | VList [] => Some (Some "{}")
  | _ => None
  end.

Definition select_id {R} (rows : list R) (name : R -> string) (id : R -> Z)
    (param : value) : DB value :=
  match text_param param with
  | None => db_fail
  | Some None => ret VNone
  | Some (Some s) =>
      match find (fun r => (name r =? s)%string) rows with
      | Some r => ret (VInt (id r))
      | None => ret VNone
      end
  end.

(** [get_season_id], [get_team_id], [get_competition_id] *)
Definition get_season_id (name : value) : DB value :=
  st <- read_store ;; select_id (seasons st) season_name season_id name.

Definition get_team_id (name : value) : DB value :=
  st <- read_store ;; select_id (teams st) team_name team_id name.

Definition get_competition_id (name : value) : DB value :=
  st <- read_store ;;
  select_id (competitions st) competition_name competition_id name.

(** Rows and sequences written back. *)
Definition with_seasons (st : Store) (rows : list SeasonRow) : Store :=
  mkStore rows (teams st) (competitions st) (matches st) (match_statistics st)
          (next_season_id st + 1) (next_team_id st) (next_match_id st) (db_now st).

Definition with_teams (st : Store) (rows : list TeamRow) : Store :=
  mkStore (seasons st) rows (competitions st) (matches st) (match_statistics st)
          (next_season_id st) (next_team_id st + 1) (next_match_id st) (db_now st).

Definition with_new_match (st : Store) (rows : list MatchRow) : Store :=
  mkStore (seasons st) (teams st) (competitions st) rows (match_statistics st)
          (next_season_id st) (next_team_id st) (next_match_id st + 1) (db_now st).

Definition with_matches (st : Store) (rows : list MatchRow) : Store :=
  mkStore (seasons st) (teams st) (competitions st) rows (match_statistics st)
          (next_season_id st) (next_team_id st) (next_match_id st) (db_now st).

Definition with_statistics (st : Store) (rows : list StatsRow) : Store :=
  mkStore (seasons st) (teams st) (competitions st) (matches st) rows
          (next_season_id st) (next_team_id st) (next_match_id st) (db_now st).

(** [add_season]: INSERT ... ON CONFLICT (season_name) DO UPDATE SET
    start_date, end_date RETURNING id.  The INSERT draws an id from the
    sequence also when the row is then merged into an existing one; an
    id that is already taken is refused on the row, after it was
    drawn. *)
Definition add_season (sch : Schema) (name start stop : string) : DB Z :=
  st <- read_store ;;
  match find (fun r => (season_name r =? name)%string) (seasons st) with
  | Some old =>
      let r := mkSeason (season_id old) name start stop in
      if season_ok sch r then
        write_store
          (with_seasons st
             (map (fun x => if (season_name x =? name)%string then r else x)
                  (seasons st))) ;;;
        logger INFO (Msg ("Added/updated season: " ++ name)) ;;;
        ret (season_id old)
      else refused (season_drawn sch r) (with_seasons st (seasons st))
  | None =>
      let r := mkSeason (next_season_id st) name start stop in
      if season_ok sch r
         && negb (existsb (fun x => season_id x =? season_id r) (seasons st))
      then
        write_store (with_seasons st (seasons st ++ [r])) ;;;
        logger INFO (Msg ("Added/updated season: " ++ name)) ;;;
        ret (season_id r)
      else refused (season_ok sch r || season_drawn sch r)
                   (with_seasons st (seasons st))
  end.

(** The optional fields of [add_team]: a field is part of the statement
    when its value is not [None]. *)
Definition supplied (new old : value) : value :=
  if is_none new then old else new.

(** [add_team]: with at least one optional field, INSERT ... ON CONFLICT
    (team_name) DO UPDATE SET the supplied fields; with none, DO NOTHING
    and the id is looked up.  [country] defaults to England, so the
    DO NOTHING form is reached only when the caller passes
    [country=None].  A column left out of the INSERT is NULL.  In both
    forms the INSERT draws an id, also when the team exists. *)
Definition add_team (sch : Schema) (name : string) (kwargs : dict) : DB value :=
  let opt : TeamRow :=
    mkTeam 0 name
           (dict_get kwargs "short_name")
           (dict_get kwargs "stadium")
           (dict_get kwargs "city")
           (dict_get_default kwargs "country" (VStr "England"))
           (dict_get kwargs "founded_year")
           (dict_get kwargs "api_id_thesportsdb")
           (dict_get kwargs "api_id_football_data") in
  st <- read_store ;;
  match find (fun r => (team_name r =? name)%string) (teams st) with
  | Some old =>
      let r :=
        mkTeam (team_id old) name
               (supplied (short_name opt) (short_name old))
               (supplied (stadium opt) (stadium old))
               (supplied (city opt) (city old))
               (supplied (country opt) (country old))
               (supplied (founded_year opt) (founded_year old))
               (supplied (team_api_id_thesportsdb opt) (team_api_id_thesportsdb old))
               (supplied (team_api_id_football_data opt) (team_api_id_football_data old)) in
      let any_supplied :=
        negb (is_none (short_name opt) && is_none (stadium opt)
              && is_none (city opt) && is_none (country opt)
              && is_none (founded_year opt)
              && is_none (team_api_id_thesportsdb opt)
              && is_none (team_api_id_football_data opt)) in
      if any_supplied then
        if team_ok sch r then
          write_store
            (with_teams st
               (map (fun x => if (team_name x =? name)%string then r else x)
                    (teams st))) ;;;
          logger INFO (Msg ("Added/updated team: " ++ name)) ;;;
          ret (VInt (team_id old))
        else refused (team_drawn sch r) (with_teams st (teams st))
      else
        write_store (with_teams st (teams st)) ;;;
        get_team_id (VStr name)
  | None =>
      let r :=
        mkTeam (next_team_id st) name (short_name opt) (stadium opt) (city opt)
               (country opt) (founded_year opt)
               (team_api_id_thesportsdb opt) (team_api_id_football_data opt) in
      if team_ok sch r
         && negb (existsb (fun x => team_id x =? team_id r) (teams st))
      then
        write_store (with_teams st (teams st ++ [r])) ;;;
        logger INFO (Msg ("Added/updated team: " ++ name)) ;;;
        ret (VInt (team_id r))
      else refused (team_ok sch r || team_drawn sch r)
                   (with_teams st (teams st))
  end.

(** The row [add_match] sends: every column is [match_data.get(...)]. *)
Definition row_of_match_data (id : Z) (upd : option Z) (match_data : dict)
  : MatchRow :=
  mkMatch id
          (dict_get match_data "season_id")
          (dict_get match_data "competition_id")
          (dict_get match_data "match_date")
          (dict_get match_data "kick_off_time")
          (dict_get match_data "home_team_id")
          (dict_get match_data "away_team_id")
          (dict_get match_data "home_score")
          (dict_get match_data "away_score")
          (dict_get match_data "half_time_home_score")
          (dict_get match_data "half_time_away_score")
          (dict_get match_data "venue")
          (dict_get match_data "attendance")
          (dict_get match_data "referee")
          (dict_get_default match_data "match_status" (VStr "scheduled"))
          (dict_get match_data "match_round")
          (dict_get match_data "api_id_thesportsdb")
          (dict_get match_data "api_id_football_data")
          (dict_get match_data "notes")
          upd.

(** ON CONFLICT (id) DO UPDATE SET home_score, away_score, match_status,
    attendance = EXCLUDED..., updated_at = CURRENT_TIMESTAMP *)
Definition conflict_update (now : Z) (old excluded : MatchRow) : MatchRow :=
  mkMatch (match_id old) (m_season_id old) (m_competition_id old)
          (match_date old) (kick_off_time old)
          (home_team_id old) (away_team_id old)
          (home_score excluded) (away_score excluded)
          (half_time_home_score old) (half_time_away_score old)
          (venue old) (attendance excluded) (referee old)
          (match_status excluded) (match_round old)
          (api_id_thesportsdb old) (api_id_football_data old) (notes old)
          (Some now).

Definition other_matches (id : Z) (rows : list MatchRow) : list MatchRow :=
  filter (fun x => negb (match_id x =? id)) rows.

(** [add_match]: the INSERT names no id, so the row gets the next value
    of the sequence; the conflict target is that id. *)
Definition add_match (sch : Schema) (match_data : dict) : DB Z :=
  st <- read_store ;;
  let id := next_match_id st in
  let r := row_of_match_data id (updated_default sch (db_now st)) match_data in
  match find (fun x => match_id x =? id) (matches st) with
  | Some old =>
      let r' := conflict_update (db_now st) old r in
      if match_ok sch (other_matches id (matches st)) r' then
        write_store
          (with_new_match st
             (map (fun x => if match_id x =? id then r' else x) (matches st))) ;;;
        logger INFO (Msg ("Added match ID: " ++ string_of_Z id)) ;;;
        ret id
      else refused (match_drawn sch (other_matches id (matches st)) r')
                   (with_new_match st (matches st))
  | None =>
      if match_ok sch (matches st) r then
        write_store (with_new_match st (matches st ++ [r])) ;;;
        logger INFO (Msg ("Added match ID: " ++ string_of_Z id)) ;;;
        ret id
      else refused (match_drawn sch (matches st) r)
                   (with_new_match st (matches st))
  end.

(** UPDATE matches SET home_score, away_score, match_status,
    updated_at = CURRENT_TIMESTAMP WHERE id = ... *)
Definition score_update (now : Z) (home away status : value) (old : MatchRow)
  : MatchRow :=
  mkMatch (match_id old) (m_season_id old) (m_competition_id old)
          (match_date old) (kick_off_time old)
          (home_team_id old) (away_team_id old)
          home away
          (half_time_home_score old) (half_time_away_score old)
          (venue old) (attendance old) (referee old)
          status (match_round old)
          (api_id_thesportsdb old) (api_id_football_data old) (notes old)
          (Some now).

(** [update_match_score] *)
Definition update_match_score (sch : Schema) (id : Z)
    (home away : value) (status : value) : DB unit :=
  st <- read_store ;;
  let upd := score_update (db_now st) home away status in
  if forallb (fun x => negb (match_id x =? id)
                       || match_ok sch (other_matches id (matches st)) (upd x))
             (matches st)
  then
    write_store
      (with_matches st
         (map (fun x => if match_id x =? id then upd x else x) (matches st))) ;;;
    logger INFO (Msg ("Updated match " ++ string_of_Z id ++ ": "
                      ++ py_str home ++ "-" ++ py_str away))
  else db_fail.

(** The twelve statistics columns the pipeline never fills. *)
Definition other_statistics_keys : list string :=
  [ "ipswich_shots_on_target"; "opposition_shots_on_target";
    "ipswich_corners"; "opposition_corners";
    "ipswich_fouls"; "opposition_fouls";
    "ipswich_offsides"; "opposition_offsides";
    "ipswich_passes"; "opposition_passes";
    "ipswich_pass_accuracy"; "opposition_pass_accuracy" ].

(** [add_match_statistics]: INSERT ... ON CONFLICT (match_id) DO UPDATE
    SET the two possession and the two shots columns and updated_at. *)
Definition add_match_statistics (sch : Schema) (id : Z) (stats : dict) : DB unit :=
  st <- read_store ;;
  let r :=
    mkStats id
            (dict_get stats "ipswich_possession")
            (dict_get stats "opposition_possession")
            (dict_get stats "ipswich_shots")
            (dict_get stats "opposition_shots")
            (map (dict_get stats) other_statistics_keys)
            (updated_default sch (db_now st)) in
  let r' :=
    match find (fun x => s_match_id x =? id) (match_statistics st) with
    | Some old =>
        mkStats id (ipswich_possession r) (opposition_possession r)
                (ipswich_shots r) (opposition_shots r)
                (other_statistics old) (Some (db_now st))
    | None => r
    end in
  if stats_ok sch (matches st) r' then
    write_store
      (with_statistics st
         (match find (fun x => s_match_id x =? id) (match_statistics st) with
          | Some _ =>
              map (fun x => if s_match_id x =? id then r' else x)
                  (match_statistics st)
          | None => match_statistics st ++ [r']
          end)) ;;;
    logger INFO (Msg ("Added statistics for match " ++ string_of_Z id))
  else db_fail.

(** The ids a SELECT finds, the last [k] of them first: the statement
    has no ORDER BY, and any of the rows can come first. *)
Definition rows_from (k : nat) (ids : list Z) : list Z :=
  (skipn (List.length ids - k) ids ++ firstn (List.length ids - k) ids)%list.

(** SELECT id FROM matches WHERE api_id_... = %s, as the daily updater
    issues it through [execute_query]: the ids of the matching rows. *)
Definition select_match_by_api_id (sch : Schema) (column : MatchRow -> value)
    (param : value) : DB (list Z) :=
  st <- read_store ;;
  match text_param param with
  | None => db_fail
  | Some None => ret []
  | Some (Some s) =>
      let ids :=
        map match_id
            (filter (fun x => value_eqb (column x) (VStr s)) (matches st)) in
      ret (rows_from (first_row sch ids) ids)
  end.

End DatabaseManager.

(** ** The pipeline scripts *)

Module CurrentSeasonFetcher.

Import DatabaseManager.
Local Open Scope db_scope.

(** The season found or created at the head of [_store_match]; a name
    that has a [split] method is text. *)
Definition resolve_season (sch : Schema) (season_name : value) : DB value :=
  season_id <- get_season_id season_name ;;
  if negb (truthy season_id) then
    parts <- lift (split_method season_name "/") ;;
    first <- lift (nth_piece parts 0) ;;
    year <- lift (int_of_str first) ;;
    start_year <- lift (str_of_int year) ;;
    end_year <- lift (str_of_int (year + 1)) ;;
    id <- add_season sch (py_str season_name)
            (start_year ++ "-08-01") (end_year ++ "-05-31") ;;
    ret (VInt id)
  else ret season_id.

(** A team found or created; [_store_match] calls this with a name that
    is true, and the lookup accepts a text only, so the name given to
    [add_team] is that text. *)
Definition resolve_team (sch : Schema) (team : value) : DB value :=
  id <- get_team_id team ;;
  if negb (truthy id) then add_team sch (py_str team) [] else ret id.

(** The dictionary handed to [add_match]. *)
Definition db_match_data (match_data : dict) (source : string)
    (season_id competition_id home_team_id away_team_id : value) : dict :=
  let base : dict :=
    [ entry "season_id" season_id;
      entry "competition_id" competition_id;
      entry "match_date" (dict_get match_data "match_date");
      entry "kick_off_time" (dict_get match_data "kick_off_time");
      entry "home_team_id" home_team_id;
      entry "away_team_id" away_team_id;
      entry "home_score" (dict_get match_data "home_score");
      entry "away_score" (dict_get match_data "away_score");
      entry "half_time_home_score" (dict_get match_data "home_score_ht");
      entry "half_time_away_score" (dict_get match_data "away_score_ht");
      entry "venue" (dict_get match_data "venue");
      entry "attendance" (dict_get match_data "attendance");
      entry "referee" (dict_get match_data "referee");
      entry "match_status"
            (dict_get_default match_data "status" (VStr "scheduled"));
      entry "match_round"
            (if truthy (dict_get match_data "round")
             then VStr (py_str (dict_get match_data "round")) else VNone) ] in
  if (source =? "thesportsdb")%string then
    dict_set base "api_id_thesportsdb" (dict_get match_data "api_id")
  else if (source =? "football_data")%string then
    dict_set base "api_id_football_data" (dict_get match_data "api_id")
  else base.

(** The statistics dictionary of [_store_match]. *)
Definition statistics_of (match_data : dict) (is_home : bool) : dict :=
  if is_home then
    [ entry "ipswich_possession" (dict_get match_data "home_possession");
      entry "opposition_possession" (dict_get match_data "away_possession");
      entry "ipswich_shots" (dict_get match_data "home_shots");
      entry "opposition_shots" (dict_get match_data "away_shots") ]
  else
    [ entry "ipswich_possession" (dict_get match_data "away_possession");
      entry "opposition_possession" (dict_get match_data "home_possession");
      entry "ipswich_shots" (dict_get match_data "away_shots");
      entry "opposition_shots" (dict_get match_data "home_shots") ].

(** [CurrentSeasonFetcher._store_match] *)
Definition _store_match (sch : Schema) (current_season : string)
    (match_data : dict) (source : string) : DB unit :=
  try_except
    (let season_name :=
       dict_get_default match_data "season" (VStr current_season) in
     season_id <- resolve_season sch season_name ;;
     let competition_name :=
       dict_get_default match_data "competition" (VStr "Unknown") in
     competition_id <- get_competition_id competition_name ;;
     if negb (truthy competition_id) then
       logger WARNING (Msg ("Competition not found: " ++ py_str competition_name))
     else
       let home_team := dict_get match_data "home_team" in
       let away_team := dict_get match_data "away_team" in
       if negb (truthy home_team) || negb (truthy away_team) then
         logger WARNING (Msg "Missing team information")
       else
         home_team_id <- resolve_team sch home_team ;;
         away_team_id <- resolve_team sch away_team ;;
         match_id <- add_match sch
                       (db_match_data match_data source season_id
                          competition_id home_team_id away_team_id) ;;
         if truthy (dict_get match_data "home_possession") then
           let is_home := value_eqb home_team (VStr "Ipswich Town") in
           add_match_statistics sch match_id (statistics_of match_data is_home)
         else ret tt)
    (fun e => logger ERROR (MsgExn "Error storing match: " e)).

End CurrentSeasonFetcher.

Module DailyUpdater.

Import DatabaseManager.
Local Open Scope db_scope.

(** [DailyUpdater._extract_statistics] *)
Definition _extract_statistics (match_data : dict) : dict :=
  let is_home := value_eqb (dict_get match_data "home_team") (VStr "Ipswich Town") in
  [ entry "ipswich_possession"
          (if is_home then dict_get match_data "home_possession"
           else dict_get match_data "away_possession");
    entry "opposition_possession"
          (if is_home then dict_get match_data "away_possession"
           else dict_get match_data "home_possession");
    entry "ipswich_shots"
          (if is_home then dict_get match_data "home_shots"
           else dict_get match_data "away_shots");
    entry "opposition_shots"
          (if is_home then dict_get match_data "away_shots"
           else dict_get match_data "home_shots") ].

(** [DailyUpdater._update_match_from_api] *)
Definition _update_match_from_api (sch : Schema) (match_data : dict)
    (source : string) : DB unit :=
  try_except
    (let api_id := dict_get match_data "api_id" in
     if negb (truthy api_id) then ret tt
     else
       result <-
         (if (source =? "thesportsdb")%string
          then select_match_by_api_id sch api_id_thesportsdb api_id
          else select_match_by_api_id sch api_id_football_data api_id) ;;
       match result with
       | [] => ret tt
       | match_id :: _ =>
           let home_score := dict_get match_data "home_score" in
           let away_score := dict_get match_data "away_score" in
           (if negb (is_none home_score) && negb (is_none away_score) then
              update_match_score sch match_id home_score away_score
                (dict_get_default match_data "status" (VStr "finished")) ;;;
              logger INFO (Msg ("Updated match " ++ string_of_Z match_id ++ ": "
                                ++ py_str home_score ++ "-" ++ py_str away_score))
            else ret tt) ;;;
           if truthy (dict_get match_data "home_possession") then
             add_match_statistics sch match_id (_extract_statistics match_data)
           else ret tt
       end)
    (fun e => logger ERROR (MsgExn "Error updating match: " e)).

End DailyUpdater.

(** ** Further operations of the clients and the scripts *)

(** The items [for x in v] runs over: the elements of a list, the
    characters of a text, the keys of a dict; nothing else of what JSON
    decodes to can be iterated. *)
Definition iterate (v : value) : result (list value) :=
  match v with
  | VList l => Ok l
  | VStr s => Ok (chars s)
  | VDict d => Ok (map (fun kv => VStr (fst kv)) d)
  | _ => Raise TypeError
  end.

Module FootballDataQueries.

Import FootballData.
Local Open Scope result_scope.

(** The loop of [get_team_matches] and [get_matches_by_date]. *)
Fixpoint collect (items : list value) : list dict :=
  match items with
  | [] => []
  | match_data :: rest =>
      match _parse_match match_data false with
      | Some m => if truthy (VDict m) then m :: collect rest else collect rest
      | None => collect rest
      end
  end.

(** What both methods do with the decoded response. *)
Definition matches_of (data : value) : result (list dict) :=
  if negb (truthy data) then Ok []
  else
    present <- contains data "matches" ;;
    if negb present then Ok []
    else
      found <- subscript data "matches" ;;
      items <- iterate found ;;
      Ok (collect items).

(** [FootballDataClient.get_team_matches]; [status] and [limit] only go
    into the parameters of the request.  An exception of the request
    passes through. *)
Definition get_team_matches (depth : nat) (api_key : string)
    (status : string) (limit : Z) (up : upstream) (w : world)
  : result (list dict) * world :=
  let '(r, w') := _make_request depth api_key up w in
  (data <- r ;; matches_of data, w').

(** [FootballDataClient.get_matches_by_date] *)
Definition get_matches_by_date (depth : nat) (api_key : string)
    (date_from date_to : string) (up : upstream) (w : world)
  : result (list dict) * world :=
  let '(r, w') := _make_request depth api_key up w in
  (data <- r ;; matches_of data, w').

(** [FootballDataClient.get_match_details] *)
Definition get_match_details (depth : nat) (api_key : string)
    (match_id : string) (up : upstream) (w : world)
  : result (option dict) * world :=
  let '(r, w') := _make_request depth api_key up w in
  (data <- r ;; Ok (if truthy data then _parse_match data true else None), w').

End FootballDataQueries.

Module SeasonSetup.

Import DatabaseManager.
Local Open Scope db_scope.

(** [CurrentSeasonFetcher._get_current_season]; [now] is the date of
    [datetime.now()]. *)
Definition _get_current_season (now : date) : string :=
  if 8 <=? month now then
    string_of_Z (year now) ++ "/" ++ str_drop 2 (string_of_Z (year now + 1))
  else
    string_of_Z (year now - 1) ++ "/" ++ str_drop 2 (string_of_Z (year now)).

(** [CurrentSeasonFetcher._ensure_season_exists] *)
Definition _ensure_season_exists (sch : Schema) (current_season : string)
  : DB value :=
  season_id <- get_season_id (VStr current_season) ;;
  if negb (truthy season_id) then
    first <- lift (nth_piece (split_on "/" current_season) 0) ;;
    start_year <- lift (int_of_str first) ;;
    start_date <- lift (str_of_int start_year) ;;
    end_date <- lift (str_of_int (start_year + 1)) ;;
    id <- add_season sch current_season
            (start_date ++ "-08-01") (end_date ++ "-05-31") ;;
    logger INFO (Msg ("Created season: " ++ current_season)) ;;;
    ret (VInt id)
  else ret season_id.

(** The loops [for match_data in ...: self._store_match(match_data,
    source)] of the two fetch methods. *)
Fixpoint store_all (sch : Schema) (current_season : string)
    (records : list dict) (source : string) : DB unit :=
  match records with
  | [] => ret tt
  | match_data :: rest =>
      CurrentSeasonFetcher._store_match sch current_season match_data source ;;;
      store_all sch current_season rest source
  end.

End SeasonSetup.

(** * Properties *)

(** ** The text functions on examples *)

Example int_of_str_ex1 : int_of_str " 2023 " = Ok 2023.
Proof. reflexivity. Qed.

Example int_of_str_ex2 : int_of_str "2023-2024" = Raise ValueError.
Proof. reflexivity. Qed.

Example int_of_str_ex3 : int_of_str "-1_000" = Ok (-1000).
Proof. reflexivity. Qed.

Example int_of_str_ex4 : int_of_str "" = Raise ValueError.
Proof. reflexivity. Qed.

Example strptime_ex1 : strptime_ymd "2024-02-29" = Ok (mkDate 2024 2 29).
Proof. reflexivity. Qed.

Example strptime_ex2 : strptime_ymd "2023-02-29" = Raise ValueError.
Proof. reflexivity. Qed.

Example strptime_ex3 : strptime_ymd "2023-1-5" = Ok (mkDate 2023 1 5).
Proof. reflexivity. Qed.

Example strptime_ex4 : strptime_ymd "2023-01-05T10:00" = Raise ValueError.
Proof. reflexivity. Qed.

(** ** Status mapping (Football-Data.org) *)

Section StatusMapping.

Import FootballData.

Definition documented_vocabulary : list string :=
  [ "SCHEDULED"; "TIMED"; "IN_PLAY"; "PAUSED"; "FINISHED";
    "POSTPONED"; "CANCELLED"; "SUSPENDED"; "AWARDED" ].

Definition canonical_statuses : list string :=
  [ "scheduled"; "live"; "finished"; "postponed"; "cancelled" ].

Lemma documented_are_the_keys :
  map fst status_map = documented_vocabulary.
Proof. reflexivity. Qed.

Lemma status_lookup_in m k c :
  status_lookup m k = Some c -> In (k, c) m.
Proof.
  induction m as [|[k' v] m IH]; simpl; [discriminate|].
  destruct (String.eqb_spec k' k) as [->|_].
  - intros [= ->]. now left.
  - intros H. right. now apply IH.
Qed.

Lemma status_lookup_none m k :
  ~ In k (map fst m) -> status_lookup m k = None.
Proof.
  induction m as [|[k' v] m IH]; simpl; [reflexivity|].
  intros H. destruct (String.eqb_spec k' k) as [->|_].
  - exfalso. apply H. now left.
  - apply IH. intros Hin. apply H. now right.
Qed.

Lemma status_map_values :
  Forall (fun kv => In (snd kv) canonical_statuses) status_map.
Proof.
  apply Forall_forall. intros kv H. unfold status_map in H.
  repeat (destruct H as [<-|H]; [cbn; auto 10|]). destruct H.
Qed.

Lemma map_status_canonical s :
  exists c, _map_status (VStr s) = Ok c /\ In c canonical_statuses.
Proof.
  unfold _map_status.
  destruct (status_lookup status_map s) as [c|] eqn:E.
  - exists c. split; [reflexivity|].
    apply status_lookup_in in E.
    pose proof status_map_values as F.
    rewrite Forall_forall in F. exact (F _ E).
  - exists "scheduled". split; [reflexivity|]. simpl. tauto.
Qed.

(** C6. The status mapper is total on strings: a string of the
    documented vocabulary of Football-Data.org is mapped to one of the
    five canonical statuses, and a string outside this vocabulary is
    mapped to scheduled. *)
Theorem map_status_total (s : string) :
  (In s documented_vocabulary ->
   exists c, _map_status (VStr s) = Ok c /\ In c canonical_statuses) /\
  (~ In s documented_vocabulary -> _map_status (VStr s) = Ok "scheduled").
Proof.
  split.
  - intros _. apply map_status_canonical.
  - intros H. unfold _map_status.
    rewrite status_lookup_none; [reflexivity|].
    now rewrite documented_are_the_keys.
Qed.

Lemma map_status_total_witness :
  (exists c, _map_status (VStr "AWARDED") = Ok c /\ In c canonical_statuses) /\
  _map_status (VStr "LIVE") = Ok "scheduled".
Proof.
  split.
  - apply (proj1 (map_status_total "AWARDED")). simpl. tauto.
  - apply (proj2 (map_status_total "LIVE")). simpl.
    intros H.
    repeat (destruct H as [H|H]; [discriminate H|]). exact H.
Defined.

(** The mapping of each documented word. *)
Example map_status_table :
  map (fun s => _map_status (VStr s)) documented_vocabulary =
  [ Ok "scheduled"; Ok "scheduled"; Ok "live"; Ok "live"; Ok "finished";
    Ok "postponed"; Ok "cancelled"; Ok "postponed"; Ok "finished" ].
Proof. reflexivity. Qed.

End StatusMapping.

(** ** Season labels (Football-Data.org) *)

Section SeasonLabel.

Import FootballData.

(** Dates as the provider writes them: [YYYY-MM-DD]. *)
Definition digit_char (n : Z) : ascii := ascii_of_N (48 + Z.to_N n).

Definition pad2 (n : Z) : string :=
  String (digit_char (n / 10)) (String (digit_char (n mod 10)) "").

Definition pad4 (n : Z) : string := pad2 (n / 100) ++ pad2 (n mod 100).

Definition iso_date (d : date) : string :=
  pad4 (year d) ++ "-" ++ pad2 (month d) ++ "-" ++ pad2 (day d).

(** A date of the season object: text when known, null otherwise. *)
Definition season_field (d : option date) : value :=
  match d with
  | Some d => VStr (iso_date d)
  | None => VNone
  end.

(** A match whose season object carries the two dates. *)
Definition match_of_season (start stop : option date) : value :=
  VDict [ ("season", VDict [ ("startDate", season_field start);
                              ("endDate", season_field stop) ]) ].

Lemma digit_char_inj a b :
  0 <= a < 10 -> 0 <= b < 10 -> digit_char a = digit_char b -> a = b.
Proof.
  intros Ha Hb H. unfold digit_char in H.
  apply (f_equal N_of_ascii) in H.
  rewrite !N_ascii_embedding in H by lia. lia.
Qed.

Lemma pad2_inj a b :
  0 <= a < 100 -> 0 <= b < 100 -> pad2 a = pad2 b -> a = b.
Proof.
  intros Ha Hb H. unfold pad2 in H. injection H as H1 H0.
  apply digit_char_inj in H1;
    [| split; [apply Z.div_pos | apply Z.div_lt_upper_bound]; lia
     | split; [apply Z.div_pos | apply Z.div_lt_upper_bound]; lia ].
  apply digit_char_inj in H0;
    [| apply Z.mod_pos_bound; lia | apply Z.mod_pos_bound; lia ].
  rewrite (Z.div_mod a 10), (Z.div_mod b 10) by lia. lia.
Qed.

Lemma pad4_inj a b :
  0 <= a < 10000 -> 0 <= b < 10000 -> pad4 a = pad4 b -> a = b.
Proof.
  intros Ha Hb H. unfold pad4 in H. simpl in H.
  injection H as H3 H2 H1 H0.
  assert (Hhi : pad2 (a / 100) = pad2 (b / 100)).
  { unfold pad2. now rewrite H3, H2. }
  assert (Hlo : pad2 (a mod 100) = pad2 (b mod 100)).
  { unfold pad2. now rewrite H1, H0. }
  apply pad2_inj in Hhi;
    [| split; [apply Z.div_pos | apply Z.div_lt_upper_bound]; lia
     | split; [apply Z.div_pos | apply Z.div_lt_upper_bound]; lia ].
  apply pad2_inj in Hlo;
    [| apply Z.mod_pos_bound; lia | apply Z.mod_pos_bound; lia ].
  rewrite (Z.div_mod a 100), (Z.div_mod b 100) by lia. lia.
Qed.

Lemma valid_date_year d : valid_date d = true -> 0 <= year d < 10000.
Proof.
  unfold valid_date. rewrite !andb_true_iff, !Z.leb_le. lia.
Qed.

Lemma pad4_eqb a b :
  0 <= a < 10000 -> 0 <= b < 10000 ->
  (pad4 a =? pad4 b)%string = (a =? b).
Proof.
  intros Ha Hb.
  destruct (String.eqb_spec (pad4 a) (pad4 b)) as [E|E];
    destruct (Z.eqb_spec a b) as [F|F]; try reflexivity.
  - exfalso. apply F. now apply pad4_inj.
  - exfalso. apply E. now rewrite F.
Qed.

(** The method on two non-empty texts: the first four characters of
    each are compared. *)
Lemma extract_season_text (s e : string) :
  s <> "" -> e <> "" ->
  _extract_season
    (VDict [ ("season", VDict [ ("startDate", VStr s); ("endDate", VStr e) ]) ]) =
  Ok (VStr (if (str_take 4 s =? str_take 4 e)%string
            then str_take 4 s
            else str_take 4 s ++ "/" ++ str_drop 2 (str_take 4 e))).
Proof.
  intros Hs He.
  destruct s as [|a s]; [contradiction|].
  destruct e as [|b e]; [contradiction|].
  unfold _extract_season.
  cbn [get_default dict_get_default dict_lookup rbind truthy slice_to
       slice_from value_eqb negb andb py_str String.eqb Ascii.eqb Bool.eqb].
  destruct (String.eqb (str_take 4 (String a s)) (str_take 4 (String b e)));
    reflexivity.
Qed.

(** The label of a season with both dates. *)
Definition season_label (start stop : date) : string :=
  if year start =? year stop then pad4 (year start)
  else pad4 (year start) ++ "/" ++ pad2 (year stop mod 100).

Lemma extract_season_dates start stop :
  valid_date start = true -> valid_date stop = true ->
  _extract_season (match_of_season (Some start) (Some stop)) =
  Ok (VStr (season_label start stop)).
Proof.
  intros Hs He.
  apply valid_date_year in Hs. apply valid_date_year in He.
  unfold season_label.
  rewrite <- (pad4_eqb _ _ Hs He).
  unfold match_of_season, season_field.
  rewrite (extract_season_text (iso_date start) (iso_date stop))
    by (unfold iso_date, pad4, pad2; simpl; discriminate).
  assert (T : forall d, str_take 4 (iso_date d) = pad4 (year d)) by reflexivity.
  rewrite !T.
  destruct (String.eqb (pad4 (year start)) (pad4 (year stop))); reflexivity.
Qed.

(** C8. For every pair of season start and end dates: when the dates
    fall in different calendar years the label is the start year, a
    slash and the last two digits of the end year; when they fall in the
    same year it is that year; when neither date is available it is the
    empty string. *)
Theorem extract_season_label (start stop : date) :
  valid_date start = true -> valid_date stop = true ->
  (year start <> year stop ->
   _extract_season (match_of_season (Some start) (Some stop)) =
   Ok (VStr (pad4 (year start) ++ "/" ++ pad2 (year stop mod 100)))) /\
  (year start = year stop ->
   _extract_season (match_of_season (Some start) (Some stop)) =
   Ok (VStr (pad4 (year start)))) /\
  _extract_season (match_of_season None None) = Ok (VStr "") /\
  _extract_season (VDict [ ("season", VDict []) ]) = Ok (VStr "") /\
  _extract_season (VDict []) = Ok (VStr "").
Proof.
  intros Hs He.
  pose proof (extract_season_dates start stop Hs He) as H.
  unfold season_label in H.
  repeat split; try reflexivity.
  - intros Hne. rewrite H.
    destruct (Z.eqb_spec (year start) (year stop)); [contradiction|reflexivity].
  - intros Heq. rewrite H.
    destruct (Z.eqb_spec (year start) (year stop)); [reflexivity|contradiction].
Qed.

Lemma extract_season_label_witness :
  _extract_season
    (match_of_season (Some (mkDate 2023 8 1)) (Some (mkDate 2024 5 31))) =
  Ok (VStr "2023/24") /\
  _extract_season
    (match_of_season (Some (mkDate 2023 1 1)) (Some (mkDate 2023 12 31))) =
  Ok (VStr "2023").
Proof.
  split.
  - apply (proj1 (extract_season_label (mkDate 2023 8 1) (mkDate 2024 5 31)
                    eq_refl eq_refl)).
    simpl. lia.
  - apply (proj1 (proj2 (extract_season_label (mkDate 2023 1 1) (mkDate 2023 12 31)
                           eq_refl eq_refl))).
    reflexivity.
Defined.

(** The provider's text is what the label is cut from. *)
Example iso_date_ex : iso_date (mkDate 2023 8 1) = "2023-08-01".
Proof. reflexivity. Qed.

Example iso_date_parses :
  strptime_ymd (iso_date (mkDate 2024 5 31)) = Ok (mkDate 2024 5 31).
Proof. reflexivity. Qed.

(** Only one of the two dates: no label either. *)
Example extract_season_one_date :
  _extract_season (match_of_season (Some (mkDate 2023 8 1)) None) = Ok (VStr "").
Proof. reflexivity. Qed.

End SeasonLabel.

(** ** Inferred status (TheSportsDB) *)

Section InferredStatus.

Import TheSportsDB.

(** Both scores of the event are present. *)
Definition scores_present (event : dict) : bool :=
  negb (is_none (dict_get event "intHomeScore"))
  && negb (is_none (dict_get event "intAwayScore")).

(** The date of the match, when the event has one that reads as a date. *)
Definition event_date (event : dict) : option date :=
  match dict_get event "dateEvent" with
  | VStr s =>
      match strptime_ymd s with
      | Ok d => Some d
      | Raise _ => None
      end
  | _ => None
  end.

(** The date field as the provider sends it: text, or null. *)
Definition date_is_text (event : dict) : bool :=
  match dict_get event "dateEvent" with
  | VStr _ | VNone => true
  | _ => false
  end.

Lemma strptime_raises_value_error s e :
  strptime_ymd s = Raise e -> e = ValueError.
Proof.
  unfold strptime_ymd.
  destruct (parse_year s) as [[y [|c rest]]|]; try (intros [= <-]; reflexivity).
  destruct (Ascii.eqb_spec c "-") as [->|Hc].
  - destruct (first_month_day (month_alternatives rest)) as [[[m d] [|? ?]]|];
      try (intros [= <-]; reflexivity).
    destruct (valid_date _); [discriminate|].
    intros [= <-]; reflexivity.
  - destruct c as [[] [] [] [] [] [] [] []];
      try (intros [= <-]; reflexivity).
    exfalso. apply Hc. reflexivity.
Qed.

(** C7. For every TheSportsDB event, whose date field is text or null:
    the inferred status is finished when both scores are present;
    otherwise finished when the match date is strictly before the
    current date; otherwise scheduled. *)
Theorem determine_status_inferred (today : date) (event : dict) :
  date_is_text event = true ->
  _determine_status today (VDict event) =
  Ok (if scores_present event then "finished"
      else match event_date event with
           | Some d => if date_ltb d today then "finished" else "scheduled"
           | None => "scheduled"
           end).
Proof.
  unfold date_is_text, _determine_status, scores_present, event_date.
  cbn [get get_default rbind]. fold (dict_get event "intHomeScore").
  fold (dict_get event "intAwayScore"). fold (dict_get event "dateEvent").
  destruct (negb (is_none (dict_get event "intHomeScore"))
            && negb (is_none (dict_get event "intAwayScore"))); [reflexivity|].
  destruct (dict_get event "dateEvent") as [| | |s| |]; try discriminate;
    intros _; [reflexivity|].
  destruct s as [|c s]; [reflexivity|].
  change (truthy (VStr (String c s))) with true. cbv iota.
  destruct (strptime_ymd (String c s)) as [d|e] eqn:E.
  - destruct (date_ltb d today); reflexivity.
  - apply strptime_raises_value_error in E as ->. reflexivity.
Qed.

Lemma determine_status_inferred_witness :
  _determine_status (mkDate 2024 3 10)
    (VDict [ ("dateEvent", VStr "2024-03-09"); ("intHomeScore", VNone) ]) =
  Ok "finished".
Proof.
  exact (determine_status_inferred (mkDate 2024 3 10)
           [ ("dateEvent", VStr "2024-03-09"); ("intHomeScore", VNone) ]
           eq_refl).
Defined.

Example determine_status_scores :
  _determine_status (mkDate 2024 3 10)
    (VDict [ ("dateEvent", VStr "2024-03-16");
             ("intHomeScore", VStr "2"); ("intAwayScore", VStr "1") ]) =
  Ok "finished".
Proof. reflexivity. Qed.

Example determine_status_today :
  _determine_status (mkDate 2024 3 10)
    (VDict [ ("dateEvent", VStr "2024-03-10") ]) = Ok "scheduled".
Proof. reflexivity. Qed.

(** A date that is no text escapes the handler of the method. *)
Example determine_status_numeric_date :
  _determine_status (mkDate 2024 3 10) (VDict [ ("dateEvent", VInt 20240309) ]) =
  Raise TypeError.
Proof. reflexivity. Qed.

End InferredStatus.

(** ** What normalization populates *)

Section Normalization.

Lemma determine_status_values today event s :
  TheSportsDB._determine_status today event = Ok s ->
  s = "finished" \/ s = "scheduled".
Proof.
  unfold TheSportsDB._determine_status.
  destruct event as [| | | | |d]; try discriminate.
  cbn [get get_default rbind].
  destruct (negb _ && negb _).
  - intros [= <-]. now left.
  - destruct (truthy _).
    + destruct (dict_get_default d "dateEvent" VNone); try discriminate.
      destruct (strptime_ymd s0) as [dt|[]]; try discriminate.
      * destruct (date_ltb dt today); intros [= <-]; tauto.
      * intros [= <-]. now right.
    + intros [= <-]. now right.
Qed.

(** The keys a TheSportsDB record is built with are the raw fields. *)
Lemma parse_event_fields today event detailed r :
  TheSportsDB._parse_event today event detailed = Some r ->
  exists d, event = VDict d /\
    (dict_get r "status" = VStr "finished" \/
     dict_get r "status" = VStr "scheduled") /\
    dict_get r "api_id" = dict_get d "idEvent" /\
    dict_get r "match_date" = dict_get d "dateEvent" /\
    dict_get r "home_team" = dict_get d "strHomeTeam" /\
    dict_get r "away_team" = dict_get d "strAwayTeam" /\
    dict_get r "home_score" = TheSportsDB._parse_score (dict_get d "intHomeScore") /\
    dict_get r "away_score" = TheSportsDB._parse_score (dict_get d "intAwayScore").
Proof.
  unfold TheSportsDB._parse_event.
  destruct event as [| | | | |d]; try discriminate.
  cbn [get get_default rbind].
  destruct (TheSportsDB._determine_status today (VDict d)) as [s|e] eqn:E;
    [|discriminate].
  apply determine_status_values in E.
  cbn [rbind catch_all].
  destruct detailed; intros [= <-]; exists d;
    (split; [reflexivity|]);
    (split; [destruct E as [-> | ->]; [left|right]; reflexivity|]);
    repeat split; reflexivity.
Qed.

Lemma utc_date_part_value d v :
  FootballData.utc_date_part (VDict d) = Ok v ->
  if truthy (dict_get d "utcDate") then exists s, v = VStr s else v = VNone.
Proof.
  unfold FootballData.utc_date_part.
  cbn [get get_default rbind]. fold (dict_get d "utcDate").
  destruct (truthy (dict_get d "utcDate")).
  - destruct (split_method _ _) as [parts|]; [|discriminate].
    cbn [rbind]. destruct (nth_piece parts 0) as [p|]; [|discriminate].
    intros [= <-]. now exists p.
  - now intros [= <-].
Qed.

Ltac bind_ok H :=
  match type of H with
  | catch_all (rbind ?r _) = Some _ =>
      let E := fresh "E" in
      destruct r eqn:E; cbn [rbind] in H; [|discriminate H]
  end.

(** The keys a Football-Data record is built with. *)
Lemma parse_match_fields match_data detailed r :
  FootballData._parse_match match_data detailed = Some r ->
  exists d home away,
    match_data = VDict d /\
    dict_lookup d "homeTeam" = Some (VDict home) /\
    dict_lookup d "awayTeam" = Some (VDict away) /\
    (exists s, dict_get r "status" = VStr s /\ In s canonical_statuses) /\
    dict_get r "api_id" = VStr (py_str (dict_get d "id")) /\
    dict_lookup home "name" = Some (dict_get r "home_team") /\
    dict_lookup away "name" = Some (dict_get r "away_team") /\
    (if truthy (dict_get d "utcDate")
     then exists s, dict_get r "match_date" = VStr s
     else dict_get r "match_date" = VNone).
Proof.
  unfold FootballData._parse_match. intros H.
  destruct match_data as [| | | | |d]; try discriminate H.
  cbn [get get_default rbind] in H.
  bind_ok H. apply utc_date_part_value in E.
  bind_ok H.
  unfold subscript at 1 in H.
  destruct (dict_lookup d "homeTeam") as [home|] eqn:Hh; [|discriminate H].
  cbn [rbind] in H.
  unfold subscript at 1 in H.
  destruct home as [| | | | |home]; try discriminate H.
  destruct (dict_lookup home "name") as [home_name|] eqn:Hhn; [|discriminate H].
  cbn [rbind] in H.
  unfold subscript at 1 in H.
  destruct (dict_lookup d "awayTeam") as [away|] eqn:Ha; [|discriminate H].
  cbn [rbind] in H.
  unfold subscript at 1 in H.
  destruct away as [| | | | |away]; try discriminate H.
  destruct (dict_lookup away "name") as [away_name|] eqn:Han; [|discriminate H].
  cbn [rbind] in H.
  do 4 bind_ok H.
  bind_ok H. bind_ok H.
  assert (Hst : exists s, a6 = s /\ In s canonical_statuses).
  { destruct (dict_get_default d "status" VNone) as [| | |s| |];
      try discriminate E6;
      try (injection E6 as <-; exists "scheduled"; simpl; tauto).
    destruct (map_status_canonical s) as [c [Hc Hin]].
    rewrite Hc in E6. injection E6 as <-. now exists c. }
  destruct Hst as [st [-> Hst]].
  exists d, home, away.
  split; [reflexivity|]. split; [assumption|]. split; [assumption|].
  fold (dict_get d "id") in H. fold (dict_get d "utcDate") in E.
  bind_ok H.
  assert (Hr :
    dict_get r "status" = VStr st /\
    dict_get r "api_id" = VStr (py_str (dict_get d "id")) /\
    dict_get r "home_team" = home_name /\
    dict_get r "away_team" = away_name /\
    dict_get r "match_date" = a).
  { destruct (truthy (dict_get_default d "score" (VDict []))).
    - do 8 (let E' := fresh "S" in
            destruct (_ : result value) eqn:E' in E7 at 1;
            cbn [rbind] in E7; [|discriminate E7]).
      injection E7 as <-.
      destruct detailed.
      + bind_ok H.
        destruct (truthy (dict_get_default d "referees" (VList []))).
        * do 2 (let E' := fresh "R" in
                destruct (_ : result value) eqn:E' in E7 at 1;
                cbn [rbind] in E7; [|discriminate E7]).
          injection E7 as <-. cbn [catch_all] in H. injection H as <-.
          repeat split; reflexivity.
        * injection E7 as <-. cbn [catch_all] in H. injection H as <-.
          repeat split; reflexivity.
      + cbn [catch_all] in H. injection H as <-. repeat split; reflexivity.
    - injection E7 as <-.
      destruct detailed.
      + bind_ok H.
        destruct (truthy (dict_get_default d "referees" (VList []))).
        * do 2 (let E' := fresh "R" in
                destruct (_ : result value) eqn:E' in E7 at 1;
                cbn [rbind] in E7; [|discriminate E7]).
          injection E7 as <-. cbn [catch_all] in H. injection H as <-.
          repeat split; reflexivity.
        * injection E7 as <-. cbn [catch_all] in H. injection H as <-.
          repeat split; reflexivity.
      + cbn [catch_all] in H. injection H as <-. repeat split; reflexivity. }
  destruct Hr as (R1 & R2 & R3 & R4 & R5).
  rewrite R1, R2, R3, R4, R5.
  split; [now exists st|].
  split; [reflexivity|]. split; [assumption|]. split; [assumption|].
  exact E.
Qed.

(** An event of TheSportsDB whose identifier, date and away team are
    null, and a match of Football-Data.org without [utcDate]. *)
Definition event_with_nulls : value :=
  VDict [ ("idEvent", VNone); ("dateEvent", VNone);
          ("strHomeTeam", VStr "Ipswich Town"); ("strAwayTeam", VNone);
          ("strLeague", VStr "English League Championship") ].

Definition match_without_date : value :=
  VDict [ ("id", VInt 327105);
          ("homeTeam", VDict [ ("id", VInt 349); ("name", VStr "Ipswich Town FC") ]);
          ("awayTeam", VDict [ ("id", VInt 68); ("name", VNone) ]);
          ("competition", VDict [ ("name", VStr "Championship") ]);
          ("status", VStr "POSTPONED") ].

(** C9 as stated fails: both adapters return records in which the date,
    a team name or the identifier is null. *)
Lemma normalization_leaves_nulls :
  (exists r,
     TheSportsDB._parse_event (mkDate 2024 3 10) event_with_nulls false = Some r /\
     dict_get r "api_id" = VNone /\
     dict_get r "match_date" = VNone /\
     dict_get r "away_team" = VNone) /\
  (exists r,
     FootballData._parse_match match_without_date false = Some r /\
     dict_get r "match_date" = VNone /\
     dict_get r "away_team" = VNone).
Proof.
  split; eexists; (split; [reflexivity|]); repeat split; reflexivity.
Qed.

(** C9, amended. Every match record returned by either adapter has its
    status populated with one of the canonical statuses.  A TheSportsDB
    record carries the identifier, the date and the two team names of
    the raw event unchanged, null where the event has none.  A
    Football-Data.org record carries the text of the raw identifier, the
    names found in the home and away team objects, which must exist, and
    a date that is text when [utcDate] is present and null otherwise. *)
Theorem normalization_populates :
  (forall today event detailed r,
     TheSportsDB._parse_event today event detailed = Some r ->
     exists d, event = VDict d /\
       (exists s, dict_get r "status" = VStr s /\ In s canonical_statuses) /\
       dict_get r "api_id" = dict_get d "idEvent" /\
       dict_get r "match_date" = dict_get d "dateEvent" /\
       dict_get r "home_team" = dict_get d "strHomeTeam" /\
       dict_get r "away_team" = dict_get d "strAwayTeam") /\
  (forall match_data detailed r,
     FootballData._parse_match match_data detailed = Some r ->
     exists d home away,
       match_data = VDict d /\
       dict_lookup d "homeTeam" = Some (VDict home) /\
       dict_lookup d "awayTeam" = Some (VDict away) /\
       (exists s, dict_get r "status" = VStr s /\ In s canonical_statuses) /\
       dict_get r "api_id" = VStr (py_str (dict_get d "id")) /\
       dict_lookup home "name" = Some (dict_get r "home_team") /\
       dict_lookup away "name" = Some (dict_get r "away_team") /\
       (if truthy (dict_get d "utcDate")
        then exists s, dict_get r "match_date" = VStr s
        else dict_get r "match_date" = VNone)).
Proof.
  split.
  - intros today event detailed r H.
    destruct (parse_event_fields _ _ _ _ H)
      as (d & -> & Hs & Hid & Hd & Hh & Ha & _).
    exists d. repeat split; try assumption.
    destruct Hs as [Hs|Hs]; rewrite Hs.
    + exists "finished". simpl. tauto.
    + exists "scheduled". simpl. tauto.
  - exact parse_match_fields.
Qed.

Lemma normalization_populates_witness :
  (exists d,
     VDict [ ("idEvent", VStr "1032723"); ("dateEvent", VStr "2024-03-09") ]
     = VDict d /\
     (exists s, dict_get
                  [ ("api_id", VStr "1032723"); ("match_date", VStr "2024-03-09");
                    ("kick_off_time", VNone); ("home_team", VNone);
                    ("away_team", VNone); ("home_score", VNone);
                    ("away_score", VNone); ("competition", VNone);
                    ("season", VNone); ("venue", VNone); ("round", VNone);
                    ("status", VStr "finished") ] "status" = VStr s /\
                In s canonical_statuses) /\
     VStr "1032723" = dict_get d "idEvent" /\
     VStr "2024-03-09" = dict_get d "dateEvent" /\
     VNone = dict_get d "strHomeTeam" /\
     VNone = dict_get d "strAwayTeam").
Proof.
  exact (proj1 normalization_populates (mkDate 2024 3 10)
           (VDict [ ("idEvent", VStr "1032723"); ("dateEvent", VStr "2024-03-09") ])
           false _ eq_refl).
Defined.

End Normalization.

(** ** Recent and upcoming matches (TheSportsDB) *)

Section MatchLists.

Import TheSportsDB.

(** The events whose parsing succeeded, in the order of the response. *)
Definition parse_successes (today : date) (events : list value) : list dict :=
  flat_map (fun event => match _parse_event today event false with
                         | Some m => [m]
                         | None => []
                         end) events.

(** The outcome the next request of a client gets. *)
Definition next_outcome (up : upstream) (w : world) : http_outcome :=
  fst (up (sent w)).

Definition request_fails (o : http_outcome) : Prop :=
  match o with
  | NoResponse => True
  | Response status _ => is_http_error status = true
  end.

Lemma parsed_event_not_empty today event m :
  _parse_event today event false = Some m -> truthy (VDict m) = true.
Proof.
  intros H. destruct (parse_event_fields _ _ _ _ H) as (d & _ & Hs & _).
  destruct m; [|reflexivity].
  destruct Hs as [Hs|Hs]; discriminate Hs.
Qed.

Lemma collect_successes today events :
  collect today events = parse_successes today events.
Proof.
  induction events as [|event rest IH]; [reflexivity|].
  unfold parse_successes in *. cbn [collect flat_map].
  destruct (_parse_event today event false) as [m|] eqn:E.
  - rewrite (parsed_event_not_empty _ _ _ E). cbn [app]. now rewrite IH.
  - exact IH.
Qed.

Lemma parse_successes_length today events :
  (List.length (parse_successes today events) <= List.length events)%nat.
Proof.
  induction events as [|event rest IH]; simpl; [lia|].
  destruct (_parse_event today event false); simpl; lia.
Qed.

Lemma make_request_value up w :
  fst (_make_request up w) =
  match next_outcome up w with
  | Response status body => if is_http_error status then VNone else body
  | NoResponse => VNone
  end.
Proof.
  unfold _make_request, session_get, next_outcome. simpl.
  destruct (up (sent w)) as [[status body|] d]; simpl; [|reflexivity].
  destruct (is_http_error status); reflexivity.
Qed.

Lemma matches_under_value key today count up w :
  fst (matches_under key today count up w) =
  (let data := fst (_make_request up w) in
   if negb (truthy data) then Ok []
   else rbind (contains data key) (fun present =>
     if negb present then Ok []
     else rbind (subscript data key) (fun events =>
       rbind (sliced_items count (or_empty_list events)) (fun items =>
         Ok (collect today items))))).
Proof.
  unfold matches_under. destruct (_make_request up w). reflexivity.
Qed.

(** What a list method answers, by the shape of the response; [key] is
    the key the method reads. *)
Definition answers (method : date -> Z -> upstream -> world -> result (list dict) * world)
    (key : string) (today : date) (count : Z) (up : upstream) (w : world) : Prop :=
  (forall status d events,
     next_outcome up w = Response status (VDict d) ->
     is_http_error status = false ->
     dict_lookup d key = Some (VList events) ->
     fst (method today count up w) =
       Ok (parse_successes today (firstn (Z.to_nat count) events)) /\
     Z.of_nat (List.length (parse_successes today (firstn (Z.to_nat count) events)))
       <= count) /\
  (request_fails (next_outcome up w) -> fst (method today count up w) = Ok []) /\
  (forall status d,
     next_outcome up w = Response status (VDict d) ->
     is_http_error status = false ->
     dict_lookup d key = None ->
     fst (method today count up w) = Ok []) /\
  (forall status d,
     next_outcome up w = Response status (VDict d) ->
     is_http_error status = false ->
     dict_lookup d key = Some VNone ->
     fst (method today count up w) = Ok []).

Lemma matches_under_answers key today count up w :
  0 <= count -> answers (matches_under key) key today count up w.
Proof.
  intros Hc. unfold answers.
  repeat split.
  - rewrite matches_under_value, make_request_value, H, H0. cbv zeta.
    destruct d as [|kv d']; [discriminate H1|].
    cbn [truthy negb contains rbind subscript].
    rewrite H1. cbn [negb rbind].
    unfold or_empty_list.
    destruct (truthy (VList events)) eqn:T.
    + cbn [sliced_items rbind]. unfold list_slice_to.
      destruct (Z.leb_spec 0 count); [|lia].
      now rewrite collect_successes.
    + destruct events; [|discriminate T].
      cbn [sliced_items rbind]. unfold list_slice_to.
      destruct (Z.leb_spec 0 count); [|lia].
      rewrite firstn_nil. reflexivity.
  - pose proof (parse_successes_length today (firstn (Z.to_nat count) events)) as L.
    pose proof (firstn_le_length (Z.to_nat count) events) as L'.
    lia.
  - intros F. rewrite matches_under_value, make_request_value.
    destruct (next_outcome up w) as [status body|]; [|reflexivity].
    simpl in F. rewrite F. reflexivity.
  - intros status d H H0 H1.
    rewrite matches_under_value, make_request_value, H, H0. cbv zeta.
    destruct d as [|kv d']; [reflexivity|].
    cbn [truthy negb contains rbind]. rewrite H1. reflexivity.
  - intros status d H H0 H1.
    rewrite matches_under_value, make_request_value, H, H0. cbv zeta.
    destruct d as [|kv d']; [discriminate H1|].
    cbn [truthy negb contains rbind subscript]. rewrite H1.
    cbn [negb rbind]. unfold or_empty_list. cbn [truthy sliced_items rbind].
    unfold list_slice_to. destruct (0 <=? count); [|reflexivity].
    now rewrite firstn_nil.
Qed.

(** C10. For every non-negative count, [get_last_matches] and
    [get_next_matches] return at most [count] matches: the events of the
    response, cut to the first [count], whose parsing succeeded, in the
    order of the response; and the empty list when the request fails,
    when the response lacks the key, or when the event list is null. *)
Theorem get_matches_answers (today : date) (count : Z) (up : upstream) (w : world) :
  0 <= count ->
  answers get_last_matches "results" today count up w /\
  answers get_next_matches "events" today count up w.
Proof.
  intros Hc. split; now apply matches_under_answers.
Qed.

(** A response with three events, the second of which is no object. *)
Definition three_events : upstream :=
  fun _ =>
    (Response 200
       (VDict [ ("results",
                 VList [ VDict [ ("idEvent", VStr "1"); ("intHomeScore", VStr "2");
                                 ("intAwayScore", VStr "0") ];
                         VStr "not an event";
                         VDict [ ("idEvent", VStr "3") ] ]) ]),
     1).

Definition fresh_world : world := mkWorld 0 0 0 [].

Lemma get_matches_answers_witness :
  answers get_last_matches "results" (mkDate 2024 3 10) 2 three_events fresh_world /\
  answers get_next_matches "events" (mkDate 2024 3 10) 2 three_events fresh_world.
Proof.
  apply (get_matches_answers (mkDate 2024 3 10) 2 three_events fresh_world).
  discriminate.
Defined.

Example get_last_matches_ex :
  option_map (map (fun m => dict_get m "api_id"))
    (catch_all (fst (get_last_matches (mkDate 2024 3 10) 2 three_events fresh_world)))
  = Some [ VStr "1" ] /\
  option_map (map (fun m => dict_get m "api_id"))
    (catch_all (fst (get_last_matches (mkDate 2024 3 10) 3 three_events fresh_world)))
  = Some [ VStr "1"; VStr "3" ].
Proof. split; reflexivity. Qed.

End MatchLists.

(** ** Throttling (Football-Data.org) *)

Section Throttling.

Import FootballData.

Definition is_throttled (o : http_outcome) : bool :=
  match o with
  | Response status _ => status =? 429
  | NoResponse => false
  end.

(** What [_make_request] returns for an outcome that is not a 429. *)
Definition answer (o : http_outcome) : value :=
  match o with
  | Response status body => if is_http_error status then VNone else body
  | NoResponse => VNone
  end.

(** The number of cool-downs in a trace: a sleep of 60 seconds that
    directly follows the warning of the 429 handler. *)
Definition is_throttle_warning (e : event) : bool :=
  match e with
  | EvLog (WARNING, Msg text) => (text =? "Rate limit exceeded, waiting...")%string
  | _ => false
  end.

Fixpoint cooldowns (tr : list event) : nat :=
  match tr with
  | [] => O
  | e :: older =>
      match e, older with
      | EvSleep d, w :: _ =>
          if (d =? 60) && is_throttle_warning w
          then S (cooldowns older) else cooldowns older
      | _, _ => cooldowns older
      end
  end.

Lemma sent_rate_limit w : sent (_rate_limit w) = sent w.
Proof.
  unfold _rate_limit.
  destruct (clock w - last_request_time w <? rate_limit_delay); reflexivity.
Qed.

Lemma cooldowns_after_cooldown n t tr :
  cooldowns
    (EvSleep 60 :: EvLog (WARNING, Msg "Rate limit exceeded, waiting...")
       :: EvGet n t :: tr) = S (cooldowns tr).
Proof. reflexivity. Qed.

(** The rate limiter adds no cool-down on top of a trace that ends
    with one. *)
Lemma cooldowns_rate_limit_after w tr :
  trace w = EvSleep 60 :: tr ->
  cooldowns (trace (_rate_limit w)) = cooldowns (trace w).
Proof.
  intros T. unfold _rate_limit.
  destruct (clock w - last_request_time w <? rate_limit_delay); [|reflexivity].
  cbn [trace sleep]. rewrite T.
  change (cooldowns (EvSleep ?d :: EvSleep 60 :: tr))
    with (if (d =? 60) && false then S (cooldowns (EvSleep 60 :: tr))
          else cooldowns (EvSleep 60 :: tr)).
  now rewrite andb_false_r.
Qed.

Lemma cooldowns_skip e tr :
  (forall d, e <> EvSleep d) -> cooldowns (e :: tr) = cooldowns tr.
Proof.
  intros H. destruct e as [d|n t|r]; [now contradiction (H d)| |];
    destruct tr; reflexivity.
Qed.

Lemma throttled_status status body :
  is_throttled (Response status body) = true ->
  is_http_error status = true /\ (status =? 429) = true.
Proof.
  simpl. intros H. split; [|exact H].
  apply Z.eqb_eq in H. now subst.
Qed.

(** One more call of the method after a 429. *)
Lemma make_request_throttled depth key up w o d :
  key <> "" ->
  up (sent w) = (o, d) ->
  is_throttled o = true ->
  _make_request (S depth) key up w =
  _make_request depth key up
    (sleep 60
       (emit WARNING (Msg "Rate limit exceeded, waiting...")
          (mkWorld (clock (_rate_limit w) + d) (S (sent w))
                   (last_request_time (_rate_limit w))
                   (EvGet (sent w) (clock (_rate_limit w))
                      :: trace (_rate_limit w))))).
Proof.
  intros Hk Hup Ho.
  cbn [_make_request].
  destruct (String.eqb_spec key "") as [->|_]; [contradiction|].
  unfold session_get. rewrite sent_rate_limit, Hup.
  destruct o as [status body|]; [|discriminate Ho].
  destruct (throttled_status _ _ Ho) as [-> ->]. reflexivity.
Qed.

(** The call that gets an outcome other than a 429 returns. *)
Lemma make_request_answered depth key up w o d :
  key <> "" ->
  up (sent w) = (o, d) ->
  is_throttled o = false ->
  exists final,
    _make_request (S depth) key up w = (Ok (answer o), final) /\
    sent final = S (sent w) /\
    cooldowns (trace final) = cooldowns (trace (_rate_limit w)).
Proof.
  intros Hk Hup Ho.
  cbn [_make_request].
  destruct (String.eqb_spec key "") as [->|_]; [contradiction|].
  unfold session_get. rewrite sent_rate_limit, Hup.
  destruct o as [status body|]; cbn [answer].
  - simpl in Ho. rewrite Ho.
    destruct (is_http_error status); eexists; (split; [reflexivity|]);
      (split; [reflexivity|]); cbn [trace emit];
      rewrite !cooldowns_skip by discriminate; reflexivity.
  - eexists. split; [reflexivity|]. split; [reflexivity|].
    cbn [trace emit]. rewrite !cooldowns_skip by discriminate. reflexivity.
Qed.

(** While the answers are 429 the method goes one call deeper each
    time; when the stack has no room left the call raises. *)
Lemma make_request_overflows depth key up w :
  key <> "" ->
  (forall i, (i < depth)%nat -> is_throttled (fst (up (sent w + i)%nat)) = true) ->
  fst (_make_request depth key up w) = Raise RecursionError.
Proof.
  intros Hkey. revert w.
  induction depth as [|depth IH]; intros w Hthr; [reflexivity|].
  destruct (up (sent w)) as [o d] eqn:Hup.
  assert (Ho : is_throttled o = true).
  { specialize (Hthr O ltac:(lia)). rewrite Nat.add_0_r, Hup in Hthr.
    exact Hthr. }
  rewrite (make_request_throttled depth key up w o d Hkey Hup Ho).
  apply IH. intros i Hi. cbn [sent sleep emit].
  replace (S (sent w) + i)%nat with (sent w + S i)%nat by lia.
  apply Hthr. lia.
Qed.

(** C3, amended. A call that is answered by [k] rate-limited responses
    in a row sleeps 60 seconds after each of them and calls itself
    again each time; the method counts nothing, and the only bound on
    [k] is the room [depth] that the recursion limit of the interpreter
    leaves for nested calls.  When another outcome follows and the
    [k + 1] calls fit, [k + 1] requests have been sent and the call
    returns what the last outcome gives, the body of a good response and
    nothing for a failure.  When the [k] responses exhaust the room, the
    call raises [RecursionError]. *)
Theorem make_request_retries (k depth : nat) (key : string) (up : upstream)
    (w : world) :
  key <> "" ->
  (forall i, (i < k)%nat -> is_throttled (fst (up (sent w + i)%nat)) = true) ->
  ((k < depth)%nat ->
   is_throttled (fst (up (sent w + k)%nat)) = false ->
   exists final,
     _make_request depth key up w =
       (Ok (answer (fst (up (sent w + k)%nat))), final) /\
     sent final = (sent w + k + 1)%nat /\
     cooldowns (trace final) = (k + cooldowns (trace (_rate_limit w)))%nat) /\
  (k = depth -> fst (_make_request depth key up w) = Raise RecursionError).
Proof.
  intros Hkey Hthr. split.
  - revert depth w Hthr.
    induction k as [|k IH]; intros depth w Hthr Hdepth Hlast.
    + destruct depth as [|depth]; [lia|].
      rewrite Nat.add_0_r in *.
      destruct (up (sent w)) as [o d] eqn:Hup.
      destruct (make_request_answered depth key up w o d Hkey Hup Hlast)
        as (final & H1 & H2 & H3).
      exists final. split; [exact H1|]. split; [lia|exact H3].
    + destruct depth as [|depth]; [lia|].
      destruct (up (sent w)) as [o d] eqn:Hup.
      assert (Ho : is_throttled o = true).
      { specialize (Hthr O ltac:(lia)). rewrite Nat.add_0_r, Hup in Hthr.
        exact Hthr. }
      rewrite (make_request_throttled depth key up w o d Hkey Hup Ho).
      set (w3 := sleep 60 _).
      assert (S3 : sent w3 = S (sent w)) by reflexivity.
      destruct (IH depth w3) as (final & H1 & H2 & H3).
      * intros i Hi. rewrite S3.
        replace (S (sent w) + i)%nat with (sent w + S i)%nat by lia.
        apply Hthr. lia.
      * lia.
      * rewrite S3.
        replace (S (sent w) + k)%nat with (sent w + S k)%nat by lia.
        exact Hlast.
      * exists final.
        rewrite S3 in H1, H2.
        replace (S (sent w) + k)%nat with (sent w + S k)%nat in H1 by lia.
        split; [exact H1|]. split; [lia|].
        rewrite H3.
        rewrite (cooldowns_rate_limit_after w3 _ eq_refl).
        subst w3. cbn [trace sleep emit].
        rewrite cooldowns_after_cooldown. lia.
  - intros ->. now apply make_request_overflows.
Qed.

(** An upstream that answers 429 twice and then with a body. *)
Definition twice_throttled : upstream :=
  fun n =>
    if (n <? 2)%nat then (Response 429 VNone, 0)
    else (Response 200 (VDict [ ("matches", VList []) ]), 0).

(** C3 as stated fails: after a second 429 in a row the call is tried a
    third time, and its body is returned. *)
Lemma second_throttle_is_retried :
  exists final,
    _make_request 3 "token" twice_throttled fresh_world =
      (Ok (VDict [ ("matches", VList []) ]), final) /\
    sent final = 3%nat /\
    cooldowns (trace final) = 2%nat.
Proof.
  eexists. split; [reflexivity|]. split; reflexivity.
Qed.

Lemma make_request_retries_witness :
  (exists final,
     _make_request 3 "token" twice_throttled fresh_world =
       (Ok (answer (fst (twice_throttled (sent fresh_world + 2)%nat))), final) /\
     sent final = (sent fresh_world + 2 + 1)%nat /\
     cooldowns (trace final) = (2 + cooldowns (trace (_rate_limit fresh_world)))%nat) /\
  fst (_make_request 2 "token" twice_throttled fresh_world) = Raise RecursionError.
Proof.
  assert (T : forall i, (i < 2)%nat ->
                is_throttled (fst (twice_throttled (sent fresh_world + i)%nat)) = true).
  { intros [|[|i]] Hi; try reflexivity.
    exfalso. apply (Nat.lt_irrefl 2).
    apply (Nat.le_lt_trans _ (S (S i))); [|exact Hi].
    apply le_n_S, le_n_S, Nat.le_0_l. }
  split.
  - apply (proj1 (make_request_retries 2 3 "token" twice_throttled fresh_world
                    ltac:(discriminate) T)).
    + apply le_n.
    + reflexivity.
  - apply (proj2 (make_request_retries 2 2 "token" twice_throttled fresh_world
                    ltac:(discriminate) T)).
    reflexivity.
Defined.

End Throttling.

(** ** The store: what a score update leaves alone *)

Section ScoreUpdate.

Import DatabaseManager.

(** A row without the four columns a score update writes. *)
Definition unwritten (r : MatchRow) : MatchRow :=
  mkMatch (match_id r) (m_season_id r) (m_competition_id r)
          (match_date r) (kick_off_time r)
          (home_team_id r) (away_team_id r)
          VNone VNone
          (half_time_home_score r) (half_time_away_score r)
          (venue r) (attendance r) (referee r)
          VNone (match_round r)
          (api_id_thesportsdb r) (api_id_football_data r) (notes r)
          None.

Lemma unwritten_score_update now home away status r :
  unwritten (score_update now home away status r) = unwritten r.
Proof. reflexivity. Qed.

Lemma update_match_score_store sch id home away status p :
  store (snd (update_match_score sch id home away status p)) = store p \/
  store (snd (update_match_score sch id home away status p)) =
    with_matches (store p)
      (map (fun x => if match_id x =? id
                     then score_update (db_now (store p)) home away status x
                     else x)
           (matches (store p))).
Proof.
  unfold update_match_score, bind, read_store.
  destruct (forallb _ _); [right|left]; reflexivity.
Qed.

(** C5. A score update ([update_match_score] with home score, away
    score and status) leaves every stored field of every match row other
    than the two scores, the status and the update timestamp unchanged,
    in particular venue, referee and attendance; it adds and removes no
    row and touches no other table. *)
Theorem update_match_score_frame (sch : Schema) (id : Z)
    (home away status : value) (p : pstate) :
  let p' := snd (update_match_score sch id home away status p) in
  map unwritten (matches (store p')) = map unwritten (matches (store p)) /\
  map venue (matches (store p')) = map venue (matches (store p)) /\
  map referee (matches (store p')) = map referee (matches (store p)) /\
  map attendance (matches (store p')) = map attendance (matches (store p)) /\
  seasons (store p') = seasons (store p) /\
  teams (store p') = teams (store p) /\
  competitions (store p') = competitions (store p) /\
  match_statistics (store p') = match_statistics (store p).
Proof.
  cbv zeta.
  assert (F : map unwritten
                (matches (store (snd (update_match_score sch id home away status p))))
              = map unwritten (matches (store p))).
  { destruct (update_match_score_store sch id home away status p) as [E|E];
      rewrite E; [reflexivity|].
    cbn [matches with_matches]. rewrite map_map. apply map_ext.
    intros x. destruct (match_id x =? id); reflexivity. }
  split; [exact F|].
  assert (G : forall (A : Type) (f : MatchRow -> A),
             (forall r, f (unwritten r) = f r) ->
             map f (matches (store (snd (update_match_score sch id home away status p))))
             = map f (matches (store p))).
  { intros A f Hf.
    rewrite <- !(map_ext _ _ (fun r => Hf r)).
    rewrite <- !(map_map unwritten f), F. reflexivity. }
  split; [apply G; reflexivity|].
  split; [apply G; reflexivity|].
  split; [apply G; reflexivity|].
  destruct (update_match_score_store sch id home away status p) as [E|E];
    rewrite E; repeat split; reflexivity.
Qed.

(** The update is not void: an accepted update writes the scores. *)
Lemma update_match_score_writes id home away status p r :
  In r (matches (store p)) -> match_id r = id ->
  In (score_update (db_now (store p)) home away status r)
     (matches (store (snd (update_match_score permissive id home away status p)))).
Proof.
  intros Hin Hid.
  unfold update_match_score, bind, read_store.
  replace (forallb _ (matches (store p))) with true.
  - cbn. apply in_map_iff. exists r. split; [|exact Hin].
    rewrite Hid, Z.eqb_refl. reflexivity.
  - symmetry. apply forallb_forall. intros x _. cbn. apply orb_true_r.
Qed.

End ScoreUpdate.

(** ** Refused statements *)

Section Refusals.

Import DatabaseManager.

(** A refused INSERT raises, logs the failure of the operation and
    leaves the store as it was, up to the sequence when an id was
    drawn. *)
Lemma refused_outcome {A : Type} (drawn : bool) (advanced : Store) (p : pstate) :
  @refused A drawn advanced p =
  (Raise DbError,
   mkP (if drawn then advanced else store p)
       (log p ++ [ (ERROR, MsgExn "Database operation failed: " DbError) ])).
Proof. destruct drawn; reflexivity. Qed.

Lemma db_fail_outcome {A : Type} (p : pstate) :
  @db_fail A p =
  (Raise DbError,
   mkP (store p)
       (log p ++ [ (ERROR, MsgExn "Database operation failed: " DbError) ])).
Proof. reflexivity. Qed.

(** The same rows in every table; the sequences of ids may differ. *)
Definition same_rows (st st' : Store) : Prop :=
  seasons st' = seasons st /\ teams st' = teams st /\
  competitions st' = competitions st /\ matches st' = matches st /\
  match_statistics st' = match_statistics st.

Lemma same_rows_refl st : same_rows st st.
Proof. repeat split. Qed.

Lemma refused_rows {A : Type} (drawn : bool) (advanced : Store) (p : pstate) :
  same_rows (store p) advanced ->
  same_rows (store p) (store (snd (@refused A drawn advanced p))).
Proof.
  intros H. rewrite refused_outcome. cbn [snd store].
  destruct drawn; [exact H|apply same_rows_refl].
Qed.

Lemma refused_table {A T : Type} (table : Store -> T) (drawn : bool)
    (advanced : Store) (p : pstate) :
  table advanced = table (store p) ->
  table (store (snd (@refused A drawn advanced p))) = table (store p).
Proof. intros H. rewrite refused_outcome. now destruct drawn. Qed.

End Refusals.

(** ** The store: properties of the match table kept by the operations *)

Section MatchTable.

Import DatabaseManager.

(** A property of the match table. *)
Variable Q : list MatchRow -> Prop.

Definition keeps {A} (m : DB A) : Prop :=
  forall p, Q (matches (store p)) -> Q (matches (store (snd (m p)))).

Lemma keeps_ret {A} (a : A) : keeps (ret a).
Proof. intros p H. exact H. Qed.

Lemma keeps_raise {A} (e : exn) : keeps (@raise A e).
Proof. intros p H. exact H. Qed.

Lemma keeps_lift {A} (r : result A) : keeps (lift r).
Proof. intros p H. exact H. Qed.

Lemma keeps_logger l m : keeps (logger l m).
Proof. intros p H. exact H. Qed.

Lemma keeps_read_store : keeps read_store.
Proof. intros p H. exact H. Qed.

Lemma keeps_bind {A B} (m : DB A) (k : A -> DB B) :
  keeps m -> (forall a, keeps (k a)) -> keeps (bind m k).
Proof.
  intros Hm Hk p H. unfold bind.
  specialize (Hm p H). destruct (m p) as [[a|e] p1]; cbn [snd] in *.
  - now apply Hk.
  - exact Hm.
Qed.

Lemma keeps_try_except {A} (body : DB A) (handler : exn -> DB A) :
  keeps body -> (forall e, keeps (handler e)) -> keeps (try_except body handler).
Proof.
  intros Hb Hh p H. unfold try_except.
  specialize (Hb p H). destruct (body p) as [[a|e] p1]; cbn [snd] in *.
  - exact Hb.
  - now apply Hh.
Qed.

Lemma keeps_db_fail {A} : keeps (@db_fail A).
Proof. apply keeps_bind; [apply keeps_logger|intros; apply keeps_raise]. Qed.

Lemma keeps_select_id {R} (rows : list R) name id param :
  keeps (select_id rows name id param).
Proof.
  unfold select_id.
  destruct (text_param param) as [[s|]|];
    [destruct (find _ rows)| |]; auto using keeps_ret, @keeps_db_fail.
Qed.

Lemma keeps_get_season_id name : keeps (get_season_id name).
Proof.
  apply keeps_bind; [apply keeps_read_store|intros; apply keeps_select_id].
Qed.

Lemma keeps_get_team_id name : keeps (get_team_id name).
Proof.
  apply keeps_bind; [apply keeps_read_store|intros; apply keeps_select_id].
Qed.

Lemma keeps_get_competition_id name : keeps (get_competition_id name).
Proof.
  apply keeps_bind; [apply keeps_read_store|intros; apply keeps_select_id].
Qed.

Lemma keeps_refused {A} drawn advanced p :
  matches advanced = matches (store p) ->
  Q (matches (store p)) ->
  Q (matches (store (snd (@refused A drawn advanced p)))).
Proof. intros E H. now rewrite (refused_table matches _ _ _ E). Qed.

Lemma keeps_add_season sch name start stop :
  keeps (add_season sch name start stop).
Proof.
  intros p H. unfold add_season, bind, read_store. cbn [fst snd].
  destruct (find _ (seasons (store p))).
  - destruct (season_ok sch _); [exact H|now apply keeps_refused].
  - destruct (season_ok sch _ && _); [exact H|now apply keeps_refused].
Qed.

Lemma keeps_add_team sch name kwargs :
  keeps (add_team sch name kwargs).
Proof.
  intros p H. unfold add_team, bind, read_store. cbn [fst snd].
  destruct (find _ (teams (store p))).
  - destruct (negb _).
    + destruct (team_ok sch _); [exact H|now apply keeps_refused].
    + cbn [write_store]. now apply keeps_get_team_id.
  - destruct (team_ok sch _ && _); [exact H|now apply keeps_refused].
Qed.

Lemma keeps_add_match_statistics sch id stats :
  keeps (add_match_statistics sch id stats).
Proof.
  intros p H. unfold add_match_statistics, bind, read_store. cbn [fst snd].
  destruct (stats_ok sch _ _); exact H.
Qed.

End MatchTable.

(** ** Score pairs *)

Section ScorePairs.

Import DatabaseManager.

(** Both scores null, or both set. *)
Definition pair_atomic (home away : value) : Prop :=
  is_none home = is_none away.

Definition score_atomic (r : MatchRow) : Prop :=
  pair_atomic (home_score r) (away_score r).

Definition all_atomic (rows : list MatchRow) : Prop := Forall score_atomic rows.

Lemma keeps_select_match_by_api_id Q sch column param :
  keeps Q (select_match_by_api_id sch column param).
Proof.
  apply keeps_bind; [apply keeps_read_store|intros st].
  destruct (text_param param) as [[s|]|];
    auto using keeps_ret, @keeps_db_fail.
Qed.

Lemma atomic_map_update (f : MatchRow -> MatchRow) (c : MatchRow -> bool) rows :
  (forall x, score_atomic (f x)) ->
  all_atomic rows ->
  all_atomic (map (fun x => if c x then f x else x) rows).
Proof.
  intros Hf H. unfold all_atomic in *. rewrite Forall_forall in *.
  intros y Hy. apply in_map_iff in Hy as (x & <- & Hx).
  destruct (c x); [apply Hf|now apply H].
Qed.

Lemma keeps_update_match_score sch id home away status :
  pair_atomic home away ->
  keeps all_atomic (update_match_score sch id home away status).
Proof.
  intros Hp p H.
  destruct (update_match_score_store sch id home away status p) as [E|E];
    rewrite E; [exact H|].
  cbn [matches with_matches].
  apply (atomic_map_update _ (fun x => match_id x =? id)); [|exact H].
  intros x. exact Hp.
Qed.

Lemma keeps_add_match sch match_data :
  pair_atomic (dict_get match_data "home_score")
              (dict_get match_data "away_score") ->
  keeps all_atomic (add_match sch match_data).
Proof.
  intros Hp p H. unfold add_match, bind, read_store. cbn [fst snd].
  destruct (find _ (matches (store p))).
  - destruct (match_ok sch _ _); [|now apply keeps_refused].
    cbn. apply (atomic_map_update _ (fun x => match_id x =? next_match_id (store p)));
      [|exact H].
    intros x. exact Hp.
  - destruct (match_ok sch _ _); [|now apply keeps_refused].
    cbn. apply Forall_app. split; [exact H|].
    constructor; [exact Hp|constructor].
Qed.

Lemma db_match_data_scores match_data source sid cid hid aid :
  dict_get (CurrentSeasonFetcher.db_match_data match_data source sid cid hid aid)
           "home_score" = dict_get match_data "home_score" /\
  dict_get (CurrentSeasonFetcher.db_match_data match_data source sid cid hid aid)
           "away_score" = dict_get match_data "away_score".
Proof.
  unfold CurrentSeasonFetcher.db_match_data.
  destruct (source =? "thesportsdb")%string; [split; reflexivity|].
  destruct (source =? "football_data")%string; split; reflexivity.
Qed.

Lemma keeps_resolve_season Q sch name :
  keeps Q (CurrentSeasonFetcher.resolve_season sch name).
Proof.
  unfold CurrentSeasonFetcher.resolve_season.
  apply keeps_bind; [apply keeps_get_season_id|intros sid].
  destruct (negb (truthy sid)); [|apply keeps_ret].
  repeat (apply keeps_bind; [apply keeps_lift|intros ?]).
  apply keeps_bind; [apply keeps_add_season|intros; apply keeps_ret].
Qed.

Lemma keeps_resolve_team Q sch team :
  keeps Q (CurrentSeasonFetcher.resolve_team sch team).
Proof.
  unfold CurrentSeasonFetcher.resolve_team.
  apply keeps_bind; [apply keeps_get_team_id|intros id].
  destruct (negb (truthy id)); [apply keeps_add_team|apply keeps_ret].
Qed.

Lemma store_match_keeps_atomic sch current_season match_data source :
  pair_atomic (dict_get match_data "home_score")
              (dict_get match_data "away_score") ->
  keeps all_atomic
        (CurrentSeasonFetcher._store_match sch current_season match_data source).
Proof.
  intros Hp. unfold CurrentSeasonFetcher._store_match.
  apply keeps_try_except; [|intros; apply keeps_logger].
  apply keeps_bind; [apply keeps_resolve_season|intros sid].
  apply keeps_bind; [apply keeps_get_competition_id|intros cid].
  destruct (negb (truthy cid)); [apply keeps_logger|].
  destruct (negb _ || negb _); [apply keeps_logger|].
  apply keeps_bind; [apply keeps_resolve_team|intros hid].
  apply keeps_bind; [apply keeps_resolve_team|intros aid].
  apply keeps_bind.
  - apply keeps_add_match. unfold pair_atomic.
    destruct (db_match_data_scores match_data source sid cid hid aid) as [-> ->].
    exact Hp.
  - intros id. destruct (truthy _);
      [apply keeps_add_match_statistics|apply keeps_ret].
Qed.

Lemma update_from_api_keeps_atomic sch match_data source :
  keeps all_atomic (DailyUpdater._update_match_from_api sch match_data source).
Proof.
  unfold DailyUpdater._update_match_from_api.
  apply keeps_try_except; [|intros; apply keeps_logger].
  destruct (negb (truthy _)); [apply keeps_ret|].
  apply keeps_bind.
  - destruct (source =? "thesportsdb")%string;
      apply keeps_select_match_by_api_id.
  - intros [|id rest]; [apply keeps_ret|].
    apply keeps_bind.
    + destruct (negb (is_none (dict_get match_data "home_score"))) eqn:Hh;
        [|apply keeps_ret].
      destruct (negb (is_none (dict_get match_data "away_score"))) eqn:Ha;
        [|apply keeps_ret].
      cbn [andb].
      apply keeps_bind; [|intros; apply keeps_logger].
      apply keeps_update_match_score. unfold pair_atomic.
      apply negb_true_iff in Hh, Ha. now rewrite Hh, Ha.
    + intros _. destruct (truthy _);
        [apply keeps_add_match_statistics|apply keeps_ret].
Qed.

(** A store with one season and one competition, and an event of
    TheSportsDB that carries the home score only. *)
Definition seeded_store : Store :=
  mkStore [ mkSeason 1 "2023-2024" "2023-08-01" "2024-05-31" ]
          []
          [ mkCompetition 1 "English League Championship" ]
          [] []
          2 1 1 1710000000.

Definition seeded : pstate := mkP seeded_store [].

Definition half_scored_event : value :=
  VDict [ ("idEvent", VStr "1032723");
          ("dateEvent", VStr "2024-03-09");
          ("strHomeTeam", VStr "Ipswich Town");
          ("strAwayTeam", VStr "Cardiff City");
          ("intHomeScore", VStr "2");
          ("intAwayScore", VNone);
          ("strLeague", VStr "English League Championship");
          ("strSeason", VStr "2023-2024") ].

(** C2 as stated fails: the record parsed from an event with one score
    is stored by [add_match] with the other side null. *)
Lemma one_sided_score_is_stored :
  exists record,
    TheSportsDB._parse_event (mkDate 2024 3 10) half_scored_event false
      = Some record /\
    map (fun r => (home_score r, away_score r))
        (matches (store (snd (CurrentSeasonFetcher._store_match permissive
                                "2023/24" record "thesportsdb" seeded))))
      = [ (VInt 2, VNone) ].
Proof.
  eexists. split; reflexivity.
Qed.

(** C2, amended. The daily updater never leaves a match with exactly
    one score null: it writes scores through [update_match_score] only
    when both are present.  [_store_match] hands the score pair of the
    adapter's record to [add_match] as it is, so the match table stays
    free of one-sided pairs whenever the record has both scores or
    neither. *)
Theorem score_pairs_kept :
  (forall sch match_data source p,
     all_atomic (matches (store p)) ->
     all_atomic (matches (store (snd (DailyUpdater._update_match_from_api
                                        sch match_data source p))))) /\
  (forall sch current_season match_data source p,
     pair_atomic (dict_get match_data "home_score")
                 (dict_get match_data "away_score") ->
     all_atomic (matches (store p)) ->
     all_atomic (matches (store (snd (CurrentSeasonFetcher._store_match
                                        sch current_season match_data source p))))) /\
  (forall sch id home away status p,
     pair_atomic home away ->
     all_atomic (matches (store p)) ->
     all_atomic (matches (store (snd (update_match_score
                                        sch id home away status p))))).
Proof.
  split; [|split].
  - intros sch match_data source p. apply update_from_api_keeps_atomic.
  - intros sch current_season match_data source p Hp.
    now apply store_match_keeps_atomic.
  - intros sch id home away status p Hp.
    now apply keeps_update_match_score.
Qed.

(** The record of a played match, both scores set. *)
Definition played_record : dict :=
  [ ("api_id", VStr "1032723"); ("match_date", VStr "2024-03-09");
    ("kick_off_time", VStr "15:00:00");
    ("home_team", VStr "Ipswich Town"); ("away_team", VStr "Cardiff City");
    ("home_score", VInt 2); ("away_score", VInt 0);
    ("competition", VStr "English League Championship");
    ("season", VStr "2023-2024"); ("venue", VStr "Portman Road");
    ("round", VStr "37"); ("status", VStr "finished") ].

Lemma score_pairs_kept_witness :
  all_atomic (matches (store (snd (DailyUpdater._update_match_from_api
                                     permissive played_record "thesportsdb" seeded)))) /\
  all_atomic (matches (store (snd (CurrentSeasonFetcher._store_match
                                     permissive "2023/24" played_record
                                     "thesportsdb" seeded)))).
Proof.
  split.
  - exact (proj1 score_pairs_kept permissive played_record "thesportsdb" seeded
             (Forall_nil _)).
  - exact (proj1 (proj2 score_pairs_kept) permissive "2023/24" played_record
             "thesportsdb" seeded eq_refl (Forall_nil _)).
Defined.

Example played_record_is_stored :
  map (fun r => (match_id r, home_score r, away_score r, match_status r))
      (matches (store (snd (CurrentSeasonFetcher._store_match permissive
                              "2023/24" played_record "thesportsdb" seeded))))
  = [ (1, VInt 2, VInt 0, VStr "finished") ].
Proof. reflexivity. Qed.

End ScorePairs.

(** ** Upserting the same match twice *)

Section Idempotence.

Import DatabaseManager.

(** The sequence of match ids is ahead of every stored id. *)
Definition sequence_ahead (st : Store) : Prop :=
  Forall (fun r => match_id r < next_match_id st) (matches st).

Lemma find_none_ahead st :
  sequence_ahead st ->
  find (fun x => match_id x =? next_match_id st) (matches st) = None.
Proof.
  unfold sequence_ahead. induction (matches st) as [|r rows IH]; intros H.
  - reflexivity.
  - simpl. inversion H as [|? ? Hr Hrows]; subst.
    destruct (Z.eqb_spec (match_id r) (next_match_id st)); [lia|].
    now apply IH.
Qed.


Lemma sequence_ahead_advanced st :
  sequence_ahead st -> sequence_ahead (with_new_match st (matches st)).
Proof.
  unfold sequence_ahead. cbn. intros H.
  eapply Forall_impl; [|exact H]. cbn. intros; lia.
Qed.

Lemma add_match_keeps_ahead sch match_data p :
  sequence_ahead (store p) ->
  sequence_ahead (store (snd (add_match sch match_data p))).
Proof.
  intros H. unfold add_match, bind, read_store. cbn [fst snd].
  rewrite (find_none_ahead _ H).
  destruct (match_ok sch _ _).
  - cbn. unfold sequence_ahead in *. cbn.
    apply Forall_app. split.
    + eapply Forall_impl; [|exact H]. cbn. intros; lia.
    + constructor; [cbn; lia|constructor].
  - rewrite refused_outcome. cbn [snd store].
    destruct (match_drawn sch _ _); [now apply sequence_ahead_advanced|exact H].
Qed.

(** A row without its id and timestamp. *)
Definition columns (r : MatchRow) : MatchRow :=
  mkMatch 0 (m_season_id r) (m_competition_id r)
          (match_date r) (kick_off_time r)
          (home_team_id r) (away_team_id r)
          (home_score r) (away_score r)
          (half_time_home_score r) (half_time_away_score r)
          (venue r) (attendance r) (referee r)
          (match_status r) (match_round r)
          (api_id_thesportsdb r) (api_id_football_data r) (notes r)
          None.

Definition store_twice (sch : Schema) (record : dict) (source : string)
    (p : pstate) : pstate :=
  snd (CurrentSeasonFetcher._store_match sch "2023/24" record source
         (snd (CurrentSeasonFetcher._store_match sch "2023/24" record source p))).

(** Without a uniqueness constraint on the identifier of the provider,
    the same record of a played match, stored twice in a store that
    knows its season and competition, gives two rows, equal in every
    column but the id. *)
Example store_match_twice_unconstrained :
  map match_id
      (matches (store (store_twice permissive played_record "thesportsdb" seeded)))
    = [ 1; 2 ] /\
  (exists row,
     map columns
         (matches (store (store_twice permissive played_record "thesportsdb" seeded)))
       = [ row; row ]).
Proof.
  split; [reflexivity|]. eexists; reflexivity.
Qed.

End Idempotence.

(** ** A match of an unknown competition *)

Section UnknownCompetition.

Import DatabaseManager.
Import CurrentSeasonFetcher.

Definition is_warning (r : log_record) : bool :=
  match fst r with
  | WARNING => true
  | _ => false
  end.

Definition warnings (l : list log_record) : list log_record :=
  filter is_warning l.


Definition season_ids_nonzero (st : Store) : Prop :=
  Forall (fun r => season_id r <> 0) (seasons st).











(** Two records of a competition the seeded store does not know: one
    of a season that is not stored, one whose season name does not start
    with a year. *)
Definition cup_record (season : string) : dict :=
  [ ("api_id", VStr "441201"); ("match_date", VStr "2025-01-11");
    ("home_team", VStr "Ipswich Town"); ("away_team", VStr "Bristol Rovers");
    ("competition", VStr "FA Cup"); ("season", VStr season);
    ("status", VStr "scheduled") ].



End UnknownCompetition.

(** * Further properties *)

(** ** Spacing of the requests to Football-Data.org *)

Section RequestSpacing.

Import FootballData.

(** The times at which the requests of a trace were sent, latest
    first. *)
Fixpoint request_times (tr : list event) : list Z :=
  match tr with
  | [] => []
  | EvGet _ t :: older => t :: request_times older
  | _ :: older => request_times older
  end.

(** Times, latest first, each at least [gap] after the one before. *)
Fixpoint spaced (gap : Z) (times : list Z) : Prop :=
  match times with
  | later :: older =>
      match older with
      | earlier :: _ => earlier + gap <= later
      | [] => True
      end /\ spaced gap older
  | [] => True
  end.

(** The requests sent so far kept the delay, and [last_request_time] is
    not behind the latest of them. *)
Definition paced (w : world) : Prop :=
  spaced rate_limit_delay (request_times (trace w)) /\
  match request_times (trace w) with
  | t :: _ => t <= last_request_time w
  | [] => True
  end.

Lemma rate_limit_advances w :
  last_request_time w + rate_limit_delay <= clock (_rate_limit w) /\
  last_request_time (_rate_limit w) = clock (_rate_limit w) /\
  request_times (trace (_rate_limit w)) = request_times (trace w).
Proof.
  unfold _rate_limit, rate_limit_delay, sleep.
  destruct (Z.ltb_spec (clock w - last_request_time w) 6);
    cbn [clock last_request_time trace request_times]; repeat split; lia.
Qed.

(** The state after the request that follows the rate limiter. *)
Lemma paced_request w d :
  paced w ->
  paced (mkWorld (clock (_rate_limit w) + d) (S (sent w))
                 (last_request_time (_rate_limit w))
                 (EvGet (sent w) (clock (_rate_limit w))
                    :: trace (_rate_limit w))).
Proof.
  intros [Hs Hl].
  destruct (rate_limit_advances w) as (R1 & R2 & R3).
  unfold paced. cbn [trace last_request_time request_times spaced].
  rewrite R3. split; [split; [|exact Hs]|lia].
  destruct (request_times (trace w)); [exact I|lia].
Qed.

(** X1. [_make_request] keeps its requests at least six seconds apart:
    when the requests a client has sent so far were six seconds apart,
    so are they after one more call, however it ends; each request of
    the call, the retries after a 429 included, is sent at least six
    seconds after [last_request_time], the time of the request before
    it.  With a key and room for one call at least one request is
    sent. *)
Theorem make_request_spacing (depth : nat) (key : string) (up : upstream)
    (w : world) :
  paced w ->
  let w' := snd (_make_request depth key up w) in
  paced w' /\
  (exists new,
     request_times (trace w') = (new ++ request_times (trace w))%list /\
     Z.of_nat (List.length new) = Z.of_nat (sent w') - Z.of_nat (sent w) /\
     forall t, In t new -> last_request_time w + rate_limit_delay <= t) /\
  (key <> "" -> (0 < depth)%nat -> (sent w < sent w')%nat).
Proof.
  cbv zeta. revert w.
  induction depth as [|depth IH]; intros w P.
  - cbn. split; [exact P|]. split; [|lia].
    exists []. cbn. repeat split; [lia|intros t []].
  - destruct (String.eqb_spec key "") as [->|Hkey].
    + cbn. split; [exact P|]. split; [|intros H; now contradiction H].
      exists []. cbn. repeat split; [lia|intros t []].
    + destruct (up (sent w)) as [o d] eqn:Hup.
      pose proof (paced_request w d P) as P2.
      destruct (rate_limit_advances w) as (R1 & R2 & R3).
      destruct (is_throttled o) eqn:Ho.
      * rewrite (make_request_throttled depth key up w o d Hkey Hup Ho).
        set (w3 := sleep 60 _).
        assert (P3 : paced w3) by exact P2.
        destruct (IH w3 P3) as (P' & (new & Hn & Hl & Ht) & Hs).
        split; [exact P'|]. split.
        -- exists (new ++ [clock (_rate_limit w)])%list.
           rewrite Hn. subst w3.
           cbn [trace sleep emit request_times sent last_request_time] in *.
           rewrite R3, <- app_assoc. split; [reflexivity|].
           rewrite length_app. cbn [List.length]. split; [lia|].
           intros t Hin. apply in_app_or in Hin as [Hin|[<-|[]]]; [|lia].
           specialize (Ht t Hin). unfold rate_limit_delay in *. lia.
        -- intros _ _. subst w3. cbn [sent sleep emit] in *. lia.
      * cbn [_make_request].
        destruct (String.eqb_spec key "") as [->|_]; [contradiction|].
        unfold session_get. rewrite sent_rate_limit, Hup.
        assert (E : forall w',
                  w' = mkWorld (clock (_rate_limit w) + d) (S (sent w))
                         (last_request_time (_rate_limit w))
                         (EvGet (sent w) (clock (_rate_limit w))
                            :: trace (_rate_limit w)) \/
                  (exists l m, w' = emit l m
                     (mkWorld (clock (_rate_limit w) + d) (S (sent w))
                        (last_request_time (_rate_limit w))
                        (EvGet (sent w) (clock (_rate_limit w))
                           :: trace (_rate_limit w)))) ->
                  paced w' /\
                  (exists new,
                     request_times (trace w') = (new ++ request_times (trace w))%list /\
                     Z.of_nat (List.length new) = Z.of_nat (sent w') - Z.of_nat (sent w) /\
                     forall t, In t new -> last_request_time w + rate_limit_delay <= t) /\
                  (key <> "" -> (0 < S depth)%nat -> (sent w < sent w')%nat)).
        { intros w' [->|(l & m & ->)]; (split; [exact P2|]);
            (split; [|intros _ _; cbn; lia]);
            exists [clock (_rate_limit w)];
            cbn [trace emit request_times sent app List.length];
            rewrite R3; (split; [reflexivity|]); (split; [lia|]);
            intros t [<-|[]]; lia. }
        destruct o as [status body|].
        -- simpl in Ho. rewrite Ho.
           destruct (is_http_error status); cbn [snd]; apply E;
             [right; eauto|now left].
        -- cbn [snd]. apply E. right; eauto.
Qed.

(** Three requests in a row, the first two answered by 429. *)
Lemma make_request_spacing_witness :
  let w' := snd (_make_request 3 "token" twice_throttled fresh_world) in
  paced w' /\
  (exists new,
     request_times (trace w') = (new ++ request_times (trace fresh_world))%list /\
     Z.of_nat (List.length new) = Z.of_nat (sent w') - Z.of_nat (sent fresh_world) /\
     forall t, In t new -> last_request_time fresh_world + rate_limit_delay <= t) /\
  ("token" <> "" -> (0 < 3)%nat -> (sent fresh_world < sent w')%nat).
Proof.
  apply (make_request_spacing 3 "token" twice_throttled fresh_world).
  split; exact I.
Defined.

(** The times of the three requests: the cool-down of 60 seconds is
    longer than the delay, so the limiter does not sleep again. *)
Example request_times_ex :
  request_times
    (trace (snd (_make_request 3 "token" twice_throttled fresh_world)))
  = [ 126; 66; 6 ].
Proof. reflexivity. Qed.

End RequestSpacing.

(** ** Match lists of Football-Data.org *)

Section FootballDataLists.

Import FootballData.
Import FootballDataQueries.

(** The matches whose parsing succeeded, in the order of the response. *)
Definition parsed_matches (items : list value) : list dict :=
  flat_map (fun x => match _parse_match x false with
                     | Some m => [m]
                     | None => []
                     end) items.

Lemma parsed_match_not_empty match_data detailed m :
  _parse_match match_data detailed = Some m -> truthy (VDict m) = true.
Proof.
  intros H.
  destruct (parse_match_fields _ _ _ H) as (d & home & away & _ & _ & _ & Hs & _).
  destruct m; [|reflexivity].
  destruct Hs as (s & Hs & _). discriminate Hs.
Qed.

Lemma collect_parsed items : collect items = parsed_matches items.
Proof.
  induction items as [|x rest IH]; [reflexivity|].
  unfold parsed_matches in *. cbn [collect flat_map].
  destruct (_parse_match x false) as [m|] eqn:E.
  - rewrite (parsed_match_not_empty _ _ _ E). cbn [app]. now rewrite IH.
  - exact IH.
Qed.

(** What the method makes of the decoded response. *)
Lemma matches_of_cases (data : value) :
  (data = VNone -> matches_of data = Ok []) /\
  (forall d, data = VDict d -> dict_lookup d "matches" = None ->
             matches_of data = Ok []) /\
  (forall d items, data = VDict d ->
                   dict_lookup d "matches" = Some (VList items) ->
                   matches_of data = Ok (parsed_matches items)) /\
  (forall d, data = VDict d -> dict_lookup d "matches" = Some VNone ->
             matches_of data = Raise TypeError).
Proof.
  repeat split.
  - intros ->. reflexivity.
  - intros d -> H. unfold matches_of.
    destruct d as [|kv d']; [reflexivity|].
    cbn [truthy negb contains rbind]. rewrite H. reflexivity.
  - intros d items -> H. unfold matches_of.
    destruct d as [|kv d']; [discriminate H|].
    cbn [truthy negb contains rbind subscript]. rewrite H.
    cbn [negb rbind iterate]. now rewrite collect_parsed.
  - intros d -> H. unfold matches_of.
    destruct d as [|kv d']; [discriminate H|].
    cbn [truthy negb contains rbind subscript]. rewrite H. reflexivity.
Qed.

(** X2. [get_team_matches] with a key, when the first answer is not a
    429: a response whose [matches] is a list gives the matches whose
    parsing succeeded, all of them and in order ([limit] cuts nothing
    locally); a failed request and a response without the key give the
    empty list; a response whose [matches] is null makes the method
    raise [TypeError], the loop having no guard for it. *)
Theorem get_team_matches_answers (depth : nat) (key status : string)
    (limit : Z) (up : upstream) (w : world) :
  key <> "" ->
  is_throttled (next_outcome up w) = false ->
  exists w',
    get_team_matches (S depth) key status limit up w
      = (matches_of (answer (next_outcome up w)), w') /\
    sent w' = S (sent w) /\
    (request_fails (next_outcome up w) ->
     matches_of (answer (next_outcome up w)) = Ok []) /\
    (forall code d,
       next_outcome up w = Response code (VDict d) ->
       is_http_error code = false ->
       (dict_lookup d "matches" = None ->
        matches_of (answer (next_outcome up w)) = Ok []) /\
       (forall items,
          dict_lookup d "matches" = Some (VList items) ->
          matches_of (answer (next_outcome up w)) = Ok (parsed_matches items)) /\
       (dict_lookup d "matches" = Some VNone ->
        matches_of (answer (next_outcome up w)) = Raise TypeError)).
Proof.
  intros Hkey Ho. unfold next_outcome in *.
  destruct (up (sent w)) as [o d0] eqn:Hup. cbn [fst] in *.
  destruct (make_request_answered depth key up w o d0 Hkey Hup Ho)
    as (w' & H1 & H2 & _).
  exists w'. unfold get_team_matches. rewrite H1. cbn [rbind].
  split; [reflexivity|]. split; [exact H2|].
  split.
  - intros F. destruct o as [code body|]; [|reflexivity].
    cbn in F. cbn [answer]. rewrite F. reflexivity.
  - intros code d -> Hc. cbn [answer]. rewrite Hc.
    destruct (matches_of_cases (VDict d)) as (_ & A & B & C).
    repeat split; intros; eauto.
Qed.

(** A response with a null list of matches. *)
Definition null_matches : upstream :=
  fun _ => (Response 200 (VDict [ ("matches", VNone) ]), 1).

Lemma get_team_matches_answers_witness :
  exists w',
    get_team_matches 1 "token" "FINISHED" 50 null_matches fresh_world
      = (Raise TypeError, w').
Proof.
  destruct (get_team_matches_answers 0 "token" "FINISHED" 50 null_matches
              fresh_world) as (w' & H & _).
  - discriminate.
  - reflexivity.
  - exists w'. exact H.
Defined.

(** Without an API key, which is the default of the configuration,
    neither list method sends a request or waits. *)
Lemma no_key_no_request (depth : nat) (status date_from date_to : string)
    (limit : Z) (up : upstream) (w : world) :
  let quiet :=
    emit WARNING (Msg "Football-Data.org API key not configured") w in
  get_team_matches (S depth) "" status limit up w = (Ok [], quiet) /\
  get_matches_by_date (S depth) "" date_from date_to up w = (Ok [], quiet) /\
  sent quiet = sent w /\ clock quiet = clock w /\
  last_request_time quiet = last_request_time w.
Proof.
  cbv zeta. repeat split; reflexivity.
Qed.

End FootballDataLists.

(** ** Upserts on a natural key: seasons and teams *)

Section NaturalKeyUpserts.

Import DatabaseManager.

Context {A : Type} (P : A -> bool) (r : A).

Definition replace_where (x : A) : A := if P x then r else x.

Lemma find_map_replace l old :
  P r = true -> find P l = Some old ->
  find P (map replace_where l) = Some r.
Proof.
  intros Hr. unfold replace_where.
  induction l as [|x l IH]; [discriminate|].
  cbn [find map].
  destruct (P x) eqn:Hx.
  - intros _. now rewrite Hr.
  - rewrite Hx. exact IH.
Qed.

Lemma map_replace_twice l :
  P r = true -> map replace_where (map replace_where l) = map replace_where l.
Proof.
  intros Hr. rewrite map_map. apply map_ext. intros x.
  unfold replace_where. destruct (P x) eqn:Hx; [now rewrite Hr|now rewrite Hx].
Qed.

Lemma map_replace_absent l :
  find P l = None -> map replace_where l = l.
Proof.
  unfold replace_where.
  induction l as [|x l IH]; [reflexivity|].
  cbn [find map].
  destruct (P x); [discriminate|]. intros H. now rewrite IH.
Qed.

Lemma find_appended l :
  P r = true -> find P l = None -> find P (l ++ [r]) = Some r.
Proof.
  intros Hr. induction l as [|x l IH]; cbn [find app].
  - now rewrite Hr.
  - destruct (P x); [discriminate|]. exact IH.
Qed.

Lemma map_replace_appended l :
  P r = true -> find P l = None ->
  map replace_where (l ++ [r]) = (l ++ [r])%list.
Proof.
  intros Hr Hl. rewrite map_app, (map_replace_absent _ Hl).
  cbn. unfold replace_where. now rewrite Hr.
Qed.

End NaturalKeyUpserts.

Section SeasonUpsert.

Import DatabaseManager.

Definition named (name : string) (x : SeasonRow) : bool :=
  (season_name x =? name)%string.

(** The three ways a call of [add_season] ends. *)
Lemma add_season_cases sch name start stop p :
  let out := add_season sch name start stop p in
  (fst out = Raise DbError /\ same_rows (store p) (store (snd out))) \/
  (exists old,
     find (named name) (seasons (store p)) = Some old /\
     season_ok sch (mkSeason (season_id old) name start stop) = true /\
     fst out = Ok (season_id old) /\
     store (snd out) =
       with_seasons (store p)
         (map (replace_where (named name)
                 (mkSeason (season_id old) name start stop))
              (seasons (store p)))) \/
  (find (named name) (seasons (store p)) = None /\
   season_ok sch (mkSeason (next_season_id (store p)) name start stop) = true /\
   fst out = Ok (next_season_id (store p)) /\
   store (snd out) =
     with_seasons (store p)
       (seasons (store p)
        ++ [ mkSeason (next_season_id (store p)) name start stop ])).
Proof.
  cbv zeta. unfold add_season, bind, read_store. cbn [fst snd].
  fold (named name).
  assert (R : forall drawn,
            fst (@refused Z drawn (with_seasons (store p) (seasons (store p))) p)
            = Raise DbError /\
            same_rows (store p)
              (store (snd (@refused Z drawn
                             (with_seasons (store p) (seasons (store p))) p)))).
  { intros drawn. split; [now rewrite refused_outcome|].
    apply refused_rows. repeat split. }
  destruct (find (named name) (seasons (store p))) as [old|] eqn:F.
  - destruct (season_ok sch _) eqn:Hok.
    + right. left. exists old. repeat split; assumption || reflexivity.
    + left. apply R.
  - destruct (season_ok sch _) eqn:Hok; cbn [andb].
    + destruct (negb _).
      * right. right. repeat split; assumption || reflexivity.
      * left. apply R.
    + left. apply R.
Qed.

Lemma named_self name id start stop :
  named name (mkSeason id name start stop) = true.
Proof. unfold named. cbn. apply String.eqb_refl. Qed.

Lemma add_season_on_present sch name start stop p id :
  find (named name) (seasons (store p)) = Some (mkSeason id name start stop) ->
  season_ok sch (mkSeason id name start stop) = true ->
  fst (add_season sch name start stop p) = Ok id /\
  seasons (store (snd (add_season sch name start stop p))) =
    map (replace_where (named name) (mkSeason id name start stop))
        (seasons (store p)).
Proof.
  intros F Hok. unfold add_season, bind, read_store. cbn [fst snd].
  fold (named name). rewrite F. cbn [season_id]. rewrite Hok.
  split; reflexivity.
Qed.

(** An accepted [add_season], called again with the same arguments. *)
Lemma add_season_again sch name start stop p id :
  fst (add_season sch name start stop p) = Ok id ->
  let p1 := snd (add_season sch name start stop p) in
  find (named name) (seasons (store p1)) = Some (mkSeason id name start stop) /\
  fst (add_season sch name start stop p1) = Ok id /\
  seasons (store (snd (add_season sch name start stop p1))) = seasons (store p1).
Proof.
  intros Hid. cbv zeta.
  destruct (add_season_cases sch name start stop p)
    as [[E _]|[(old & F & Hok & E & S)|(F & Hok & E & S)]];
    rewrite E in Hid; [discriminate| |]; injection Hid as <-.
  - assert (F1 : find (named name)
                   (seasons (store (snd (add_season sch name start stop p))))
                 = Some (mkSeason (season_id old) name start stop)).
    { rewrite S. cbn [seasons with_seasons].
      apply (find_map_replace _ _ _ old); [apply named_self|exact F]. }
    split; [exact F1|].
    destruct (add_season_on_present sch name start stop _ _ F1 Hok) as [E' S'].
    split; [exact E'|].
    rewrite S', S. cbn [seasons with_seasons].
    apply map_replace_twice. apply named_self.
  - assert (F1 : find (named name)
                   (seasons (store (snd (add_season sch name start stop p))))
                 = Some (mkSeason (next_season_id (store p)) name start stop)).
    { rewrite S. cbn [seasons with_seasons].
      apply find_appended; [apply named_self|exact F]. }
    split; [exact F1|].
    destruct (add_season_on_present sch name start stop _ _ F1 Hok) as [E' S'].
    split; [exact E'|].
    rewrite S', S. cbn [seasons with_seasons].
    apply map_replace_appended; [apply named_self|exact F].
Qed.

End SeasonUpsert.

Section SeasonUpsertTheorems.

Import DatabaseManager.

(** X3. [add_season] is idempotent where it is accepted, for every
    schema and store: after a call that returned an id, a second call
    with the same arguments returns the same id and leaves the season
    table as the first call left it.  A call that is refused raises the
    error of the database and leaves every table as it was. *)
Theorem add_season_idempotent (sch : Schema) (name start stop : string)
    (p : pstate) :
  let out := add_season sch name start stop p in
  let p1 := snd out in
  let p2 := snd (add_season sch name start stop p1) in
  (forall id, fst out = Ok id ->
     fst (add_season sch name start stop p1) = Ok id /\
     seasons (store p2) = seasons (store p1)) /\
  (forall e, fst out = Raise e ->
     e = DbError /\ same_rows (store p) (store p1)).
Proof.
  cbv zeta. split.
  - intros id E.
    destruct (add_season_again sch name start stop p id E) as (_ & H1 & H2).
    split; assumption.
  - intros e E.
    destruct (add_season_cases sch name start stop p)
      as [[E' S]|[(old & _ & _ & E' & _)|(_ & _ & E' & _)]];
      rewrite E' in E; [|discriminate..].
    injection E as <-. split; [reflexivity|exact S].
Qed.

(** A season twice, and a season whose id is taken: the refused INSERT
    has drawn the id, and the next call gets the one after it. *)
Example add_season_ex :
  let add := add_season permissive "2024/25" "2024-08-01" "2025-05-31" in
  fst (add seeded) = Ok 2 /\ fst (add (snd (add seeded))) = Ok 2 /\
  next_season_id (store (snd (add (snd (add seeded))))) = 4 /\
  (let taken := mkP (mkStore [ mkSeason 2 "2023/24" "2023-08-01" "2024-05-31" ]
                       [] [] [] [] 2 1 1 0) [] in
   fst (add taken) = Raise DbError /\ fst (add (snd (add taken))) = Ok 3).
Proof. cbv zeta. repeat split; reflexivity. Qed.

(** X4. A season that [add_season] has stored is found again: after a
    call that returned an id, [get_season_id] returns this id for the
    name, and changes nothing. *)
Theorem add_season_then_lookup (sch : Schema) (name start stop : string)
    (p : pstate) (id : Z) :
  fst (add_season sch name start stop p) = Ok id ->
  let p1 := snd (add_season sch name start stop p) in
  get_season_id (VStr name) p1 = (Ok (VInt id), p1).
Proof.
  intros E. cbv zeta.
  destruct (add_season_again sch name start stop p id E) as (F & _).
  unfold get_season_id, select_id, bind, read_store. cbn [fst snd text_param].
  unfold named in F. rewrite F. reflexivity.
Qed.

Lemma add_season_then_lookup_witness :
  get_season_id (VStr "2024/25")
    (snd (add_season permissive "2024/25" "2024-08-01" "2025-05-31" seeded))
  = (Ok (VInt 2),
     snd (add_season permissive "2024/25" "2024-08-01" "2025-05-31" seeded)).
Proof.
  exact (add_season_then_lookup permissive "2024/25" "2024-08-01" "2025-05-31"
           seeded 2 eq_refl).
Defined.

End SeasonUpsertTheorems.

(** ** Pre- and postconditions on the store *)

Section StoreLogic.

Import DatabaseManager.

(** [m], started in a store that satisfies [P], leaves a store that
    satisfies [Q], whether it returns or raises. *)
Definition hoare {A} (P : Store -> Prop) (m : DB A) (Q : Store -> Prop) : Prop :=
  forall p, P (store p) -> Q (store (snd (m p))).

Lemma hoare_weaken {A} (P Q Q' : Store -> Prop) (m : DB A) :
  hoare P m Q -> (forall st, Q st -> Q' st) -> hoare P m Q'.
Proof. intros H HQ p Hp. apply HQ, H, Hp. Qed.

Lemma hoare_bind {A B} (P Q R : Store -> Prop) (m : DB A) (k : A -> DB B) :
  hoare P m Q -> (forall a, hoare Q (k a) R) -> (forall st, Q st -> R st) ->
  hoare P (bind m k) R.
Proof.
  intros Hm Hk HQR p Hp. unfold bind.
  specialize (Hm p Hp). destruct (m p) as [[a|e] p1]; cbn [snd] in *.
  - now apply Hk.
  - now apply HQR.
Qed.

Lemma hoare_seq {A B} (P : Store -> Prop) (m : DB A) (k : A -> DB B) :
  hoare P m P -> (forall a, hoare P (k a) P) -> hoare P (bind m k) P.
Proof. intros Hm Hk. apply (hoare_bind P P P); auto. Qed.

Lemma hoare_try {A} (P Q : Store -> Prop) (body : DB A) (handler : exn -> DB A) :
  hoare P body Q -> (forall e, hoare Q (handler e) Q) ->
  hoare P (try_except body handler) Q.
Proof.
  intros Hb Hh p Hp. unfold try_except.
  specialize (Hb p Hp). destruct (body p) as [[a|e] p1]; cbn [snd] in *.
  - exact Hb.
  - now apply Hh.
Qed.

Lemma hoare_pure {A} (P : Store -> Prop) (m : DB A) :
  (forall p, store (snd (m p)) = store p) -> hoare P m P.
Proof. intros H p Hp. now rewrite H. Qed.

Lemma hoare_ret {A} P (a : A) : hoare P (ret a) P.
Proof. now apply hoare_pure. Qed.

Lemma hoare_lift {A} P (r : result A) : hoare P (lift r) P.
Proof. now apply hoare_pure. Qed.

Lemma hoare_logger P l m : hoare P (logger l m) P.
Proof. now apply hoare_pure. Qed.

Lemma select_id_pure {R} (rows : list R) name id param p :
  store (snd (select_id rows name id param p)) = store p.
Proof.
  unfold select_id.
  destruct (text_param param) as [[s|]|]; [destruct (find _ rows)| |];
    reflexivity.
Qed.

Lemma get_season_id_pure name p :
  store (snd (get_season_id name p)) = store p.
Proof. unfold get_season_id, bind, read_store. apply select_id_pure. Qed.

Lemma get_team_id_pure name p :
  store (snd (get_team_id name p)) = store p.
Proof. unfold get_team_id, bind, read_store. apply select_id_pure. Qed.

Lemma get_competition_id_pure name p :
  store (snd (get_competition_id name p)) = store p.
Proof. unfold get_competition_id, bind, read_store. apply select_id_pure. Qed.

Lemma select_match_by_api_id_pure sch column param p :
  store (snd (select_match_by_api_id sch column param p)) = store p.
Proof.
  unfold select_match_by_api_id, bind, read_store. cbn [fst snd].
  destruct (text_param param) as [[s|]|]; reflexivity.
Qed.

(** A property that does not read the season table, the team table or
    the statistics table is kept by the statements on these tables. *)
Variable P : Store -> Prop.

Lemma hoare_refused {A} drawn advanced p :
  P (store p) -> P advanced ->
  P (store (snd (@refused A drawn advanced p))).
Proof.
  intros Hp Ha. rewrite refused_outcome. cbn [snd store]. now destruct drawn.
Qed.

Lemma hoare_add_season sch name start stop :
  (forall st rows, P st -> P (with_seasons st rows)) ->
  hoare P (add_season sch name start stop) P.
Proof.
  intros H p Hp. unfold add_season, bind, read_store. cbn [fst snd].
  destruct (find _ (seasons (store p))).
  - destruct (season_ok sch _); [now apply H|apply hoare_refused; auto].
  - destruct (season_ok sch _ && _); [now apply H|apply hoare_refused; auto].
Qed.

Lemma hoare_add_team sch name kwargs :
  (forall st rows, P st -> P (with_teams st rows)) ->
  hoare P (add_team sch name kwargs) P.
Proof.
  intros H p Hp. unfold add_team, bind, read_store. cbn [fst snd].
  destruct (find _ (teams (store p))).
  - destruct (negb _).
    + destruct (team_ok sch _); [now apply H|apply hoare_refused; auto].
    + cbn [write_store]. rewrite get_team_id_pure. now apply H.
  - destruct (team_ok sch _ && _); [now apply H|apply hoare_refused; auto].
Qed.

Lemma hoare_add_match_statistics sch id stats :
  (forall st rows, P st -> P (with_statistics st rows)) ->
  hoare P (add_match_statistics sch id stats) P.
Proof.
  intros H p Hp. unfold add_match_statistics, bind, read_store. cbn [fst snd].
  destruct (stats_ok sch _ _); [apply H|]; exact Hp.
Qed.

Lemma hoare_resolve_season sch name :
  (forall st rows, P st -> P (with_seasons st rows)) ->
  hoare P (CurrentSeasonFetcher.resolve_season sch name) P.
Proof.
  intros H. unfold CurrentSeasonFetcher.resolve_season.
  apply hoare_seq; [apply hoare_pure, get_season_id_pure|intros sid].
  destruct (negb (truthy sid)); [|apply hoare_ret].
  repeat (apply hoare_seq; [apply hoare_lift|intros ?]).
  apply hoare_seq; [now apply hoare_add_season|intros; apply hoare_ret].
Qed.

Lemma hoare_resolve_team sch team :
  (forall st rows, P st -> P (with_teams st rows)) ->
  hoare P (CurrentSeasonFetcher.resolve_team sch team) P.
Proof.
  intros H. unfold CurrentSeasonFetcher.resolve_team.
  apply hoare_seq; [apply hoare_pure, get_team_id_pure|intros id].
  destruct (negb (truthy id)); [now apply hoare_add_team|apply hoare_ret].
Qed.

End StoreLogic.

(** ** What one call of [_store_match] writes *)

Section StoreMatchEffect.

Import DatabaseManager.
Import CurrentSeasonFetcher.

(** The match table and its sequence are what they were. *)
Definition match_part_is (rows : list MatchRow) (next : Z) (st : Store) : Prop :=
  matches st = rows /\ next_match_id st = next.

(** The row [_store_match] writes for a record. *)
Definition row_written (match_data : dict) (source : string) (row : MatchRow)
  : Prop :=
  match_date row = dict_get match_data "match_date" /\
  kick_off_time row = dict_get match_data "kick_off_time" /\
  home_score row = dict_get match_data "home_score" /\
  away_score row = dict_get match_data "away_score" /\
  venue row = dict_get match_data "venue" /\
  match_status row = dict_get_default match_data "status" (VStr "scheduled") /\
  api_id_thesportsdb row =
    (if (source =? "thesportsdb")%string then dict_get match_data "api_id"
     else VNone) /\
  api_id_football_data row =
    (if (source =? "thesportsdb")%string then VNone
     else if (source =? "football_data")%string then dict_get match_data "api_id"
     else VNone).

(** Nothing written to the match table, the INSERT being refused, if
    it is reached, with or without its id drawn; or one row appended. *)
Definition one_row_more (match_data : dict) (source : string)
    (rows : list MatchRow) (next : Z) (st : Store) : Prop :=
  (matches st = rows /\
   (next_match_id st = next \/ next_match_id st = next + 1)) \/
  exists row,
    match_part_is (rows ++ [row]) (next + 1) st /\
    match_id row = next /\ row_written match_data source row.

Lemma row_of_db_match_data match_data source id upd sid cid hid aid :
  row_written match_data source
    (row_of_match_data id upd (db_match_data match_data source sid cid hid aid)).
Proof.
  unfold row_written, db_match_data.
  destruct (source =? "thesportsdb")%string.
  - repeat split; reflexivity.
  - destruct (source =? "football_data")%string; repeat split; reflexivity.
Qed.

Lemma hoare_add_match sch match_data source sid cid hid aid rows next :
  Forall (fun r => match_id r < next) rows ->
  hoare (match_part_is rows next)
        (add_match sch (db_match_data match_data source sid cid hid aid))
        (one_row_more match_data source rows next).
Proof.
  intros Hahead p [Hm Hn].
  assert (A : sequence_ahead (store p)).
  { unfold sequence_ahead. now rewrite Hm, Hn. }
  unfold add_match, bind, read_store. cbn [fst snd].
  rewrite (find_none_ahead _ A).
  destruct (match_ok sch _ _).
  - right. eexists. split; [|split].
    + split; cbn; [now rewrite Hm|now rewrite Hn].
    + cbn. exact Hn.
    + apply row_of_db_match_data.
  - left. rewrite refused_outcome. cbn [snd store].
    destruct (match_drawn sch _ _); cbn; (split; [exact Hm|]); lia.
Qed.

Lemma store_match_hoare sch current_season match_data source rows next :
  Forall (fun r => match_id r < next) rows ->
  hoare (match_part_is rows next)
        (_store_match sch current_season match_data source)
        (one_row_more match_data source rows next).
Proof.
  intros Hahead.
  assert (W : forall st, match_part_is rows next st ->
                         one_row_more match_data source rows next st)
    by (intros st [Hm Hn]; left; split; [exact Hm|now left]).
  assert (I1 : forall st x, match_part_is rows next st ->
                            match_part_is rows next (with_seasons st x))
    by (intros st x H; exact H).
  assert (I2 : forall st x, match_part_is rows next st ->
                            match_part_is rows next (with_teams st x))
    by (intros st x H; exact H).
  unfold _store_match.
  apply hoare_try; [|intros; apply hoare_logger].
  apply (hoare_bind _ (match_part_is rows next));
    [now apply hoare_resolve_season| |exact W].
  intros sid.
  apply (hoare_bind _ (match_part_is rows next));
    [apply hoare_pure, get_competition_id_pure| |exact W].
  intros cid.
  destruct (negb (truthy cid));
    [eapply hoare_weaken; [apply hoare_logger|exact W]|].
  destruct (negb _ || negb _);
    [eapply hoare_weaken; [apply hoare_logger|exact W]|].
  apply (hoare_bind _ (match_part_is rows next));
    [now apply hoare_resolve_team| |exact W].
  intros hid.
  apply (hoare_bind _ (match_part_is rows next));
    [now apply hoare_resolve_team| |exact W].
  intros aid.
  apply (hoare_bind _ (one_row_more match_data source rows next));
    [now apply hoare_add_match| |auto].
  intros id.
  destruct (truthy _); [|apply hoare_ret].
  apply hoare_add_match_statistics.
  intros st x H. exact H.
Qed.

Lemma store_match_returns sch current_season match_data source p :
  fst (_store_match sch current_season match_data source p) = Ok tt.
Proof.
  unfold _store_match, try_except.
  destruct (bind _ _ p) as [[[]|e] p1]; reflexivity.
Qed.

(** The effect of one call, shared by the statements below. *)
Lemma store_match_effect sch current_season match_data source p :
  sequence_ahead (store p) ->
  fst (_store_match sch current_season match_data source p) = Ok tt /\
  one_row_more match_data source (matches (store p)) (next_match_id (store p))
    (store (snd (_store_match sch current_season match_data source p))) /\
  sequence_ahead
    (store (snd (_store_match sch current_season match_data source p))).
Proof.
  intros A.
  split; [apply store_match_returns|].
  pose proof (store_match_hoare sch current_season match_data source
                (matches (store p)) (next_match_id (store p)) A p
                (conj eq_refl eq_refl)) as H.
  split; [exact H|].
  unfold sequence_ahead in *.
  destruct H as [[Hm Hn]|(row & [Hm Hn] & Hid & _)]; rewrite Hm.
  - eapply Forall_impl; [|exact A]. cbn. intros; lia.
  - rewrite Hn. apply Forall_app. split.
    + eapply Forall_impl; [|exact A]. cbn. intros; lia.
    + constructor; [lia|constructor].
Qed.

(** X5. One call of [_store_match], in a store whose match ids are below
    the sequence, never raises and never changes or removes a stored
    match: it leaves the match table as it is, with at most one id of
    the sequence used up by a refused INSERT, or appends one row, which
    gets the next id and carries the date, kick-off time, scores, venue
    and status of the record, with the identifier of the record in the
    column of its source and null in the other. *)
Theorem store_match_appends (sch : Schema) (current_season : string)
    (match_data : dict) (source : string) (p : pstate) :
  sequence_ahead (store p) ->
  let out := _store_match sch current_season match_data source p in
  fst out = Ok tt /\
  one_row_more match_data source (matches (store p)) (next_match_id (store p))
               (store (snd out)) /\
  sequence_ahead (store (snd out)).
Proof.
  intros A. cbv zeta. now apply store_match_effect.
Qed.

Lemma store_match_appends_witness :
  let out := _store_match permissive "2023/24" played_record "thesportsdb" seeded in
  fst out = Ok tt /\
  one_row_more played_record "thesportsdb" (matches (store seeded))
               (next_match_id (store seeded)) (store (snd out)) /\
  sequence_ahead (store (snd out)).
Proof.
  exact (store_match_appends permissive "2023/24" played_record "thesportsdb"
           seeded (Forall_nil _)).
Defined.

End StoreMatchEffect.

(** ** A batch of records *)

Section Batch.

Import DatabaseManager.
Import SeasonSetup.

(** X6. The loop that stores a list of records never raises and goes
    through the whole list; in a store whose match ids are below the
    sequence it only appends to the match table, at most one row for
    each record, and changes or removes no stored match. *)
Theorem store_all_appends (sch : Schema) (current_season : string)
    (records : list dict) (source : string) (p : pstate) :
  sequence_ahead (store p) ->
  let out := store_all sch current_season records source p in
  fst out = Ok tt /\
  sequence_ahead (store (snd out)) /\
  exists new,
    matches (store (snd out)) = (matches (store p) ++ new)%list /\
    (List.length new <= List.length records)%nat.
Proof.
  cbv zeta. revert p.
  induction records as [|match_data rest IH]; intros p A.
  - split; [reflexivity|]. split; [exact A|].
    exists []. split; [now rewrite app_nil_r|cbn; lia].
  - cbn [store_all]. unfold bind.
    destruct (store_match_effect sch current_season match_data source p A)
      as (R & O & A1).
    destruct (CurrentSeasonFetcher._store_match sch current_season match_data
                source p) as [[[]|e] p1]; cbn [fst snd] in *; [|discriminate R].
    destruct (IH p1 A1) as (R2 & A2 & new & Hnew & Hlen).
    split; [exact R2|]. split; [exact A2|].
    destruct O as [[Hm _]|(row & [Hm _] & _)].
    + exists new. rewrite Hnew, Hm. split; [reflexivity|cbn; lia].
    + exists (row :: new). rewrite Hnew, Hm, <- app_assoc.
      split; [reflexivity|cbn; lia].
Qed.

Lemma store_all_appends_witness :
  let out := store_all permissive "2023/24"
               [ played_record; cup_record "2024/25" ] "thesportsdb" seeded in
  fst out = Ok tt /\
  sequence_ahead (store (snd out)) /\
  exists new,
    matches (store (snd out)) = (matches (store seeded) ++ new)%list /\
    (List.length new <= 2)%nat.
Proof.
  exact (store_all_appends permissive "2023/24"
           [ played_record; cup_record "2024/25" ] "thesportsdb" seeded
           (Forall_nil _)).
Defined.

End Batch.

(** ** What the daily updater writes *)

Section DailyUpdate.

Import DatabaseManager.
Import DailyUpdater.

(** The tables the updater must leave alone, and the match table up to
    scores, status and timestamp. *)
Definition frame_is (st0 : Store) (st : Store) : Prop :=
  map unwritten (matches st) = map unwritten (matches st0) /\
  seasons st = seasons st0 /\ teams st = teams st0 /\
  competitions st = competitions st0 /\
  next_match_id st = next_match_id st0.

Lemma hoare_update_match_score st0 sch id home away status :
  hoare (frame_is st0) (update_match_score sch id home away status)
        (frame_is st0).
Proof.
  intros p (Hm & Hs & Ht & Hc & Hn).
  destruct (update_match_score_store sch id home away status p) as [E|E];
    rewrite E; [repeat split; assumption|].
  repeat split; try assumption.
  cbn [matches with_matches]. rewrite <- Hm, map_map. apply map_ext.
  intros x. destruct (match_id x =? id); reflexivity.
Qed.

Lemma update_from_api_hoare st0 sch match_data source :
  hoare (frame_is st0) (_update_match_from_api sch match_data source)
        (frame_is st0).
Proof.
  unfold _update_match_from_api.
  apply hoare_try; [|intros; apply hoare_logger].
  destruct (negb (truthy _)); [apply hoare_ret|].
  apply hoare_seq.
  - destruct (source =? "thesportsdb")%string;
      apply hoare_pure, (select_match_by_api_id_pure sch).
  - intros [|id rest]; [apply hoare_ret|].
    apply hoare_seq.
    + destruct (negb _ && negb _); [|apply hoare_ret].
      apply hoare_seq; [apply hoare_update_match_score|intros; apply hoare_logger].
    + intros _. destruct (truthy _); [|apply hoare_ret].
      apply hoare_add_match_statistics. intros st x H. exact H.
Qed.

(** X7. The daily updater never raises and never creates, removes or
    re-identifies a match: after [_update_match_from_api], for every
    schema, the match table has the same rows up to scores, status and
    timestamp, and the season, team and competition tables are
    untouched. *)
Theorem update_from_api_frame (sch : Schema) (match_data : dict)
    (source : string) (p : pstate) :
  let out := _update_match_from_api sch match_data source p in
  fst out = Ok tt /\ frame_is (store p) (store (snd out)).
Proof.
  cbv zeta. split.
  - unfold _update_match_from_api, try_except.
    destruct (_ p) as [[[]|e] p1]; reflexivity.
  - apply update_from_api_hoare. repeat split; reflexivity.
Qed.

(** The column the updater searches for a source. *)
Definition id_column (source : string) : MatchRow -> value :=
  if (source =? "thesportsdb")%string then api_id_thesportsdb
  else api_id_football_data.

(** X8. A record whose identifier is stored in no row, in the column of
    its source, is ignored by the daily updater: the store is left as it
    is, whatever the scores of the record. *)
Theorem update_from_api_unknown (sch : Schema) (match_data : dict)
    (source : string) (p : pstate) :
  (forall r, In r (matches (store p)) ->
             value_eqb (id_column source r) (dict_get match_data "api_id") = false) ->
  store (snd (_update_match_from_api sch match_data source p)) = store p.
Proof.
  intros H. unfold _update_match_from_api, try_except, bind.
  destruct (truthy (dict_get match_data "api_id")) eqn:T; [|reflexivity].
  cbn [negb].
  assert (S : forall column,
             column = id_column source ->
             (select_match_by_api_id sch column (dict_get match_data "api_id") p
              = (Ok [], p)) \/
             (select_match_by_api_id sch column (dict_get match_data "api_id") p
              = db_fail p)).
  { intros column ->.
    unfold select_match_by_api_id, bind, read_store. cbn [fst snd].
    destruct (dict_get match_data "api_id") as [| | |s|[|v l]|] eqn:E;
      cbn [text_param]; try (now right); try discriminate T.
    left.
    replace (filter _ (matches (store p))) with (@nil MatchRow);
      [cbn [map]; unfold rows_from; cbn; reflexivity|].
    symmetry. induction (matches (store p)) as [|r rows IH]; [reflexivity|].
    cbn [filter]. rewrite (H r (or_introl eq_refl)).
    apply IH. intros r' Hr'. apply H. now right. }
  unfold id_column in S.
  destruct (source =? "thesportsdb")%string;
    destruct (S _ eq_refl) as [-> | ->]; reflexivity.
Qed.

(** The store after the pipeline has stored the played match. *)
Definition after_first_store : pstate :=
  snd (CurrentSeasonFetcher._store_match permissive "2023/24" played_record
         "thesportsdb" seeded).

Lemma update_from_api_unknown_witness :
  store (snd (_update_match_from_api permissive (cup_record "2024/25")
                "thesportsdb" after_first_store))
  = store after_first_store.
Proof.
  apply (update_from_api_unknown permissive (cup_record "2024/25")
           "thesportsdb" after_first_store).
  intros r [<-|[]]. reflexivity.
Defined.

Lemma value_eqb_text v s : value_eqb v (VStr s) = true <-> v = VStr s.
Proof.
  destruct v as [| [] | z | s' | l | d]; cbn; try (split; discriminate).
  split.
  - intros H. apply String.eqb_eq in H. now subst.
  - intros [= ->]. apply String.eqb_refl.
Qed.

(** Whichever row comes first, the ids found are those of the rows. *)
Lemma rows_from_first k ids x :
  ids <> [] -> (forall y, In y ids -> y = x) ->
  exists rest, rows_from k ids = x :: rest.
Proof.
  intros Hne Hall. unfold rows_from.
  destruct (skipn (List.length ids - k) ids ++ firstn (List.length ids - k) ids)%list
    as [|y rest] eqn:E.
  - apply app_eq_nil in E as [E1 E2].
    rewrite <- (firstn_skipn (List.length ids - k) ids), E1, E2 in Hne.
    now contradiction Hne.
  - exists rest. f_equal. apply Hall.
    rewrite <- (firstn_skipn (List.length ids - k) ids).
    assert (Hy : In y (y :: rest)) by now left.
    rewrite <- E in Hy. apply in_app_or in Hy. apply in_or_app. tauto.
Qed.

Lemma select_found sch column s p r :
  In r (matches (store p)) -> column r = VStr s ->
  (forall r', In r' (matches (store p)) -> column r' = VStr s ->
              match_id r' = match_id r) ->
  exists rest,
    select_match_by_api_id sch column (VStr s) p = (Ok (match_id r :: rest), p).
Proof.
  intros Hin Hc Hu.
  unfold select_match_by_api_id, bind, read_store. cbn [fst snd text_param ret].
  destruct (rows_from_first
              (first_row sch
                 (map match_id
                    (filter (fun x => value_eqb (column x) (VStr s))
                            (matches (store p)))))
              (map match_id
                 (filter (fun x => value_eqb (column x) (VStr s))
                         (matches (store p))))
              (match_id r)) as [rest E].
  - intros E. apply map_eq_nil in E.
    assert (Hf : In r (filter (fun x => value_eqb (column x) (VStr s))
                              (matches (store p)))).
    { apply filter_In. split; [exact Hin|]. now apply value_eqb_text. }
    rewrite E in Hf. destruct Hf.
  - intros y Hy. apply in_map_iff in Hy as (r0 & <- & H0).
    apply filter_In in H0 as [H0 H0'].
    apply value_eqb_text in H0'. now apply Hu.
  - exists rest. now rewrite E.
Qed.

(** X9. A stored match is found by the identifier of its source and
    gets the scores of the record: when the record carries both scores
    and exactly the rows of one match id carry its identifier, the daily
    updater, under a schema without further constraints, replaces the
    scores and the status of that row by those of the record (the status
    being finished when the record has none) and stamps it. *)
Theorem update_from_api_applies (match_data : dict) (source s : string)
    (p : pstate) (r : MatchRow) :
  dict_get match_data "api_id" = VStr s -> s <> "" ->
  In r (matches (store p)) ->
  id_column source r = VStr s ->
  (forall r', In r' (matches (store p)) -> id_column source r' = VStr s ->
              match_id r' = match_id r) ->
  is_none (dict_get match_data "home_score") = false ->
  is_none (dict_get match_data "away_score") = false ->
  In (score_update (db_now (store p))
        (dict_get match_data "home_score") (dict_get match_data "away_score")
        (dict_get_default match_data "status" (VStr "finished")) r)
     (matches (store (snd (_update_match_from_api permissive match_data source p)))).
Proof.
  intros Hid Hs Hin Hc Hu Hh Ha.
  destruct (select_found permissive (id_column source) s p r Hin Hc Hu)
    as [rest Hsel].
  unfold _update_match_from_api, try_except.
  rewrite Hid. cbn [truthy].
  destruct (String.eqb_spec s "") as [->|_]; [contradiction|]. cbn [negb].
  unfold bind at 1.
  assert (Hsel' :
    (if (source =? "thesportsdb")%string
     then select_match_by_api_id permissive api_id_thesportsdb (VStr s)
     else select_match_by_api_id permissive api_id_football_data (VStr s)) p
    = (Ok (match_id r :: rest), p)).
  { unfold id_column in Hsel. destruct (source =? "thesportsdb")%string; exact Hsel. }
  rewrite Hsel'. rewrite Hh, Ha. cbn [negb andb].
  pose proof (update_match_score_writes (match_id r)
                (dict_get match_data "home_score")
                (dict_get match_data "away_score")
                (dict_get_default match_data "status" (VStr "finished"))
                p r Hin eq_refl) as W.
  unfold bind.
  destruct (update_match_score permissive (match_id r) _ _ _ p)
    as [[[]|e] p1] eqn:U; cbn [snd] in W.
  - cbn [logger fst snd].
    destruct (truthy (dict_get match_data "home_possession")).
    + unfold add_match_statistics, bind, read_store. cbn. exact W.
    + exact W.
  - exact W.
Qed.

Lemma update_from_api_applies_witness :
  In (score_update 1710000000 (VInt 3) (VInt 1) (VStr "finished")
        (row_of_match_data 1 (Some 1710000000)
           (CurrentSeasonFetcher.db_match_data played_record "thesportsdb"
              (VInt 1) (VInt 1) (VInt 1) (VInt 2))))
     (matches (store (snd (_update_match_from_api permissive
                             [ ("api_id", VStr "1032723");
                               ("home_score", VInt 3); ("away_score", VInt 1) ]
                             "thesportsdb" after_first_store)))).
Proof.
  apply (update_from_api_applies
           [ ("api_id", VStr "1032723");
             ("home_score", VInt 3); ("away_score", VInt 1) ]
           "thesportsdb" "1032723" after_first_store
           (row_of_match_data 1 (Some 1710000000)
              (CurrentSeasonFetcher.db_match_data played_record "thesportsdb"
                 (VInt 1) (VInt 1) (VInt 1) (VInt 2)))).
  - reflexivity.
  - discriminate.
  - left. reflexivity.
  - reflexivity.
  - intros r' [<-|[]] _. reflexivity.
  - reflexivity.
  - reflexivity.
Defined.

End DailyUpdate.

(** ** Match statistics *)

Section Statistics.

Import DatabaseManager.

Definition stats_of (id : Z) (x : StatsRow) : bool := s_match_id x =? id.

Lemma map_id_replace id r rows :
  s_match_id r = id ->
  map s_match_id (map (replace_where (stats_of id) r) rows) = map s_match_id rows.
Proof.
  intros Hr. rewrite map_map. apply map_ext. intros x.
  unfold replace_where, stats_of.
  destruct (Z.eqb_spec (s_match_id x) id); congruence.
Qed.

Lemma find_none_not_in id rows :
  find (stats_of id) rows = None -> ~ In id (map s_match_id rows).
Proof.
  intros F Hin. apply in_map_iff in Hin as (x & Hx & Hin).
  apply (find_none _ _ F) in Hin. unfold stats_of in Hin.
  rewrite Hx, Z.eqb_refl in Hin. discriminate.
Qed.

Lemma NoDup_snoc (l : list Z) (a : Z) :
  NoDup l -> ~ In a l -> NoDup (l ++ [a]).
Proof.
  induction l as [|x l IH]; intros N H; cbn.
  - constructor; [intros []|constructor].
  - inversion N as [|? ? Hx Hl]; subst. constructor.
    + intros Hin. apply in_app_or in Hin as [Hin|[<-|[]]]; [contradiction|].
      apply H. now left.
    + apply IH; [exact Hl|]. intros Hin. apply H. now right.
Qed.

(** X10. [add_match_statistics] keeps one statistics row for a match:
    in a table with at most one row for each match it leaves at most one
    row for each match, and an accepted call leaves for the match a row
    with the possession and shots of this call.  The twelve other
    statistics are written when the row is created; a later call leaves
    them as stored. *)
Theorem add_match_statistics_upsert (sch : Schema) (id : Z) (stats : dict)
    (p : pstate) :
  NoDup (map s_match_id (match_statistics (store p))) ->
  let out := add_match_statistics sch id stats p in
  NoDup (map s_match_id (match_statistics (store (snd out)))) /\
  (fst out = Ok tt ->
   exists row,
     find (stats_of id) (match_statistics (store (snd out))) = Some row /\
     ipswich_possession row = dict_get stats "ipswich_possession" /\
     opposition_possession row = dict_get stats "opposition_possession" /\
     ipswich_shots row = dict_get stats "ipswich_shots" /\
     opposition_shots row = dict_get stats "opposition_shots" /\
     other_statistics row =
       match find (stats_of id) (match_statistics (store p)) with
       | Some old => other_statistics old
       | None => map (dict_get stats) other_statistics_keys
       end).
Proof.
  intros N. cbv zeta.
  unfold add_match_statistics, bind, read_store. cbn [fst snd].
  fold (stats_of id).
  destruct (find (stats_of id) (match_statistics (store p))) as [old|] eqn:F.
  - destruct (stats_ok sch _ _); cbn; [|split; [exact N|discriminate]].
    split.
    + change (fun x : StatsRow => if s_match_id x =? id then ?r else x)
        with (replace_where (stats_of id) r).
      now rewrite map_id_replace.
    + intros _. eexists. split.
      * change (fun x : StatsRow => if s_match_id x =? id then ?r else x)
          with (replace_where (stats_of id) r).
        apply (find_map_replace _ _ _ old); [|exact F].
        unfold stats_of. cbn. apply Z.eqb_refl.
      * repeat split; reflexivity.
  - destruct (stats_ok sch _ _); cbn; [|split; [exact N|discriminate]].
    split.
    + rewrite map_app. cbn.
      apply NoDup_snoc; [exact N|]. now apply find_none_not_in.
    + intros _. eexists. split.
      * apply find_appended; [|exact F].
        unfold stats_of. cbn. apply Z.eqb_refl.
      * repeat split; reflexivity.
Qed.

End Statistics.

Section StatisticsExamples.

Import DatabaseManager.

(** Statistics of one match, written twice. *)
Definition first_statistics : dict :=
  [ ("ipswich_possession", VInt 48); ("opposition_possession", VInt 52);
    ("ipswich_shots", VInt 9); ("opposition_shots", VInt 14);
    ("ipswich_corners", VInt 4) ].

Definition later_statistics : dict :=
  [ ("ipswich_possession", VInt 55); ("opposition_possession", VInt 45);
    ("ipswich_shots", VInt 12); ("opposition_shots", VInt 14) ].

Definition with_first_statistics : pstate :=
  snd (add_match_statistics permissive 1 first_statistics seeded).

Lemma add_match_statistics_upsert_witness :
  let out := add_match_statistics permissive 1 later_statistics
               with_first_statistics in
  NoDup (map s_match_id (match_statistics (store (snd out)))) /\
  (fst out = Ok tt ->
   exists row,
     find (stats_of 1) (match_statistics (store (snd out))) = Some row /\
     ipswich_possession row = VInt 55 /\
     opposition_possession row = VInt 45 /\
     ipswich_shots row = VInt 12 /\
     opposition_shots row = VInt 14 /\
     other_statistics row =
       [ VNone; VNone; VInt 4; VNone; VNone; VNone;
         VNone; VNone; VNone; VNone; VNone; VNone ]).
Proof.
  apply (add_match_statistics_upsert permissive 1 later_statistics
           with_first_statistics).
  constructor; [intros []|constructor].
Defined.

End StatisticsExamples.

(** ** The statistics of the two scripts *)

Section StatisticsOrientation.

(** X11. The two scripts orient the statistics of a record in the same
    way: [_extract_statistics] of the daily updater builds the
    dictionary that [_store_match] builds, the statistics of Ipswich
    being those of the home side exactly when the home team of the
    record is the text [Ipswich Town], and those of the away side for
    every other record, a record without home team included. *)
Theorem statistics_agree (match_data : dict) :
  let is_home :=
    value_eqb (dict_get match_data "home_team") (VStr "Ipswich Town") in
  DailyUpdater._extract_statistics match_data
  = CurrentSeasonFetcher.statistics_of match_data is_home /\
  (dict_get match_data "home_team" = VStr "Ipswich Town" ->
   dict_get (DailyUpdater._extract_statistics match_data) "ipswich_shots"
   = dict_get match_data "home_shots") /\
  (dict_get match_data "home_team" <> VStr "Ipswich Town" ->
   dict_get (DailyUpdater._extract_statistics match_data) "ipswich_shots"
   = dict_get match_data "away_shots" /\
   dict_get (DailyUpdater._extract_statistics match_data) "opposition_possession"
   = dict_get match_data "home_possession").
Proof.
  cbv zeta. unfold DailyUpdater._extract_statistics,
    CurrentSeasonFetcher.statistics_of.
  split; [|split].
  - destruct (value_eqb _ _); reflexivity.
  - intros ->. reflexivity.
  - intros H.
    destruct (value_eqb (dict_get match_data "home_team") (VStr "Ipswich Town"))
      eqn:E; [|split; reflexivity].
    apply value_eqb_text in E. contradiction.
Qed.

End StatisticsOrientation.

(** ** Detailed events and dates without a time *)

Section ParsingEdges.

(** The keys of a record of TheSportsDB parsed without details. *)
Definition basic_keys : list string :=
  [ "api_id"; "match_date"; "kick_off_time"; "home_team"; "away_team";
    "home_score"; "away_score"; "competition"; "season"; "venue"; "round";
    "status" ].

(** X12. Parsing an event with details only adds to the record: when
    [_parse_event] returns a record for an event with details, it
    returns one for it without, and the twelve keys of the plain record
    have the same values in both; the referee of the event and its
    attendance, read as a number, come with them. *)
Theorem parse_event_detailed_extends (today : date) (event : value)
    (detailed : dict) :
  TheSportsDB._parse_event today event true = Some detailed ->
  exists plain,
    TheSportsDB._parse_event today event false = Some plain /\
    (forall k, In k basic_keys -> dict_get detailed k = dict_get plain k) /\
    (forall d, event = VDict d ->
       dict_get detailed "referee" = dict_get d "strReferee" /\
       dict_get detailed "attendance"
       = TheSportsDB._parse_int (dict_get d "intSpectators")).
Proof.
  unfold TheSportsDB._parse_event.
  destruct event as [| | | | |d]; try discriminate.
  cbn [get get_default rbind].
  destruct (TheSportsDB._determine_status today (VDict d)) as [s|e];
    cbn [rbind catch_all]; [|discriminate].
  intros [= <-]. eexists. split; [reflexivity|]. split.
  - intros k Hk. unfold basic_keys in Hk.
    repeat (destruct Hk as [<-|Hk]; [reflexivity|]). destruct Hk.
  - intros d' [= <-]. split; reflexivity.
Qed.

Lemma parse_event_detailed_extends_witness :
  exists plain,
    TheSportsDB._parse_event (mkDate 2024 3 10)
      (VDict [ ("idEvent", VStr "1032723"); ("dateEvent", VStr "2024-03-09");
               ("strReferee", VStr "A. Madley"); ("intSpectators", VStr "29012") ])
      false = Some plain /\
    dict_get plain "api_id" = VStr "1032723" /\
    dict_get plain "referee" = VNone.
Proof.
  destruct (parse_event_detailed_extends (mkDate 2024 3 10)
              (VDict [ ("idEvent", VStr "1032723"); ("dateEvent", VStr "2024-03-09");
                       ("strReferee", VStr "A. Madley");
                       ("intSpectators", VStr "29012") ])
              _ eq_refl) as (plain & H & K & _).
  exists plain. split; [exact H|]. split.
  - rewrite <- (K "api_id"); [reflexivity|now left].
  - injection H as <-. reflexivity.
Defined.

Lemma split_without c s : str_mem c s = false -> split_on c s = [s].
Proof.
  induction s as [|a s IH]; [reflexivity|].
  cbn [str_mem split_on]. destruct (Ascii.eqb a c); [discriminate|].
  cbn [orb]. intros H. now rewrite (IH H).
Qed.

(** X13. A match of Football-Data.org whose [utcDate] is a text without
    the letter T, a date without a time for instance, is dropped by
    [_parse_match]: the kick-off time is taken from the second piece of
    the text split at T, which does not exist. *)
Theorem parse_match_needs_time (d : dict) (s : string) (detailed : bool) :
  dict_lookup d "utcDate" = Some (VStr s) -> s <> "" ->
  str_mem "T" s = false ->
  FootballData._parse_match (VDict d) detailed = None.
Proof.
  intros Hd Hs HT.
  unfold FootballData._parse_match.
  cbn [get get_default rbind].
  unfold FootballData.utc_date_part, FootballData.utc_time_part.
  cbn [get get_default rbind]. unfold dict_get_default. rewrite Hd.
  assert (Tr : truthy (VStr s) = true).
  { cbn. destruct (String.eqb_spec s ""); [contradiction|reflexivity]. }
  rewrite Tr. cbn [split_method rbind].
  rewrite (split_without _ _ HT). reflexivity.
Qed.

Lemma parse_match_needs_time_witness :
  FootballData._parse_match
    (VDict [ ("id", VInt 327105); ("utcDate", VStr "2024-03-09");
             ("homeTeam", VDict [ ("id", VInt 349); ("name", VStr "Ipswich Town FC") ]);
             ("awayTeam", VDict [ ("id", VInt 715); ("name", VStr "Cardiff City FC") ]);
             ("competition", VDict [ ("name", VStr "Championship") ]);
             ("status", VStr "FINISHED") ]) false = None.
Proof.
  apply (parse_match_needs_time _ "2024-03-09" false).
  - reflexivity.
  - discriminate.
  - reflexivity.
Defined.

End ParsingEdges.

(** ** The current season *)

Section CurrentSeason.

Import DatabaseManager.
Import SeasonSetup.

(** The year in which the season of a date starts. *)
Definition start_year (now : date) : Z :=
  if 8 <=? month now then year now else year now - 1.

Definition season_text (sy : Z) : string :=
  string_of_Z sy ++ "/" ++ str_drop 2 (string_of_Z (sy + 1)).

(** A match of Football-Data.org whose season has the dates that the
    scripts give to a season they create. *)
Definition season_dates (sy : Z) : value :=
  VDict [ ("season",
           VDict [ ("startDate", VStr (string_of_Z sy ++ "-08-01"));
                   ("endDate", VStr (string_of_Z (sy + 1) ++ "-05-31")) ]) ].

Lemma current_season_text now :
  _get_current_season now = season_text (start_year now).
Proof.
  unfold _get_current_season, start_year, season_text.
  destruct (8 <=? month now); [reflexivity|].
  now replace (year now - 1 + 1) with (year now) by lia.
Qed.

(** The start years 1000 to 9998, checked one by one. *)
Definition four_digit_years : list Z :=
  map (fun n => 1000 + Z.of_nat n) (seq 0 (Z.to_nat 8999)).

Definition label_checks (sy : Z) : bool :=
  match nth_piece (split_on "/" (season_text sy)) 0 with
  | Ok first =>
      match int_of_str first with
      | Ok y => y =? sy
      | Raise _ => false
      end
  | Raise _ => false
  end
  && (decimal_digits sy <=? max_str_digits)
  && (decimal_digits (sy + 1) <=? max_str_digits)
  && match FootballData._extract_season (season_dates sy) with
     | Ok (VStr label) => (label =? season_text sy)%string
     | _ => false
     end.

Lemma label_checks_all : forallb label_checks four_digit_years = true.
Proof. vm_compute. reflexivity. Qed.

Lemma label_checks_year sy : 1000 <= sy <= 9998 -> label_checks sy = true.
Proof.
  intros H. pose proof label_checks_all as A.
  rewrite forallb_forall in A. apply A.
  unfold four_digit_years. apply in_map_iff.
  exists (Z.to_nat (sy - 1000)). split; [lia|].
  apply in_seq. lia.
Qed.

Lemma str_of_int_short z :
  decimal_digits z <= max_str_digits -> str_of_int z = Ok (string_of_Z z).
Proof.
  intros H. unfold str_of_int.
  destruct (Z.ltb_spec max_str_digits (decimal_digits z)); [lia|reflexivity].
Qed.

Lemma label_parts sy :
  1000 <= sy <= 9998 ->
  (exists first,
     nth_piece (split_on "/" (season_text sy)) 0 = Ok first /\
     int_of_str first = Ok sy /\
     str_of_int sy = Ok (string_of_Z sy) /\
     str_of_int (sy + 1) = Ok (string_of_Z (sy + 1))) /\
  FootballData._extract_season (season_dates sy) = Ok (VStr (season_text sy)).
Proof.
  intros H. apply label_checks_year in H. unfold label_checks in H.
  apply andb_true_iff in H as [H1 H2].
  apply andb_true_iff in H1 as [H1 D2].
  apply andb_true_iff in H1 as [H1 D1].
  apply Z.leb_le in D1, D2.
  split.
  - destruct (nth_piece _ 0) as [first|]; [|discriminate H1].
    exists first. split; [reflexivity|].
    destruct (int_of_str first) as [y|]; [|discriminate H1].
    apply Z.eqb_eq in H1. subst y.
    split; [reflexivity|]. split; now apply str_of_int_short.
  - destruct (FootballData._extract_season (season_dates sy))
      as [[| | |label| |]|]; try discriminate H2.
    apply String.eqb_eq in H2. now subst.
Qed.

(** X14. The two ways in which a season gets its name agree: for every
    date whose season starts in a year from 1000 to 9998, the label of
    [_get_current_season], cut from the year and the month, is the label
    that [_extract_season] cuts from the start and end dates which the
    scripts store for that season, the first of August and the
    thirty-first of May. *)
Theorem season_labels_agree (now : date) :
  1000 <= start_year now <= 9998 ->
  FootballData._extract_season (season_dates (start_year now))
  = Ok (VStr (_get_current_season now)).
Proof.
  intros H. rewrite current_season_text. now apply label_parts.
Qed.

Lemma season_labels_agree_witness :
  FootballData._extract_season (season_dates 2023) = Ok (VStr "2023/24") /\
  FootballData._extract_season (season_dates 1999) = Ok (VStr "1999/00").
Proof.
  split.
  - apply (season_labels_agree (mkDate 2024 3 10)). cbn. lia.
  - apply (season_labels_agree (mkDate 1999 8 1)). cbn. lia.
Defined.

(** The season row that [_ensure_season_exists] creates. *)
Definition created_season (id sy : Z) : SeasonRow :=
  mkSeason id (season_text sy)
           (string_of_Z sy ++ "-08-01") (string_of_Z (sy + 1) ++ "-05-31").

Lemma ensure_when_present sch current_season p r :
  find (named current_season) (seasons (store p)) = Some r ->
  season_id r <> 0 ->
  _ensure_season_exists sch current_season p = (Ok (VInt (season_id r)), p).
Proof.
  intros F Hr.
  unfold _ensure_season_exists, get_season_id, select_id, bind, read_store.
  cbn [fst snd text_param]. unfold named in F. rewrite F. cbn.
  destruct (Z.eqb_spec (season_id r) 0); [contradiction|reflexivity].
Qed.

(** X15. [_ensure_season_exists] for the season of a date (start year
    1000 to 9998), in a store whose season ids and season sequence are
    not zero: the label is always read back as its start year, so the
    only failure is a refusal by the database, which leaves the rows of
    every table as they are.  Otherwise the season is returned with a
    non-zero id, having been found, or created with the first of August
    and the thirty-first of May as its dates; and a second call finds it
    and changes nothing. *)
Theorem ensure_season_exists_ensures (sch : Schema) (now : date) (p : pstate) :
  1000 <= start_year now <= 9998 ->
  season_ids_nonzero (store p) ->
  next_season_id (store p) <> 0 ->
  let current_season := _get_current_season now in
  let out := _ensure_season_exists sch current_season p in
  (fst out = Raise DbError /\ same_rows (store p) (store (snd out))) \/
  (exists id,
     id <> 0 /\ fst out = Ok (VInt id) /\
     (seasons (store (snd out)) = seasons (store p) \/
      seasons (store (snd out))
      = (seasons (store p) ++ [ created_season id (start_year now) ])%list) /\
     _ensure_season_exists sch current_season (snd out)
     = (Ok (VInt id), snd out)).
Proof.
  intros Hy Hnz Hnext. cbv zeta. rewrite current_season_text.
  set (sy := start_year now) in *.
  destruct (find (named (season_text sy)) (seasons (store p))) as [r|] eqn:F.
  - assert (Hr : season_id r <> 0).
    { apply find_some in F as [Hin _].
      unfold season_ids_nonzero in Hnz. rewrite Forall_forall in Hnz.
      now apply Hnz. }
    right. exists (season_id r).
    rewrite (ensure_when_present sch _ p r F Hr). cbn [fst snd].
    split; [exact Hr|]. split; [reflexivity|]. split; [now left|].
    now apply ensure_when_present.
  - destruct (label_parts sy Hy) as [(first & Hp & Hi & Hs1 & Hs2) _].
    destruct (add_season_cases sch (season_text sy)
                (string_of_Z sy ++ "-08-01") (string_of_Z (sy + 1) ++ "-05-31") p)
      as [[E S]|[(old & F' & _)|(_ & Hok & E & S)]].
    + left.
      unfold _ensure_season_exists, get_season_id, select_id, bind, read_store.
      cbn [fst snd text_param]. unfold named in F. rewrite F.
      cbn [ret truthy negb lift]. rewrite Hp, Hi, Hs1, Hs2.
      destruct (add_season sch _ _ _ p) as [[id|e] p1]; cbn [fst snd] in *;
        [discriminate E|].
      injection E as ->. split; [reflexivity|exact S].
    + rewrite F in F'. discriminate F'.
    + right. exists (next_season_id (store p)).
      split; [exact Hnext|].
      assert (O : _ensure_season_exists sch (season_text sy) p
                  = (Ok (VInt (next_season_id (store p))),
                     mkP (store (snd (add_season sch (season_text sy)
                                        (string_of_Z sy ++ "-08-01")
                                        (string_of_Z (sy + 1) ++ "-05-31") p)))
                         (log (snd (add_season sch (season_text sy)
                                      (string_of_Z sy ++ "-08-01")
                                      (string_of_Z (sy + 1) ++ "-05-31") p))
                          ++ [ (INFO, Msg ("Created season: " ++ season_text sy)) ]))).
      { unfold _ensure_season_exists, get_season_id, select_id, bind, read_store.
        cbn [fst snd text_param]. unfold named in F. rewrite F.
        cbn [ret truthy negb lift]. rewrite Hp, Hi, Hs1, Hs2.
        destruct (add_season sch _ _ _ p) as [[id|e] p1]; cbn [fst snd] in *;
          [|discriminate E].
        injection E as ->. reflexivity. }
      rewrite O. cbn [fst snd store].
      split; [reflexivity|]. split.
      * right. rewrite S. reflexivity.
      * apply (ensure_when_present sch _ _
                 (created_season (next_season_id (store p)) sy)).
        -- cbn [store]. rewrite S. cbn [seasons with_seasons].
           apply find_appended; [apply named_self|exact F].
        -- exact Hnext.
Qed.

Lemma ensure_season_exists_ensures_witness :
  let out := _ensure_season_exists permissive "2024/25" seeded in
  (fst out = Raise DbError /\ same_rows (store seeded) (store (snd out))) \/
  (exists id,
     id <> 0 /\ fst out = Ok (VInt id) /\
     (seasons (store (snd out)) = seasons (store seeded) \/
      seasons (store (snd out))
      = (seasons (store seeded) ++ [ created_season id 2024 ])%list) /\
     _ensure_season_exists permissive "2024/25" (snd out)
     = (Ok (VInt id), snd out)).
Proof.
  apply (ensure_season_exists_ensures permissive (mkDate 2024 11 4) seeded).
  - cbn. lia.
  - repeat constructor; discriminate.
  - discriminate.
Defined.

End CurrentSeason.

(** ** Adding a team twice *)

Section TeamUpsert.

Import DatabaseManager.

Definition team_named (name : string) (x : TeamRow) : bool :=
  (team_name x =? name)%string.

(** The row of a new team, and the row an existing team becomes. *)
Definition new_team (name : string) (kwargs : dict) (id : Z) : TeamRow :=
  mkTeam id name
         (dict_get kwargs "short_name") (dict_get kwargs "stadium")
         (dict_get kwargs "city")
         (dict_get_default kwargs "country" (VStr "England"))
         (dict_get kwargs "founded_year")
         (dict_get kwargs "api_id_thesportsdb")
         (dict_get kwargs "api_id_football_data").

Definition merge_team (name : string) (kwargs : dict) (old : TeamRow) : TeamRow :=
  mkTeam (team_id old) name
         (supplied (dict_get kwargs "short_name") (short_name old))
         (supplied (dict_get kwargs "stadium") (stadium old))
         (supplied (dict_get kwargs "city") (city old))
         (supplied (dict_get_default kwargs "country" (VStr "England"))
                   (country old))
         (supplied (dict_get kwargs "founded_year") (founded_year old))
         (supplied (dict_get kwargs "api_id_thesportsdb")
                   (team_api_id_thesportsdb old))
         (supplied (dict_get kwargs "api_id_football_data")
                   (team_api_id_football_data old)).

Definition any_supplied (kwargs : dict) : bool :=
  negb (is_none (dict_get kwargs "short_name")
        && is_none (dict_get kwargs "stadium")
        && is_none (dict_get kwargs "city")
        && is_none (dict_get_default kwargs "country" (VStr "England"))
        && is_none (dict_get kwargs "founded_year")
        && is_none (dict_get kwargs "api_id_thesportsdb")
        && is_none (dict_get kwargs "api_id_football_data")).

Lemma supplied_twice x y : supplied x (supplied x y) = supplied x y.
Proof. unfold supplied. now destruct (is_none x). Qed.

Lemma supplied_same x : supplied x x = x.
Proof. unfold supplied. now destruct (is_none x). Qed.

Lemma merge_merge name kwargs old :
  merge_team name kwargs (merge_team name kwargs old) = merge_team name kwargs old.
Proof. unfold merge_team. cbn. now rewrite !supplied_twice. Qed.

Lemma merge_new name kwargs id :
  merge_team name kwargs (new_team name kwargs id) = new_team name kwargs id.
Proof. unfold merge_team, new_team. cbn. now rewrite !supplied_same. Qed.

Lemma add_team_unfold sch name kwargs p :
  add_team sch name kwargs p =
  match find (team_named name) (teams (store p)) with
  | Some old =>
      if any_supplied kwargs then
        if team_ok sch (merge_team name kwargs old) then
          (Ok (VInt (team_id old)),
           mkP (with_teams (store p)
                  (map (replace_where (team_named name) (merge_team name kwargs old))
                       (teams (store p))))
               (log p ++ [ (INFO, Msg ("Added/updated team: " ++ name)) ]))
        else refused (team_drawn sch (merge_team name kwargs old))
                     (with_teams (store p) (teams (store p))) p
      else get_team_id (VStr name)
             (mkP (with_teams (store p) (teams (store p))) (log p))
  | None =>
      if team_ok sch (new_team name kwargs (next_team_id (store p)))
         && negb (existsb (fun x => team_id x =? next_team_id (store p))
                          (teams (store p)))
      then
        (Ok (VInt (next_team_id (store p))),
         mkP (with_teams (store p)
                (teams (store p) ++ [ new_team name kwargs (next_team_id (store p)) ]))
             (log p ++ [ (INFO, Msg ("Added/updated team: " ++ name)) ]))
      else refused (team_ok sch (new_team name kwargs (next_team_id (store p)))
                    || team_drawn sch (new_team name kwargs (next_team_id (store p))))
                   (with_teams (store p) (teams (store p))) p
  end.
Proof.
  unfold add_team, bind, read_store. cbn [fst snd].
  change (fun r : TeamRow => (team_name r =? name)%string) with (team_named name).
  destruct (find (team_named name) (teams (store p))) as [old|].
  - change (negb _) with (any_supplied kwargs).
    destruct (any_supplied kwargs); [|reflexivity].
    change (team_ok sch _) with (team_ok sch (merge_team name kwargs old)).
    destruct (team_ok sch (merge_team name kwargs old)); reflexivity.
  - change (team_ok sch _ && _)
      with (team_ok sch (new_team name kwargs (next_team_id (store p)))
            && negb (existsb (fun x => team_id x =? next_team_id (store p))
                             (teams (store p)))).
    destruct (team_ok sch _ && _); reflexivity.
Qed.

Lemma get_team_id_found name p r :
  find (team_named name) (teams (store p)) = Some r ->
  get_team_id (VStr name) p = (Ok (VInt (team_id r)), p).
Proof.
  intros F. unfold get_team_id, select_id, bind, read_store.
  cbn [fst snd text_param]. unfold team_named in F. now rewrite F.
Qed.

Lemma team_named_merge name kwargs old :
  team_named name (merge_team name kwargs old) = true.
Proof. unfold team_named. cbn. apply String.eqb_refl. Qed.

Lemma team_named_new name kwargs id :
  team_named name (new_team name kwargs id) = true.
Proof. unfold team_named. cbn. apply String.eqb_refl. Qed.

(** X16. [add_team] is an upsert on the team name, for every schema,
    store and set of optional fields: after a call that returned an id,
    [get_team_id] finds this id for the name, and a second call with the
    same arguments returns the same id and leaves the team table as the
    first call left it. *)
Theorem add_team_idempotent (sch : Schema) (name : string) (kwargs : dict)
    (p : pstate) (v : value) :
  fst (add_team sch name kwargs p) = Ok v ->
  let p1 := snd (add_team sch name kwargs p) in
  get_team_id (VStr name) p1 = (Ok v, p1) /\
  fst (add_team sch name kwargs p1) = Ok v /\
  teams (store (snd (add_team sch name kwargs p1))) = teams (store p1).
Proof.
  cbv zeta. rewrite (add_team_unfold sch name kwargs p).
  destruct (find (team_named name) (teams (store p))) as [old|] eqn:F.
  - destruct (any_supplied kwargs) eqn:Any.
    + destruct (team_ok sch (merge_team name kwargs old)) eqn:Hok;
        [|rewrite refused_outcome; discriminate].
      cbn [fst snd]. intros [= <-].
      set (p1 := mkP _ _).
      assert (F1 : find (team_named name) (teams (store p1))
                   = Some (merge_team name kwargs old)).
      { apply (find_map_replace _ _ _ old); [apply team_named_merge|exact F]. }
      split; [exact (get_team_id_found name p1 _ F1)|].
      rewrite (add_team_unfold sch name kwargs p1), F1, Any, merge_merge, Hok.
      cbn [fst snd store teams with_teams].
      split; [reflexivity|].
      apply map_replace_twice. apply team_named_merge.
    + set (p1 := mkP (with_teams (store p) (teams (store p))) (log p)).
      assert (F1 : find (team_named name) (teams (store p1)) = Some old)
        by exact F.
      rewrite (get_team_id_found name p1 old F1). cbn [fst snd]. intros [= <-].
      split; [exact (get_team_id_found name p1 old F1)|].
      rewrite (add_team_unfold sch name kwargs p1), F1, Any.
      set (p2 := mkP (with_teams (store p1) (teams (store p1))) (log p1)).
      assert (F2 : find (team_named name) (teams (store p2)) = Some old)
        by exact F.
      rewrite (get_team_id_found name p2 old F2). split; reflexivity.
  - destruct (team_ok sch (new_team name kwargs (next_team_id (store p))))
      eqn:Hok; cbn [andb]; [|rewrite refused_outcome; discriminate].
    destruct (negb _); [|rewrite refused_outcome; discriminate].
    cbn [fst snd]. intros [= <-].
    set (p1 := mkP _ _).
    assert (F1 : find (team_named name) (teams (store p1))
                 = Some (new_team name kwargs (next_team_id (store p)))).
    { apply find_appended; [apply team_named_new|exact F]. }
    split; [exact (get_team_id_found name p1 _ F1)|].
    rewrite (add_team_unfold sch name kwargs p1), F1.
    destruct (any_supplied kwargs).
    + rewrite merge_new, Hok. cbn [fst snd store teams with_teams].
      split; [reflexivity|].
      apply map_replace_appended; [apply team_named_new|exact F].
    + set (p2 := mkP (with_teams (store p1) (teams (store p1))) (log p1)).
      assert (F2 : find (team_named name) (teams (store p2))
                   = Some (new_team name kwargs (next_team_id (store p))))
        by exact F1.
      rewrite (get_team_id_found name p2 _ F2). split; reflexivity.
Qed.

Lemma add_team_idempotent_witness :
  let p1 := snd (add_team permissive "Cardiff City"
                   [ ("stadium", VStr "Cardiff City Stadium") ] seeded) in
  get_team_id (VStr "Cardiff City") p1 = (Ok (VInt 1), p1) /\
  fst (add_team permissive "Cardiff City"
         [ ("stadium", VStr "Cardiff City Stadium") ] p1) = Ok (VInt 1) /\
  teams (store (snd (add_team permissive "Cardiff City"
                       [ ("stadium", VStr "Cardiff City Stadium") ] p1)))
  = teams (store p1).
Proof.
  exact (add_team_idempotent permissive "Cardiff City"
           [ ("stadium", VStr "Cardiff City Stadium") ] seeded (VInt 1) eq_refl).
Defined.

End TeamUpsert.

(** ** Reading back a printed integer *)

From Stdlib Require Import Decimal DecimalPos.

Section IntegerText.

(** The value of a decimal number read from the left. *)
Fixpoint uint_val (acc : Z) (d : uint) : Z :=
  match d with
  | Nil => acc
  | D0 d => uint_val (10 * acc) d
  | D1 d => uint_val (10 * acc + 1) d
  | D2 d => uint_val (10 * acc + 2) d
  | D3 d => uint_val (10 * acc + 3) d
  | D4 d => uint_val (10 * acc + 4) d
  | D5 d => uint_val (10 * acc + 5) d
  | D6 d => uint_val (10 * acc + 6) d
  | D7 d => uint_val (10 * acc + 7) d
  | D8 d => uint_val (10 * acc + 8) d
  | D9 d => uint_val (10 * acc + 9) d
  end.

Lemma int_digits_printed acc d :
  int_digits acc false (NilEmpty.string_of_uint d) = Some (uint_val acc d).
Proof.
  revert acc. induction d; intros acc; cbn [NilEmpty.string_of_uint uint_val];
    try reflexivity;
    cbn [int_digits]; cbv [digit_val N_of_ascii N_of_digits]; cbn;
    rewrite ?Z.add_0_r; apply IHd.
Qed.

Lemma int_unsigned_printed d :
  d <> Nil ->
  int_unsigned (NilEmpty.string_of_uint d) = Some (uint_val 0 d).
Proof.
  intros H. destruct d; [contradiction| ..];
    cbn [NilEmpty.string_of_uint uint_val int_unsigned];
    cbv [digit_val N_of_ascii N_of_digits]; cbn; apply int_digits_printed.
Qed.

Lemma uint_val_revapp d d' :
  uint_val (Z.of_N (Unsigned.of_lu d')) d
  = Z.of_N (Unsigned.of_lu (revapp d d')).
Proof.
  revert d'. induction d; intros d'; cbn [uint_val revapp];
    try reflexivity;
    rewrite <- IHd; f_equal; cbn [Unsigned.of_lu]; lia.
Qed.

Lemma uint_val_to_uint p : uint_val 0 (Pos.to_uint p) = Zpos p.
Proof.
  change 0 with (Z.of_N (Unsigned.of_lu Nil)).
  rewrite uint_val_revapp.
  change (revapp (Pos.to_uint p) Nil) with (rev (Pos.to_uint p)).
  rewrite <- Unsigned.of_uint_alt, Unsigned.of_to. reflexivity.
Qed.

(** Text without white space is left alone by [strip]. *)
Fixpoint no_space (s : string) : bool :=
  match s with
  | EmptyString => true
  | String c s' => negb (is_space c) && no_space s'
  end.

Lemma rstrip_no_space s : no_space s = true -> rstrip s = s.
Proof.
  induction s as [|c s IH]; [reflexivity|].
  cbn [no_space rstrip]. intros H. apply andb_true_iff in H as [Hc Hs].
  rewrite (IH Hs). destruct s; [|reflexivity].
  apply negb_true_iff in Hc. now rewrite Hc.
Qed.

Lemma strip_no_space s : no_space s = true -> strip s = s.
Proof.
  intros H. unfold strip.
  assert (L : lstrip s = s).
  { destruct s as [|c s]; [reflexivity|].
    cbn [no_space] in H. apply andb_true_iff in H as [Hc _].
    apply negb_true_iff in Hc. cbn [lstrip]. now rewrite Hc. }
  rewrite L. now apply rstrip_no_space.
Qed.

Lemma printed_no_space d : no_space (NilEmpty.string_of_uint d) = true.
Proof. induction d; cbn; [reflexivity|assumption..]. Qed.

Lemma printed_digits d :
  count_digits (NilEmpty.string_of_uint d)
  = Z.of_nat (String.length (NilEmpty.string_of_uint d)).
Proof.
  induction d; cbn [NilEmpty.string_of_uint count_digits String.length];
    [reflexivity|..];
    cbv [digit_val N_of_ascii N_of_digits]; cbn [N.leb N.compare Pos.compare
      Pos.compare_cont N.add N.mul Pos.add Pos.mul andb];
    rewrite IHd; lia.
Qed.

(** Text that starts with a digit and holds no white space. *)
Lemma int_of_str_unsigned s z :
  no_space s = true -> int_unsigned s = Some z ->
  count_digits s <= max_str_digits -> int_of_str s = Ok z.
Proof.
  intros N U C. unfold int_of_str. rewrite (strip_no_space _ N).
  destruct s as [|c s']; [discriminate U|].
  destruct (Ascii.eqb_spec c "-") as [->|_]; [discriminate U|].
  destruct (Ascii.eqb_spec c "+") as [->|_]; [discriminate U|].
  rewrite U. destruct (Z.ltb_spec max_str_digits (count_digits (String c s')));
    [lia|reflexivity].
Qed.

Lemma int_of_str_negative s z :
  no_space s = true -> int_unsigned s = Some z ->
  count_digits s <= max_str_digits -> int_of_str (String "-" s) = Ok (- z).
Proof.
  intros N U C. unfold int_of_str.
  assert (N' : no_space (String "-" s) = true) by exact N.
  rewrite (strip_no_space _ N'). cbn [Ascii.eqb Bool.eqb].
  rewrite U. cbn [option_map].
  change (count_digits (String "-" s)) with (count_digits s).
  destruct (Z.ltb_spec max_str_digits (count_digits s)); [lia|reflexivity].
Qed.

Lemma string_of_Z_cases z :
  string_of_Z z =
  match z with
  | Z0 => "0"
  | Zpos p => NilEmpty.string_of_uint (Pos.to_uint p)
  | Zneg p => String "-" (NilEmpty.string_of_uint (Pos.to_uint p))
  end.
Proof.
  destruct z as [|p|p]; [reflexivity| |];
    unfold string_of_Z, Z.to_int, NilZero.string_of_int, NilZero.string_of_uint;
    destruct (Pos.to_uint p) eqn:E; try reflexivity;
    exfalso; exact (Unsigned.to_uint_nonnil p E).
Qed.

(** The decimal text of an integer reads back as the integer, up to the
    limit on the number of digits. *)
Lemma int_of_str_printed z :
  decimal_digits z <= max_str_digits -> int_of_str (string_of_Z z) = Ok z.
Proof.
  unfold decimal_digits. rewrite !string_of_Z_cases.
  destruct z as [|p|p]; cbn [Z.abs]; intros H.
  - reflexivity.
  - apply int_of_str_unsigned.
    + apply printed_no_space.
    + rewrite (int_unsigned_printed _ (Unsigned.to_uint_nonnil p)).
      now rewrite uint_val_to_uint.
    + now rewrite printed_digits.
  - change (Z.neg p) with (- Z.pos p). apply int_of_str_negative.
    + apply printed_no_space.
    + rewrite (int_unsigned_printed _ (Unsigned.to_uint_nonnil p)).
      now rewrite uint_val_to_uint.
    + now rewrite printed_digits.
Qed.

(** Text made of digits only. *)
Fixpoint all_digits (s : string) : bool :=
  match s with
  | EmptyString => true
  | String c s' =>
      match digit_val c with
      | Some _ => all_digits s'
      | None => false
      end
  end.

Lemma digit_no_space c d : digit_val c = Some d -> is_space c = false.
Proof.
  unfold digit_val, is_space. cbv zeta.
  destruct (N.leb_spec 48 (N_of_ascii c)); [|discriminate].
  destruct (N.leb_spec (N_of_ascii c) 57); [|discriminate].
  intros _.
  destruct (N.leb_spec 9 (N_of_ascii c)); [|lia].
  destruct (N.leb_spec (N_of_ascii c) 13); [lia|].
  destruct (N.eqb_spec (N_of_ascii c) 32); [lia|reflexivity].
Qed.

Lemma all_digits_facts s :
  all_digits s = true ->
  no_space s = true /\
  count_digits s = Z.of_nat (String.length s) /\
  forall acc, exists z, int_digits acc false s = Some z.
Proof.
  induction s as [|c s IH]; intros H.
  - repeat split. intros acc. now exists acc.
  - cbn [all_digits] in H. destruct (digit_val c) as [d|] eqn:D; [|discriminate H].
    destruct (IH H) as (N & C & V).
    cbn [no_space count_digits String.length int_digits]. rewrite D.
    rewrite (digit_no_space _ _ D), N, C.
    repeat split; [lia|]. intros acc. apply V.
Qed.

(** Digits beyond the limit are refused. *)
Lemma int_of_str_too_long s :
  all_digits s = true -> max_str_digits < Z.of_nat (String.length s) ->
  int_of_str s = Raise ValueError.
Proof.
  intros A L. destruct (all_digits_facts s A) as (N & C & V).
  unfold int_of_str. rewrite (strip_no_space _ N).
  destruct s as [|c s']; [reflexivity|].
  cbn [all_digits] in A. destruct (digit_val c) as [d|] eqn:D; [|discriminate A].
  destruct (Ascii.eqb_spec c "-") as [->|_]; [discriminate D|].
  destruct (Ascii.eqb_spec c "+") as [->|_]; [discriminate D|].
  destruct (int_unsigned (String c s')); [|reflexivity].
  rewrite C. destruct (Z.ltb_spec max_str_digits (Z.of_nat (String.length (String c s'))));
    [reflexivity|lia].
Qed.

(** X17. TheSportsDB sends its numbers as text: [_parse_score] and
    [_parse_int] read the decimal text of an integer of at most 4300
    digits back as that integer, and answer null for a text of more
    digits, which [int] refuses; they take an integer as it is, and
    answer null for null, for the empty text and for a list or an
    object, without raising. *)
Theorem parse_score_reads_integers (z : Z) :
  (decimal_digits z <= max_str_digits ->
   TheSportsDB._parse_score (VStr (string_of_Z z)) = VInt z /\
   TheSportsDB._parse_int (VStr (string_of_Z z)) = VInt z) /\
  (forall s, all_digits s = true ->
             max_str_digits < Z.of_nat (String.length s) ->
             TheSportsDB._parse_score (VStr s) = VNone /\
             TheSportsDB._parse_int (VStr s) = VNone) /\
  TheSportsDB._parse_score (VInt z) = VInt z /\
  TheSportsDB._parse_score VNone = VNone /\
  TheSportsDB._parse_score (VStr "") = VNone /\
  (forall l, TheSportsDB._parse_score (VList l) = VNone) /\
  (forall d, TheSportsDB._parse_score (VDict d) = VNone).
Proof.
  unfold TheSportsDB._parse_score, TheSportsDB._parse_int.
  cbn [is_none orb py_int].
  split; [|split; [|repeat split; reflexivity]].
  - intros H.
    assert (E : value_eqb (VStr (string_of_Z z)) (VStr "") = false).
    { cbn [value_eqb]. rewrite string_of_Z_cases.
      destruct z as [|p|p]; [reflexivity| |reflexivity].
      destruct (Pos.to_uint p) eqn:U; try reflexivity.
      exfalso; exact (Unsigned.to_uint_nonnil p U). }
    rewrite E, (int_of_str_printed z H). split; reflexivity.
  - intros s A L. rewrite (int_of_str_too_long s A L).
    destruct (value_eqb (VStr s) (VStr "")); split; reflexivity.
Qed.

Example parse_score_ex :
  TheSportsDB._parse_score (VStr "2") = VInt 2 /\
  TheSportsDB._parse_score (VStr " 10 ") = VInt 10 /\
  TheSportsDB._parse_score (VStr "-1") = VInt (-1) /\
  TheSportsDB._parse_score (VStr "2.0") = VNone /\
  TheSportsDB._parse_score (VStr "1-0") = VNone.
Proof. repeat split; reflexivity. Qed.

End IntegerText.

(** ** Status and scores of a TheSportsDB record *)

Section StatusOfScores.

Lemma parse_score_null v : TheSportsDB._parse_score v <> VNone -> is_none v = false.
Proof. destruct v; [intros H; now contradiction H|reflexivity..]. Qed.

(** X18. In every record [_parse_event] returns, scores and status fit
    together: a record with both scores set has the status finished.
    (The converse does not hold: a past match, or one whose scores are
    empty text, is finished without scores.) *)
Theorem parsed_scores_mean_finished (today : date) (event : value)
    (detailed : bool) (r : dict) :
  TheSportsDB._parse_event today event detailed = Some r ->
  dict_get r "home_score" <> VNone ->
  dict_get r "away_score" <> VNone ->
  dict_get r "status" = VStr "finished".
Proof.
  unfold TheSportsDB._parse_event.
  destruct event as [| | | | |d]; try discriminate.
  cbn [get get_default rbind].
  unfold TheSportsDB._determine_status. cbn [get get_default rbind].
  fold (dict_get d "intHomeScore"). fold (dict_get d "intAwayScore").
  destruct (negb (is_none (dict_get d "intHomeScore"))
            && negb (is_none (dict_get d "intAwayScore"))) eqn:B.
  - cbn [rbind catch_all]. destruct detailed; intros [= <-] _ _; reflexivity.
  - intros H Hh Ha. exfalso.
    assert (Hh' : TheSportsDB._parse_score (dict_get d "intHomeScore") <> VNone
                  /\ TheSportsDB._parse_score (dict_get d "intAwayScore") <> VNone).
    { match type of H with
      | catch_all (rbind ?x _) = _ => destruct x as [st|e]
      end; [|discriminate H].
      cbn [rbind catch_all] in H.
      destruct detailed; injection H as <-; split; assumption. }
    destruct Hh' as [H1 H2].
    apply parse_score_null in H1, H2. rewrite H1, H2 in B. discriminate B.
Qed.

Lemma parsed_scores_mean_finished_witness :
  dict_get
    [ ("api_id", VStr "1"); ("match_date", VStr "2031-05-01");
      ("kick_off_time", VNone); ("home_team", VNone); ("away_team", VNone);
      ("home_score", VInt 2); ("away_score", VInt 0); ("competition", VNone);
      ("season", VNone); ("venue", VNone); ("round", VNone);
      ("status", VStr "finished") ] "status" = VStr "finished".
Proof.
  apply (parsed_scores_mean_finished (mkDate 2024 3 10)
           (VDict [ ("idEvent", VStr "1"); ("dateEvent", VStr "2031-05-01");
                    ("intHomeScore", VStr "2"); ("intAwayScore", VStr "0") ])
           false).
  - reflexivity.
  - discriminate.
  - discriminate.
Defined.

End StatusOfScores.

(** ** A score update and the other matches *)

Section OtherMatches.

Import DatabaseManager.

(** X19. [update_match_score] writes to the rows of the given id only:
    the rows of every other id are after the update the rows they were
    before, scores, status and timestamp included, and the table holds
    the ids it held. *)
Theorem update_match_score_other_rows (sch : Schema) (id : Z)
    (home away status : value) (p : pstate) :
  let p' := snd (update_match_score sch id home away status p) in
  Permutation (other_matches id (matches (store p')))
              (other_matches id (matches (store p))) /\
  Permutation (map match_id (matches (store p')))
              (map match_id (matches (store p))).
Proof.
  cbv zeta.
  destruct (update_match_score_store sch id home away status p) as [E|E];
    rewrite E; [split; apply Permutation_refl|].
  cbn [matches with_matches]. clear E. split.
  - unfold other_matches.
    generalize (db_now (store p)). intros now.
    induction (matches (store p)) as [|x rows IH]; [apply Permutation_refl|].
    cbn [map filter].
    destruct (Z.eqb_spec (match_id x) id) as [Hx|Hx].
    + cbn [score_update match_id]. rewrite Hx, Z.eqb_refl. cbn [negb]. exact IH.
    + destruct (Z.eqb_spec (match_id x) id); [contradiction|].
      cbn [negb]. now apply perm_skip.
  - rewrite map_map. erewrite map_ext; [apply Permutation_refl|].
    intros x. destruct (match_id x =? id); reflexivity.
Qed.

End OtherMatches.

(** ** The same match stored twice *)

Section TwiceStored.

Import DatabaseManager.
Import CurrentSeasonFetcher.



(** Equality of two values as they are written. *)
Fixpoint value_same (v w : value) {struct v} : bool :=
  match v, w with
  | VNone, VNone => true
  | VBool a, VBool b => Bool.eqb a b
  | VInt a, VInt b => a =? b
  | VStr a, VStr b => (a =? b)%string
  | VList l, VList l' =>
      (fix go (xs ys : list value) {struct xs} : bool :=
         match xs, ys with
         | [], [] => true
         | x :: xs', y :: ys' => value_same x y && go xs' ys'
         | _, _ => false
         end) l l'
  | VDict d, VDict d' =>
      (fix go (xs ys : list (string * value)) {struct xs} : bool :=
         match xs, ys with
         | [], [] => true
         | (k, x) :: xs', (k', y) :: ys' =>
             (k =? k')%string && value_same x y && go xs' ys'
         | _, _ => false
         end) d d'
  | _, _ => false
  end.


Definition same_matchb (new old : MatchRow) : bool :=
  (negb (is_none (api_id_thesportsdb new))
   && value_same (api_id_thesportsdb old) (api_id_thesportsdb new))
  || (negb (is_none (api_id_football_data new))
      && value_same (api_id_football_data old) (api_id_football_data new))
  || (is_none (api_id_thesportsdb new) && is_none (api_id_football_data new)
      && value_same (m_season_id old) (m_season_id new)
      && value_same (m_competition_id old) (m_competition_id new)
      && value_same (match_date old) (match_date new)
      && value_same (home_team_id old) (home_team_id new)
      && value_same (away_team_id old) (away_team_id new)).

(** A schema whose only constraint is the natural key of a match. *)
Definition natural_keys : Schema :=
  mkSchema (fun _ => true) (fun _ => true)
           (fun rows r => negb (existsb (same_matchb r) rows))
           (fun _ _ => true) (fun now => Some now)
           (fun _ => true) (fun _ => true) (fun _ _ => true) (fun _ => O).







(** *** The season of the record *)







(** *** The teams of the record *)








(** *** The steps of [_store_match] *)





















(** The played match stored twice under this schema: one row, the
    second application given up with the error of the database, its id
    drawn all the same. *)
Example store_match_twice_refused :
  let p2 := store_twice natural_keys played_record "thesportsdb" seeded in
  map (fun r => (match_id r, home_score r, away_score r)) (matches (store p2))
    = [ (1, VInt 2, VInt 0) ] /\
  next_match_id (store p2) = 3 /\
  filter (fun r => match fst r with ERROR => true | _ => false end) (log p2)
    = [ (ERROR, MsgExn "Database operation failed: " DbError);
        (ERROR, MsgExn "Error storing match: " DbError) ].
Proof. cbv zeta. repeat split; reflexivity. Qed.

(** The next match that is stored gets the id after the one that the
    refused INSERT has drawn. *)
Definition next_record : dict :=
  dict_set (dict_set played_record "api_id" (VStr "1041188"))
           "match_date" (VStr "2024-03-16").

Example id_after_refusal :
  map match_id
      (matches (store (snd (_store_match natural_keys "2023/24" next_record
                              "thesportsdb"
                              (store_twice natural_keys played_record
                                 "thesportsdb" seeded)))))
  = [ 1; 3 ].
Proof. reflexivity. Qed.

End TwiceStored.
